(** * Lighthouse batch runner and report differ: a shallow embedding

    The development follows the two scripts of the repository:
    [python3-1.py] (batch runner: metric extraction, diagnostic rules,
    repeat folding, aggregation) and [compare_performance.py] (the CSV
    report differ).

    Numbers.  Python [int] values are integers ([Z]); Python [float]
    values are modelled by exact rationals ([Q]), so rounding, infinities
    and NaN are outside the model.  The one float failure that matters for
    the extractor, [float(int)] raising [OverflowError], is kept.

    Strings.  A Python [str] is a [string], one [ascii] per character;
    the non-ASCII text of the messages is kept as written and is never
    sliced.

    Failure.  A Python exception is a [Raise] in the [result] type. *)

From Stdlib Require Import List ZArith QArith Qround Qpower Qabs Lia Lqa Bool.
From Stdlib Require Import Ascii String Permutation Sorted.
From Stdlib Require Import DecimalString DecimalNat.
Import ListNotations.

Set Implicit Arguments.

(* ================================================================== *)
(** * Python values, exceptions and a few builtins *)

Module Py.

Inductive exn : Type :=
| AttributeError | IndexError | OverflowError
| ValueError | TypeError | KeyError | ZeroDivisionError.

Inductive result (A : Type) : Type :=
| Ok (a : A)
| Raise (e : exn).
Arguments Ok {A} a.
Arguments Raise {A} e.

Definition bind {A B} (c : result A) (k : A -> result B) : result B :=
  match c with
  | Ok a => k a
  | Raise e => Raise e
  end.

(** Objects as [json.load] builds them: [None], [bool], [int], [float],
    [str], [list] and [dict] with string keys. *)
#[warnings="-register-all"]
Inductive value : Type :=
| VNone
| VBool (b : bool)
| VInt (z : Z)
| VFloat (q : Q)
| VStr (s : string)
| VList (l : list value)
| VDict (d : list (string * value)).

(** Truth value of an object, as [not x], [x or y] and [if x] use it. *)
Definition truthy (v : value) : bool :=
  match v with
  | VNone => false
  | VBool b => b
  | VInt z => negb (z =? 0)%Z
  | VFloat q => negb (Qeq_bool q 0)
  | VStr s => negb (String.eqb s EmptyString)
  | VList l => match l with [] => false | _ => true end
  | VDict d => match d with [] => false | _ => true end
  end.

(** [x or y] *)
Definition or_else (x y : value) : value := if truthy x then x else y.

Fixpoint assoc (k : string) (d : list (string * value)) : option value :=
  match d with
  | [] => None
  | (k', v) :: d' => if String.eqb k k' then Some v else assoc k d'
  end.

(** [x.get(k)]: only a dict has the method; a missing key gives [None]. *)
Definition get (x : value) (k : string) : result value :=
  match x with
  | VDict d => Ok (match assoc k d with Some v => v | None => VNone end)
  | _ => Raise AttributeError
  end.

(** [isinstance(v, (int, float))]; [bool] is a subclass of [int]. *)
Definition is_number (v : value) : bool :=
  match v with
  | VBool _ | VInt _ | VFloat _ => true
  | _ => false
  end.

Definition is_list (v : value) : bool :=
  match v with VList _ => true | _ => false end.

Definition is_dict (v : value) : bool :=
  match v with VDict _ => true | _ => false end.

(** The least integer magnitude that [float] refuses: it would round to
    2^1024. *)
Definition float_overflow : Z := (2 ^ 1024 - 2 ^ 970)%Z.

(** [float(v)] for a [v] that passed [isinstance(v, (int, float))]. *)
Definition float_of (v : value) : result Q :=
  match v with
  | VBool b => Ok (if b then 1 else 0)
  | VInt z => if (Z.abs z <? float_overflow)%Z then Ok (inject_Z z)
              else Raise OverflowError
  | VFloat q => Ok q
  | _ => Raise TypeError
  end.

(** The number behind a numeric object, for comparisons [v > c]. *)
Definition number_of (v : value) : Q :=
  match v with
  | VBool b => if b then 1 else 0
  | VInt z => inject_Z z
  | VFloat q => q
  | _ => 0
  end.

(** [v == 0] *)
Definition eq_zero (v : value) : bool :=
  is_number v && Qeq_bool (number_of v) 0.

Definition Qlt_bool (x y : Q) : bool := negb (Qle_bool y x).

(** [a / b] on floats *)
Definition div (a b : Q) : result Q :=
  if Qeq_bool b 0 then Raise ZeroDivisionError else Ok (a / b)%Q.

(** [int(x)] of a float: truncation toward zero. *)
Definition int_of_float (x : Q) : Z := Z.quot (Qnum x) (Zpos (Qden x)).

(** [xs[i]] with Python's negative indices and [IndexError]. *)
Definition index {A} (xs : list A) (i : Z) : result A :=
  let n := Z.of_nat (List.length xs) in
  let j := if (i <? 0)%Z then (i + n)%Z else i in
  if (j <? 0)%Z then Raise IndexError
  else match nth_error xs (Z.to_nat j) with
       | Some x => Ok x
       | None => Raise IndexError
       end.

(** [list.sort]: a stable sort that compares with [<] only.  Stable
    insertion: an element goes before the first one that is not
    smaller than it. *)
Section Sort.
Variable A : Type.
Variable lt : A -> A -> bool.

Fixpoint insert (x : A) (l : list A) : list A :=
  match l with
  | [] => [x]
  | y :: l' => if lt y x then y :: insert x l' else x :: l
  end.

Definition sort (l : list A) : list A := fold_right insert [] l.
End Sort.

(** [[x for x in xs if x is not None]] *)
Fixpoint available {A} (xs : list (option A)) : list A :=
  match xs with
  | [] => []
  | Some x :: xs' => x :: available xs'
  | None :: xs' => available xs'
  end.

(** ** Strings *)

Definition chars (s : string) : list ascii := list_ascii_of_string s.
Definition str (l : list ascii) : string := string_of_list_ascii l.

(** [s[:n]] and [s[n:]] for [n >= 0] *)
Definition str_take (n : nat) (s : string) : string := str (firstn n (chars s)).
Definition str_drop (n : nat) (s : string) : string := str (skipn n (chars s)).

(** [s[:-k]] for [k > 0] *)
Definition str_drop_last (k : nat) (s : string) : string :=
  str_take (String.length s - k) s.

Definition startswith (s pre : string) : bool := String.prefix pre s.

Definition endswith (s suf : string) : bool :=
  (String.length suf <=? String.length s)%nat
  && String.eqb (str_drop (String.length s - String.length suf) s) suf.

(** [str.isspace] on the characters below 256. *)
Definition is_space (c : ascii) : bool :=
  let n := nat_of_ascii c in
  ((9 <=? n) && (n <=? 13) || (28 <=? n) && (n <=? 32)
   || (n =? 133) || (n =? 160))%nat.

Fixpoint lstrip_chars (l : list ascii) : list ascii :=
  match l with
  | [] => []
  | c :: l' => if is_space c then lstrip_chars l' else l
  end.

Fixpoint rstrip_chars (l : list ascii) : list ascii :=
  match l with
  | [] => []
  | c :: l' =>
      match rstrip_chars l' with
      | [] => if is_space c then [] else [c]
      | r => c :: r
      end
  end.

(** [s.lstrip()] *)
Definition lstrip (s : string) : string := str (lstrip_chars (chars s)).

(** [s.strip()] *)
Definition strip (s : string) : string :=
  str (rstrip_chars (lstrip_chars (chars s))).

(** [str(n)] for a natural number *)
Definition str_of_nat (n : nat) : string :=
  NilEmpty.string_of_uint (Nat.to_uint n).

(** [str(z)] for an integer *)
Definition str_of_Z (z : Z) : string :=
  if (z <? 0)%Z then String "-" (str_of_nat (Z.abs_nat z))
  else str_of_nat (Z.abs_nat z).

(** [sep.join(xs)] *)
Definition join (sep : string) (xs : list string) : string :=
  String.concat sep xs.

End Py.

Import Py.

Notation "x <- c ;; k" := (Py.bind c (fun x => k))
  (at level 61, c at next level, right associativity).

(* ================================================================== *)
(** * python3-1.py *)

Module Lcp.

Open Scope string_scope.

(** [THRESHOLDS]: metric -> (good, ni) *)
Definition THRESHOLDS : list (string * (Q * Q)) :=
  [ ("LCP",  (2500, 4000));
    ("INP",  (200, 500));
    ("CLS",  (1 # 10, 1 # 4));
    ("TBT",  (200, 600));
    ("FCP",  (1800, 3000));
    ("TTFB", (800, 1800)) ]%Q.

Fixpoint thresholds_get (m : string) (t : list (string * (Q * Q)))
  : option (Q * Q) :=
  match t with
  | [] => None
  | (k, v) :: t' => if String.eqb m k then Some v else thresholds_get m t'
  end.

Definition grade (metric : string) (v : option Q) : string :=
  match v with
  | None => "N/A"
  | Some value =>
      match thresholds_get metric THRESHOLDS with
      | None => "N/A"
      | Some (good, ni) =>
          if Qle_bool value good then "GOOD"
          else if Qle_bool value ni then "NI"
          else "POOR"
      end
  end.

Definition median (xs : list (option Q)) : result (option Q) :=
  let xs := available xs in
  match xs with
  | [] => Ok None
  | _ =>
      let xs := sort Qlt_bool xs in
      let n := Z.of_nat (List.length xs) in
      let mid := (n / 2)%Z in
      if (n mod 2 =? 1)%Z then
        a <- index xs mid ;; Ok (Some a)
      else
        a <- index xs (mid - 1)%Z ;;
        b <- index xs mid ;;
        Ok (Some ((a + b) / 2)%Q)
  end.

Definition percentile (xs : list (option Q)) (p : Q) : result (option Q) :=
  let xs := available xs in
  match xs with
  | [] => Ok None
  | _ =>
      let xs := sort Qlt_bool xs in
      let n := Z.of_nat (List.length xs) in
      if (n =? 1)%Z then
        a <- index xs 0%Z ;; Ok (Some a)
      else
        let idx := (inject_Z (n - 1) * p)%Q in
        let lo := int_of_float idx in
        let hi := Z.min (lo + 1) (n - 1) in
        let frac := (idx - inject_Z lo)%Q in
        a <- index xs lo ;;
        b <- index xs hi ;;
        a' <- index xs lo ;;
        Ok (Some (a + (b - a') * frac)%Q)
  end.

(** ** File names *)

Definition is_sep (c : ascii) : bool :=
  existsb (Ascii.eqb c) ["/"; ":"; "?"; "&"; "="; "#"]%char.

(** [re.sub(r"^https?://", "", url)] *)
Definition strip_scheme (url : string) : string :=
  if startswith url "http://" then str_drop 7 url
  else if startswith url "https://" then str_drop 8 url
  else url.

(** [re.sub(r"[\/:?&=#]+", "_", s)]: each maximal run of separators
    becomes one underscore.  [in_run] says that the previous character
    was a separator. *)
Fixpoint collapse_seps (in_run : bool) (l : list ascii) : list ascii :=
  match l with
  | [] => []
  | c :: l' =>
      if is_sep c then
        if in_run then collapse_seps true l'
        else "_"%char :: collapse_seps true l'
      else c :: collapse_seps false l'
  end.

Definition sanitize_filename (url unique_suffix : string) : string :=
  let s := strip_scheme url in
  let s := str (collapse_seps false (chars s)) in
  let s := str_take 150 s in
  if negb (String.eqb unique_suffix "")
  then s ++ "__" ++ str_take 30 unique_suffix
  else s.

(** [os.path.join(a, b)] (POSIX) *)
Definition path_join (a b : string) : string :=
  if startswith b "/" then b
  else if String.eqb a "" || endswith a "/" then a ++ b
  else a ++ "/" ++ b.

(** The unique id and the report path that [lighthouse_once] computes
    before it runs the tool. *)
Definition unique_id (device run_id : string) : string :=
  if negb (String.eqb run_id "") then device ++ "__" ++ run_id else device.

Definition lhr_path (url out_dir device run_id : string) : string :=
  let filename :=
    sanitize_filename url (unique_id device run_id) ++ ".lhr.json" in
  path_join out_dir filename.

(** [run_id] as [run_url_repeats] chooses it for repeat [i] *)
Definition run_id_of (repeats i : nat) : string :=
  if (1 <? repeats)%nat then "run" ++ str_of_nat (i + 1) else "".

(** ** MetricExtractor *)

(** [(lhr.get("audits") or {})] *)
Definition audits_of (lhr : value) : result value :=
  a <- get lhr "audits" ;;
  Ok (or_else a (VDict [])).

Definition audit_numeric (lhr : value) (audit_id : string)
  : result (option Q) :=
  audits <- audits_of lhr ;;
  a <- get audits audit_id ;;
  if negb (truthy a) then Ok None
  else
    v <- get a "numericValue" ;;
    if is_number v then (q <- float_of v ;; Ok (Some q)) else Ok None.

Definition audit_items (lhr : value) (audit_id : string)
  : result (list value) :=
  audits <- audits_of lhr ;;
  a0 <- get audits audit_id ;;
  let a := or_else a0 (VDict []) in
  d0 <- get a "details" ;;
  let details := or_else d0 (VDict []) in
  i0 <- get details "items" ;;
  let items := or_else i0 (VList []) in
  match items with
  | VList l => Ok l
  | _ => Ok []
  end.

(** [(lhr.get("audits") or {}).get(audit_id) or {}] *)
Definition audit_obj (lhr : value) (audit_id : string) : result value :=
  audits <- audits_of lhr ;;
  a <- get audits audit_id ;;
  Ok (or_else a (VDict [])).

(** [(a.get("details") or {}).get(k)] *)
Definition details_get (a : value) (k : string) : result value :=
  d <- get a "details" ;;
  get (or_else d (VDict [])) k.

Record Flags : Type := mkFlags {
  lcpLazyLoaded : bool;
  needsPrioritizeLcpImage : bool;
  heavyBootup : bool;
  hasLongTasks : bool;
  heavyMainThread : bool;
  lotsUnusedJs : bool
}.

(** One entry of ["renderBlockingTop"]: a dict with exactly these keys. *)
Record Blocking : Type := mkBlocking {
  rb_url : value;
  rb_resourceType : value;
  rb_wastedMs : value;
  rb_totalBytes : value
}.

(** The dict that [extract_metrics] returns.  The folded metrics of
    [run_url_repeats] have no ["auditEvidence"] key, which reads as the
    empty dict. *)
Record Metrics : Type := mkMetrics {
  perfScore : option Q;
  lcp : option Q;
  inp : option Q;
  cls : option Q;
  tbt : option Q;
  fcp : option Q;
  ttfb : option Q;
  lcpElement : value;
  renderBlockingTop : list Blocking;
  flags : Flags;
  auditEvidence : list (string * value)
}.

(** The loop over [rb_items[:10]] *)
Fixpoint rb_top_of (items : list value) : result (list Blocking) :=
  match items with
  | [] => Ok []
  | it :: rest =>
      if negb (is_dict it) then rb_top_of rest
      else
        u <- get it "url" ;;
        rt <- get it "resourceType" ;;
        w <- get it "wastedMs" ;;
        tb <- get it "totalBytes" ;;
        tl <- rb_top_of rest ;;
        Ok (mkBlocking u rt w tb :: tl)
  end.

(** [isinstance(v, (int, float)) and v > c] *)
Definition number_gt (v : value) (c : Q) : bool :=
  is_number v && Qlt_bool c (number_of v).

Definition extract_metrics (lhr : value) : result Metrics :=
  lcp_v <- audit_numeric lhr "largest-contentful-paint" ;;
  cls_v <- audit_numeric lhr "cumulative-layout-shift" ;;
  tbt_v <- audit_numeric lhr "total-blocking-time" ;;
  fcp_v <- audit_numeric lhr "first-contentful-paint" ;;
  ttfb_v <- audit_numeric lhr "server-response-time" ;;
  inp0 <- audit_numeric lhr "interaction-to-next-paint" ;;
  inp_v <- match inp0 with
           | None => audit_numeric lhr "experimental-interaction-to-next-paint"
           | Some _ => Ok inp0
           end ;;
  c0 <- get lhr "categories" ;;
  let cats := or_else c0 (VDict []) in
  p0 <- get cats "performance" ;;
  let perf := or_else p0 (VDict []) in
  score <- get perf "score" ;;
  perf_score <- (if is_number score
                 then (q <- float_of score ;; Ok (Some q))
                 else Ok None) ;;
  lcp_elem_items <- audit_items lhr "largest-contentful-paint-element" ;;
  let lcp_element := match lcp_elem_items with
                     | [] => VNone
                     | x :: _ => x
                     end in
  lcp_element_info <-
    (if is_dict lcp_element then
       sel <- get lcp_element "selector" ;;
       lab <- get lcp_element "nodeLabel" ;;
       snip <- get lcp_element "snippet" ;;
       u1 <- get lcp_element "url" ;;
       u <- (if truthy u1 then Ok u1
             else u2 <- get lcp_element "sourceURL" ;;
                  if truthy u2 then Ok u2
                  else get lcp_element "requestUrl") ;;
       Ok (VDict [("selector", sel); ("nodeLabel", lab);
                  ("snippet", snip); ("url", u)])
     else Ok VNone) ;;
  rb_items <- audit_items lhr "render-blocking-resources" ;;
  rb_top <- rb_top_of (firstn 10 rb_items) ;;
  lcp_lazy <- audit_obj lhr "lcp-lazy-loaded" ;;
  prioritize <- audit_obj lhr "prioritize-lcp-image" ;;
  bootup <- audit_obj lhr "bootup-time" ;;
  long_tasks <- audit_obj lhr "long-tasks" ;;
  mainthread <- audit_obj lhr "mainthread-work-breakdown" ;;
  unused_js <- audit_obj lhr "unused-javascript" ;;
  diagnostics <- audit_obj lhr "diagnostics" ;;
  third_party <- audit_obj lhr "third-party-summary" ;;
  ev_bootup <- get bootup "numericValue" ;;
  ev_long <- details_get long_tasks "items" ;;
  ev_main <- get mainthread "numericValue" ;;
  ev_unused <- details_get unused_js "overallSavingsMs" ;;
  ev_diag <- get diagnostics "details" ;;
  ev_third <- details_get third_party "items" ;;
  let audit_evidence :=
    [ ("bootup-time", VDict [("numericValue", ev_bootup)]);
      ("long-tasks", VDict [("items", ev_long)]);
      ("mainthread-work-breakdown", VDict [("numericValue", ev_main)]);
      ("unused-javascript", VDict [("overallSavingsMs", ev_unused)]);
      ("render-blocking-resources",
       VDict [("items", VList (firstn 10 rb_items))]);
      ("diagnostics", VDict [("details", ev_diag)]);
      ("third-party-summary", VDict [("items", ev_third)]) ] in
  lazy_score <- get lcp_lazy "score" ;;
  prio_score <- get prioritize "score" ;;
  bootup_v <- get bootup "numericValue" ;;
  lt0 <- details_get long_tasks "items" ;;
  let lt_items := or_else lt0 (VList []) in
  mt_v <- get mainthread "numericValue" ;;
  savings_ms <- details_get unused_js "overallSavingsMs" ;;
  Ok {| perfScore := perf_score;
        lcp := lcp_v;
        inp := inp_v;
        cls := cls_v;
        tbt := tbt_v;
        fcp := fcp_v;
        ttfb := ttfb_v;
        lcpElement := lcp_element_info;
        renderBlockingTop := rb_top;
        flags := {| lcpLazyLoaded := eq_zero lazy_score;
                    needsPrioritizeLcpImage := eq_zero prio_score;
                    heavyBootup := number_gt bootup_v 2000;
                    hasLongTasks := is_list lt_items && truthy lt_items;
                    heavyMainThread := number_gt mt_v 4000;
                    lotsUnusedJs := number_gt savings_ms 500 |};
        auditEvidence := audit_evidence |}.

(** ** DiagnosticRules *)

(** Text formatting that the language supplies: [f"{x:.kf}"] of a float,
    [f"{v}"] of an object and [str(e)] of an exception. *)
Record Formats : Type := mkFormats {
  fmt_fixed : nat -> Q -> string;
  str_value : value -> string;
  str_exn : exn -> string
}.

Record Reason : Type := mkReason {
  r_level : string;
  r_title : string;
  r_detail : string
}.

Record Issue : Type := mkIssue {
  level : string;
  metric : string;
  title : string;
  detail : string;
  value_of : option Q;
  auditId : option string;
  evidence : value
}.

(** [level_order.get(level, 99)] *)
Definition level_order (lv : string) : Z :=
  if String.eqb lv "HIGH" then 0
  else if String.eqb lv "MED" then 1
  else if String.eqb lv "LOW" then 2
  else 99.

(** [x["value"] or 0] *)
Definition value_or_zero (v : option Q) : Q :=
  match v with
  | Some q => if truthy (VFloat q) then q else 0
  | None => 0
  end.

(** The sort key [(level_order.get(x["level"], 99), -(x["value"] or 0))] *)
Definition sort_key (x : Issue) : Z * Q :=
  (level_order (level x), - value_or_zero (value_of x))%Q.

(** [<] on the key tuples: the first components decide unless equal. *)
Definition key_lt (a b : Z * Q) : bool :=
  if (fst a =? fst b)%Z then Qlt_bool (snd a) (snd b)
  else (fst a <? fst b)%Z.

Definition issue_lt (x y : Issue) : bool := key_lt (sort_key x) (sort_key y).

(** [isinstance(v, (int, float)) and v > c] for a metric field *)
Definition over (v : option Q) (c : Q) : bool :=
  match v with
  | Some q => Qlt_bool c q
  | None => false
  end.

(** [rb[0].get("url") or "未知资源"], formatted into the detail text *)
Definition rb_url_text (F : Formats) (first : Blocking) : string :=
  str_value F (or_else (rb_url first) (VStr "未知资源")).

Definition when {A} (b : bool) (x : A) : list A := if b then [x] else [].

Section Rules.
Variable F : Formats.

Definition ms_text (v : option Q) : string :=
  match v with
  | Some q => str_of_Z (int_of_float q)
  | None => ""
  end.

Definition sec_text (v : option Q) : string :=
  match v with
  | Some q => fmt_fixed F 2 (q / 1000)
  | None => ""
  end.

Definition build_lcp_reasons (m : Metrics) : list Reason :=
  let fl := flags m in
  let rb := renderBlockingTop m in
  let reasons := List.concat [
    when (over (ttfb m) 1200)
      (mkReason "HIGH" "TTFB 偏高（后端/网关/CDN 回源慢）"
         ("TTFB≈" ++ sec_text (ttfb m)
          ++ "s，先看 CDN 命中率/回源耗时/接口耗时/重定向链路。"));
    when (lcpLazyLoaded fl)
      (mkReason "HIGH" "LCP 元素被懒加载拖慢"
         "首屏最大元素不要 lazy（尤其是首屏大图/大模块）。");
    when (needsPrioritizeLcpImage fl)
      (mkReason "HIGH" "LCP 图片未被优先加载（缺 preload / 优先级）"
         "对 LCP 图片做 preload / fetchpriority，提高首屏优先级，配合压缩裁剪与 CDN。");
    match rb with
    | [] => []
    | first :: _ =>
        [mkReason "MED" "存在渲染阻塞资源（CSS/同步 JS）"
           ("示例阻塞资源：" ++ rb_url_text F first)]
    end;
    when (over (tbt m) 600)
      (mkReason "MED" "主线程阻塞（TBT 高）推迟渲染与 LCP"
         ("TBT≈" ++ ms_text (tbt m)
          ++ "ms，常见原因：bundle 大、初始化重、第三方脚本占用。"));
    when (heavyBootup fl)
      (mkReason "MED" "JS 启动/解析执行开销大（bootup-time 高）"
         "拆包、延迟非首屏代码、减少 polyfill/过度转译、第三方脚本延后。");
    when (lotsUnusedJs fl)
      (mkReason "LOW" "未使用 JS 较多（可减包）"
         "减少首屏下载/解析量，间接改善 LCP/FCP/INP。") ] in
  match reasons with
  | [] =>
      when (over (lcp m) 4000)
        (mkReason "MED" "LCP 偏慢但未命中明确诊断项"
           "建议结合 Performance trace 看：LCP 资源请求、CSS 阻塞、长任务、图片解码绘制阶段。")
  | _ => reasons
  end.

(** [add_issue]: the record appended to [issues] *)
Definition add_issue (m : Metrics) (lv met ttl det : string)
  (v : option Q) (audit_id : string) : Issue :=
  {| level := lv; metric := met; title := ttl; detail := det;
     value_of := v; auditId := Some audit_id;
     evidence := match assoc audit_id (auditEvidence m) with
                 | Some e => e
                 | None => VNone
                 end |}.

(** The issues in the order the rules append them, before the sort. *)
Definition collect_issues (m : Metrics) : list Issue :=
  let fl := flags m in
  let render_blocking := renderBlockingTop m in
  List.concat [
    when (over (lcp m) 4000)
      (add_issue m "HIGH" "LCP" "LCP 偏慢"
         ("LCP≈" ++ sec_text (lcp m)
          ++ "s，需关注资源请求、渲染阻塞、解码绘制与主线程阻塞。")
         (lcp m) "largest-contentful-paint");
    when (over (ttfb m) 1200)
      (add_issue m "HIGH" "TTFB" "TTFB 偏高（后端/网关/CDN 回源慢）"
         ("TTFB≈" ++ sec_text (ttfb m)
          ++ "s，先看 CDN 命中率/回源耗时/接口耗时/重定向链路。")
         (ttfb m) "server-response-time");
    when (over (inp m) 500)
      (add_issue m "HIGH" "INP" "交互响应慢（INP 高）"
         ("INP≈" ++ ms_text (inp m)
          ++ "ms，排查长任务、主线程阻塞与第三方脚本。")
         (inp m) "interaction-to-next-paint");
    when (over (cls m) (1 # 4))
      (add_issue m "MED" "CLS" "布局抖动明显（CLS 高）"
         ("CLS≈" ++ match cls m with
                    | Some q => fmt_fixed F 3 q
                    | None => ""
                    end
          ++ "，检查图片/广告/懒加载占位、字体加载策略。")
         (cls m) "cumulative-layout-shift");
    when (over (tbt m) 600)
      (add_issue m "MED" "TBT" "主线程阻塞（TBT 高）"
         ("TBT≈" ++ ms_text (tbt m)
          ++ "ms，常见原因：bundle 大、初始化重、第三方脚本占用。")
         (tbt m) "total-blocking-time");
    when (over (fcp m) 3000)
      (add_issue m "MED" "FCP" "首次内容渲染慢（FCP 高）"
         ("FCP≈" ++ sec_text (fcp m)
          ++ "s，关注关键 CSS、首屏资源优先级与阻塞脚本。")
         (fcp m) "first-contentful-paint");
    when (lcpLazyLoaded fl)
      (add_issue m "HIGH" "LCP" "LCP 元素被懒加载拖慢"
         "首屏最大元素不要 lazy（尤其是首屏大图/大模块）。"
         (lcp m) "lcp-lazy-loaded");
    when (needsPrioritizeLcpImage fl)
      (add_issue m "HIGH" "LCP" "LCP 图片未被优先加载（缺 preload / 优先级）"
         "对 LCP 图片做 preload / fetchpriority，提高首屏优先级。"
         (lcp m) "prioritize-lcp-image");
    match render_blocking with
    | [] => []
    | first :: _ =>
        [add_issue m "MED" "FCP" "存在渲染阻塞资源（CSS/同步 JS）"
           ("示例阻塞资源：" ++ rb_url_text F first)
           None "render-blocking-resources"]
    end;
    when (heavyBootup fl)
      (add_issue m "MED" "TBT" "JS 启动/解析执行开销大（bootup-time 高）"
         "拆包、延迟非首屏代码、减少 polyfill/过度转译。"
         (tbt m) "bootup-time");
    when (lotsUnusedJs fl)
      (add_issue m "LOW" "TBT" "未使用 JS 较多（可减包）"
         "减少首屏下载/解析量，间接改善 LCP/FCP/INP。"
         None "unused-javascript") ].

Definition build_issue_list (m : Metrics) : list Issue :=
  sort issue_lt (collect_issues m).

(** ** RepeatRunner *)

(** What one invocation of the external tool leaves behind: an exception
    raised before the report is parsed ([run_cmd] failing, a non-zero exit,
    a timeout, an unreadable report), as its message, or the parsed
    report. *)
Inductive ToolOutcome : Type :=
| ToolError (msg : string)
| ToolReport (lhr : value).

Record RunResult : Type := mkRun {
  run_url : string;
  run_device : string;
  lhrPath : string;
  run_metrics : Metrics;
  run_lcpReasons : list Reason;
  run_issues : list Issue
}.

(** [lighthouse_once]; [tool] is the external invocation, given the report
    path.  [inr msg] is an exception leaving the function, with [str(e)]. *)
Definition lighthouse_once (tool : string -> ToolOutcome)
  (url out_dir device run_id : string) : RunResult + string :=
  let path := lhr_path url out_dir device run_id in
  match tool path with
  | ToolError msg => inr msg
  | ToolReport lhr =>
      match extract_metrics lhr with
      | Raise e => inr (str_exn F e)
      | Ok metrics =>
          inl {| run_url := url;
                 run_device := device;
                 lhrPath := path;
                 run_metrics := metrics;
                 run_lcpReasons := build_lcp_reasons metrics;
                 run_issues := build_issue_list metrics |}
      end
  end.

Record FailedResult : Type := mkFailed {
  f_url : string;
  f_device : string;
  error : string;
  allErrors : list string
}.

Record FoldedResult : Type := mkFolded {
  url_of : string;
  device_of : string;
  repeats_of : nat;
  metrics_of : Metrics;
  grades : list (string * string);
  lcpReasons : list Reason;
  issues : list Issue;
  sampleLhr : string;
  errors : list string
}.

Inductive UrlResult : Type :=
| AllFailed (f : FailedResult)
| Folded (r : FoldedResult).

(** The call of repeat [i]; [tool i] is the invocation of that repeat. *)
Definition attempt (tool : nat -> string -> ToolOutcome)
  (url : string) (repeats : nat) (out_dir device : string) (i : nat)
  : RunResult + string :=
  lighthouse_once (tool i) url out_dir device (run_id_of repeats i).

(** One turn of the [for i in range(repeats)] loop on [(runs, errors)] *)
Definition repeat_step (tool : nat -> string -> ToolOutcome)
  (url : string) (repeats : nat) (out_dir device : string)
  (st : list RunResult * list string) (i : nat)
  : list RunResult * list string :=
  match attempt tool url repeats out_dir device i with
  | inl r => (fst st ++ [r], snd st)%list
  | inr e => (fst st, snd st ++ [e])%list
  end.

(** The inner [collect(k)]: the numeric values of field [k] over [runs] *)
Definition collect (k : Metrics -> option Q) (runs : list RunResult)
  : list (option Q) :=
  map Some (available (map (fun r => k (run_metrics r)) runs)).

(** [run_url_repeats]; [tool i] is the invocation of repeat [i].  The
    timeout, the npx preference and the Chrome flags only reach the tool
    and are part of it. *)
Definition run_url_repeats (tool : nat -> string -> ToolOutcome)
  (url : string) (repeats : nat) (out_dir device : string)
  : result UrlResult :=
  let st := fold_left (repeat_step tool url repeats out_dir device)
                      (seq 0 repeats) ([], []) in
  let runs := fst st in
  let errs := snd st in
  match runs with
  | [] =>
      let error_msg := join "; " (firstn 3 errs) in
      let error_msg :=
        if (3 <? List.length errs)%nat
        then error_msg ++ " ... (还有" ++ str_of_nat (List.length errs - 3)
             ++ "个错误)"
        else error_msg in
      Ok (AllFailed {| f_url := url;
                       f_device := device;
                       error := if String.eqb error_msg "" then "unknown error"
                                else error_msg;
                       allErrors := errs |})
  | first :: _ =>
      m_score <- median (collect perfScore runs) ;;
      m_lcp <- median (collect lcp runs) ;;
      m_inp <- median (collect inp runs) ;;
      m_cls <- median (collect cls runs) ;;
      m_tbt <- median (collect tbt runs) ;;
      m_fcp <- median (collect fcp runs) ;;
      m_ttfb <- median (collect ttfb runs) ;;
      let m := {| perfScore := m_score;
                  lcp := m_lcp;
                  inp := m_inp;
                  cls := m_cls;
                  tbt := m_tbt;
                  fcp := m_fcp;
                  ttfb := m_ttfb;
                  lcpElement := lcpElement (run_metrics first);
                  renderBlockingTop := renderBlockingTop (run_metrics first);
                  flags := flags (run_metrics first);
                  auditEvidence := [] |} in
      Ok (Folded {| url_of := url;
                    device_of := device;
                    repeats_of := repeats;
                    metrics_of := m;
                    grades := [ ("LCP", grade "LCP" (lcp m));
                                ("INP", grade "INP" (inp m));
                                ("CLS", grade "CLS" (cls m));
                                ("TBT", grade "TBT" (tbt m));
                                ("FCP", grade "FCP" (fcp m));
                                ("TTFB", grade "TTFB" (ttfb m)) ];
                    lcpReasons := build_lcp_reasons m;
                    issues := build_issue_list m;
                    sampleLhr := lhrPath first;
                    errors := errs |})
  end.

End Rules.

(** ** Aggregator *)

(** The 75th percentile as [summarize] asks for it:
    [percentile(arr, 0.75)] *)
Definition p75 (arr : list (option Q)) : result (option Q) :=
  percentile arr (3 # 4).

(** [top_worst(key, n)] of [summarize], over the results without an
    error: the [n] largest values of a metric with their URLs.
    [sort(..., reverse=True)] keeps the original order of equal values. *)
Definition field_of (key : string) (m : Metrics) : option Q :=
  if String.eqb key "lcp" then lcp m
  else if String.eqb key "inp" then inp m
  else if String.eqb key "cls" then cls m
  else if String.eqb key "tbt" then tbt m
  else if String.eqb key "fcp" then fcp m
  else if String.eqb key "ttfb" then ttfb m
  else if String.eqb key "perfScore" then perfScore m
  else None.

(** [not r.get("error")] *)
Definition is_ok (r : UrlResult) : bool :=
  match r with
  | AllFailed f => String.eqb (error f) ""
  | Folded _ => true
  end.

(** [r["url"]] *)
Definition result_url (r : UrlResult) : string :=
  match r with
  | AllFailed f => f_url f
  | Folded fr => url_of fr
  end.

(** [(r.get("metrics") or {}).get(key)], when it is a number *)
Definition metric_value (r : UrlResult) (key : string) : option Q :=
  match r with
  | AllFailed _ => None
  | Folded fr => field_of key (metrics_of fr)
  end.

(** The inner [collect(key)] of [summarize] *)
Definition collect_ok (ok : list UrlResult) (key : string) : list Q :=
  available (map (fun r => metric_value r key) ok).

Definition worst_lt (x y : string * Q) : bool := Qlt_bool (snd y) (snd x).

Definition top_worst (ok : list UrlResult) (key : string) (n : nat)
  : list (string * Q) :=
  let rows :=
    flat_map (fun r => match metric_value r key with
                       | Some v => [(result_url r, v)]
                       | None => []
                       end) ok in
  firstn n (sort worst_lt rows).

Record Summary : Type := mkSummary {
  s_count : nat;
  s_success : nat;
  s_failed : nat;
  s_avg : list (string * Q);
  s_p75 : list (string * option Q);
  s_worst : list (string * list (string * Q))
}.

(** The loop that fills ["avg"] and ["p75"]; a metric without a sample
    is skipped. *)
Fixpoint summarize_stats (ok : list UrlResult) (keys : list string)
  : result (list (string * Q) * list (string * option Q)) :=
  match keys with
  | [] => Ok ([], [])
  | k :: ks =>
      match collect_ok ok k with
      | [] => summarize_stats ok ks
      | arr =>
          a <- div (fold_left Qplus arr 0)
                   (inject_Z (Z.of_nat (List.length arr))) ;;
          p <- p75 (map Some arr) ;;
          rest <- summarize_stats ok ks ;;
          Ok ((k, a) :: fst rest, (k, p) :: snd rest)
      end
  end.

Definition summarize (results : list UrlResult) : result Summary :=
  let ok := filter is_ok results in
  stats <- summarize_stats ok
             ["lcp"; "inp"; "cls"; "tbt"; "fcp"; "ttfb"; "perfScore"] ;;
  Ok {| s_count := List.length results;
        s_success := List.length ok;
        s_failed := List.length results - List.length ok;
        s_avg := fst stats;
        s_p75 := snd stats;
        s_worst := map (fun k => (k, top_worst ok k 5))
                       ["lcp"; "ttfb"; "fcp"; "tbt"; "cls"; "inp"] |}.

(** ** Input and ReportWriter *)

(** [not s] for an optional string argument *)
Definition no_text (s : option string) : bool :=
  match s with
  | None => true
  | Some t => String.eqb t ""
  end.

(** A line that [read_urls] keeps, once stripped *)
Definition is_url_line (s : string) : bool :=
  negb (String.eqb s "") && negb (startswith s "#").

(** [read_urls]; [lines] is what [f.readlines()] returns for the file. *)
Definition read_urls (urls_file single_url : option string)
  (lines : list string) : result (list string) :=
  match single_url with
  | Some u =>
      if negb (String.eqb u "") then Ok [strip u]
      else if no_text urls_file then Raise ValueError
      else Ok (filter is_url_line (map strip lines))
  | None =>
      if no_text urls_file then Raise ValueError
      else Ok (filter is_url_line (map strip lines))
  end.

(** [round(x)] of a float: the nearest integer, the even one at a tie *)
Definition round_half_even (x : Q) : Z :=
  let f := Qfloor x in
  match (x - inject_Z f ?= 1 # 2)%Q with
  | Lt => f
  | Gt => (f + 1)%Z
  | Eq => if Z.even f then f else (f + 1)%Z
  end.

Definition fmt_ms (F : Formats) (v : option Q) : string :=
  match v with
  | None => ""
  | Some x =>
      if Qle_bool 1000 x then fmt_fixed F 2 (x / 1000) ++ "s"
      else str_of_Z (round_half_even x) ++ "ms"
  end.

(** The columns of [report.csv] *)
Definition csv_fieldnames : list string :=
  [ "URL"; "性能分数"; "LCP"; "LCP评级"; "TTFB"; "TTFB评级"; "FCP"; "FCP评级";
    "TBT"; "TBT评级"; "CLS"; "CLS评级"; "INP"; "INP评级";
    "主要问题1"; "主要问题2"; "主要问题3"; "错误信息" ].

Fixpoint grades_get (g : list (string * string)) (k : string) : string :=
  match g with
  | [] => "N/A"
  | (k', v) :: g' => if String.eqb k k' then v else grades_get g' k
  end.

(** [issues[n]["title"] if len(issues) > n else ""] *)
Definition title_at (l : list Issue) (n : nat) : string :=
  match nth_error l n with
  | Some i => title i
  | None => ""
  end.

(** The row that [main] writes for one result, as the text of each cell.
    A result with a falsy ["error"] and no ["grades"] makes the
    success branch fail. *)
Definition csv_row (F : Formats) (r : UrlResult)
  : result (list (string * string)) :=
  match r with
  | AllFailed f =>
      if negb (String.eqb (error f) "") then
        Ok [ ("URL", f_url f); ("性能分数", ""); ("LCP", ""); ("LCP评级", "");
             ("TTFB", ""); ("TTFB评级", ""); ("FCP", ""); ("FCP评级", "");
             ("TBT", ""); ("TBT评级", ""); ("CLS", ""); ("CLS评级", "");
             ("INP", ""); ("INP评级", ""); ("主要问题1", ""); ("主要问题2", "");
             ("主要问题3", ""); ("错误信息", error f) ]
      else Raise KeyError
  | Folded fr =>
      let m := metrics_of fr in
      let g := grades fr in
      Ok [ ("URL", url_of fr);
           ("性能分数", match perfScore m with
                        | None => ""
                        | Some sc => str_of_Z (round_half_even (sc * 100))
                        end);
           ("LCP", fmt_ms F (lcp m)); ("LCP评级", grades_get g "LCP");
           ("TTFB", fmt_ms F (ttfb m)); ("TTFB评级", grades_get g "TTFB");
           ("FCP", fmt_ms F (fcp m)); ("FCP评级", grades_get g "FCP");
           ("TBT", fmt_ms F (tbt m)); ("TBT评级", grades_get g "TBT");
           ("CLS", match cls m with
                   | None => ""
                   | Some c => fmt_fixed F 3 c
                   end);
           ("CLS评级", grades_get g "CLS");
           ("INP", fmt_ms F (inp m)); ("INP评级", grades_get g "INP");
           ("主要问题1", title_at (issues fr) 0);
           ("主要问题2", title_at (issues fr) 1);
           ("主要问题3", title_at (issues fr) 2);
           ("错误信息", "") ]
  end.

End Lcp.

(* ================================================================== *)
(** * compare_performance.py *)

Module ComparePerformance.

Open Scope string_scope.

Section Differ.

(** The builtin [float] on a [str]; [None] stands for [ValueError]. *)
Variable float_of_str : string -> option Q.

(** A CSV cell as [csv.DictReader] hands it over: a string, or [None]
    when the row is shorter than the header. *)
Definition parse_time (value : option string) : result (option Q) :=
  match value with
  | None => Ok None
  | Some v =>
      if String.eqb v "" || String.eqb v "N/A" then Ok None
      else
        let v := strip v in
        if endswith v "ms" then
          match float_of_str (str_drop_last 2 v) with
          | Some q => Ok (Some (q / 1000)%Q)
          | None => Raise ValueError
          end
        else if endswith v "s" then
          match float_of_str (str_drop_last 1 v) with
          | Some q => Ok (Some q)
          | None => Raise ValueError
          end
        else
          match float_of_str v with
          | Some q => Ok (Some q)
          | None => Ok None
          end
  end.

Definition parse_score (value : option string) : result Q :=
  match value with
  | None => Raise TypeError
  | Some v =>
      match float_of_str v with
      | Some q => Ok q
      | None => Ok 0%Q
      end
  end.

(** One row of the reader: column name -> cell *)
Definition Row : Type := list (string * option string).

Fixpoint row_assoc (k : string) (row : Row) : option (option string) :=
  match row with
  | [] => None
  | (k', c) :: row' => if String.eqb k k' then Some c else row_assoc k row'
  end.

(** [row[k]] *)
Definition cell (row : Row) (k : string) : result (option string) :=
  match row_assoc k row with
  | Some c => Ok c
  | None => Raise KeyError
  end.

(** The dict stored under a URL *)
Record Entry : Type := mkEntry {
  e_score : Q;
  e_lcp : option Q;
  e_tbt : option Q;
  e_fcp : option Q;
  e_cls : Q;
  e_ttfb : option Q
}.

(** [entry[m]] for [m] in [metrics] *)
Definition entry_get (e : Entry) (m : string) : option Q :=
  if String.eqb m "score" then Some (e_score e)
  else if String.eqb m "lcp" then e_lcp e
  else if String.eqb m "tbt" then e_tbt e
  else if String.eqb m "fcp" then e_fcp e
  else if String.eqb m "cls" then Some (e_cls e)
  else if String.eqb m "ttfb" then e_ttfb e
  else None.

Definition key_eqb (a b : option string) : bool :=
  match a, b with
  | None, None => true
  | Some x, Some y => String.eqb x y
  | _, _ => false
  end.

Definition Data : Type := list (option string * Entry).

Fixpoint data_get (k : option string) (d : Data) : option Entry :=
  match d with
  | [] => None
  | (k', e) :: d' => if key_eqb k k' then Some e else data_get k d'
  end.

(** [data[k] = e]: a key already present keeps its place *)
Fixpoint data_set (k : option string) (e : Entry) (d : Data) : Data :=
  match d with
  | [] => [(k, e)]
  | (k', e') :: d' =>
      if key_eqb k k' then (k', e) :: d' else (k', e') :: data_set k e d'
  end.

Definition read_row (row : Row) : result (option string * Entry) :=
  url <- cell row "URL" ;;
  c_score <- cell row "性能分数" ;;
  score <- parse_score c_score ;;
  c_lcp <- cell row "LCP" ;;
  lcp <- parse_time c_lcp ;;
  c_tbt <- cell row "TBT" ;;
  tbt <- parse_time c_tbt ;;
  c_fcp <- cell row "FCP" ;;
  fcp <- parse_time c_fcp ;;
  c_cls <- cell row "CLS" ;;
  cls <- parse_score c_cls ;;
  c_ttfb <- cell row "TTFB" ;;
  ttfb <- parse_time c_ttfb ;;
  Ok (url, {| e_score := score; e_lcp := lcp; e_tbt := tbt;
              e_fcp := fcp; e_cls := cls; e_ttfb := ttfb |}).

Fixpoint read_rows (rows : list Row) (data : Data) : result Data :=
  match rows with
  | [] => Ok data
  | row :: rest =>
      e <- read_row row ;;
      read_rows rest (data_set (fst e) (snd e) data)
  end.

(** [read_csv], on the rows that the reader yields for the file *)
Definition read_csv (rows : list Row) : result Data := read_rows rows [].

Definition metrics : list string :=
  ["score"; "lcp"; "tbt"; "fcp"; "cls"; "ttfb"].

Definition metric_names (m : string) : string :=
  if String.eqb m "score" then "Score"
  else if String.eqb m "lcp" then "LCP (s)"
  else if String.eqb m "tbt" then "TBT (s)"
  else if String.eqb m "fcp" then "FCP (s)"
  else if String.eqb m "cls" then "CLS"
  else "TTFB (s)".

(** [set(old_data.keys()) & set(new_data.keys())].  A set has no
    specified iteration order; the keys are taken in the order of
    [old_data]. *)
Definition common_urls (old_data new_data : Data) : list (option string) :=
  filter (fun u => match data_get u new_data with
                   | Some _ => true
                   | None => false
                   end)
         (map fst old_data).

(** What one common URL appends for metric [m]: the pair
    [(old[m], new[m])] when neither is [None]. *)
Definition sample_of (old_data new_data : Data) (m : string)
  (url : option string) : list (Q * Q) :=
  match data_get url old_data, data_get url new_data with
  | Some o, Some n =>
      match entry_get o m, entry_get n m with
      | Some a, Some b => [(a, b)]
      | _, _ => []
      end
  | _, _ => []
  end.

Definition samples (old_data new_data : Data) (m : string) : list (Q * Q) :=
  flat_map (sample_of old_data new_data m) (common_urls old_data new_data).

Definition old_totals (old_data new_data : Data) (m : string) : list Q :=
  map fst (samples old_data new_data m).

Definition new_totals (old_data new_data : Data) (m : string) : list Q :=
  map snd (samples old_data new_data m).

Definition diffs (old_data new_data : Data) (m : string) : list Q :=
  map (fun ab => (snd ab - fst ab)%Q) (samples old_data new_data m).

(** [sum(xs) / len(xs)] *)
Definition average (xs : list Q) : result Q :=
  div (fold_left Qplus xs 0) (inject_Z (Z.of_nat (List.length xs))).

Definition improvement (m : string) (avg_old avg_new : Q) : result Q :=
  if String.eqb m "score" then
    if negb (Qeq_bool avg_old 0)
    then (r <- div (avg_new - avg_old) avg_old ;; Ok (r * 100)%Q)
    else Ok 0%Q
  else
    if negb (Qeq_bool avg_old 0)
    then (r <- div (avg_old - avg_new) avg_old ;; Ok (r * 100)%Q)
    else Ok 0%Q.

(** One printed line of the table *)
Record Line : Type := mkLine {
  l_name : string;
  l_avg_old : Q;
  l_avg_new : Q;
  l_avg_diff : Q;
  l_improvement : Q
}.

(** The body of the final [for m in metrics] loop: no line when
    [old_totals[m]] is empty. *)
Definition report_line (old_data new_data : Data) (m : string)
  : result (list Line) :=
  match old_totals old_data new_data m with
  | [] => Ok []
  | ot =>
      avg_old <- average ot ;;
      avg_new <- average (new_totals old_data new_data m) ;;
      imp <- improvement m avg_old avg_new ;;
      Ok [ {| l_name := metric_names m;
              l_avg_old := avg_old;
              l_avg_new := avg_new;
              l_avg_diff := (avg_new - avg_old)%Q;
              l_improvement := imp |} ]
  end.

Fixpoint report_lines (old_data new_data : Data) (ms : list string)
  : result (list Line) :=
  match ms with
  | [] => Ok []
  | m :: ms' =>
      l <- report_line old_data new_data m ;;
      ls <- report_lines old_data new_data ms' ;;
      Ok (l ++ ls)%list
  end.

(** The script: both reports are read, then the table is printed. *)
Definition compare (old_rows new_rows : list Row) : result (list Line) :=
  old_data <- read_csv old_rows ;;
  new_data <- read_csv new_rows ;;
  report_lines old_data new_data metrics.

End Differ.

(** A decimal fragment of [float] on strings, [[sign] digits [. digits]]
    between optional blanks, used to run the differ on concrete cells.  It
    leaves out exponents, digit separators, [inf] and [nan], and every
    string with one of the characters that [str.strip] removes but [float]
    does not always skip (the separators 28 to 31 and the blanks above
    127). *)
Definition digit_val (c : ascii) : option Z :=
  let n := nat_of_ascii c in
  if ((48 <=? n) && (n <=? 57))%nat then Some (Z.of_nat (n - 48)) else None.

Fixpoint digits_val (acc : Z) (l : list ascii) : option Z :=
  match l with
  | [] => Some acc
  | c :: l' =>
      match digit_val c with
      | Some d => digits_val (10 * acc + d) l'
      | None => None
      end
  end.

Fixpoint split_dot (l : list ascii) : list ascii * option (list ascii) :=
  match l with
  | [] => ([], None)
  | c :: l' =>
      if Ascii.eqb c "." then ([], Some l')
      else let (a, b) := split_dot l' in (c :: a, b)
  end.

Definition dec_unsigned (l : list ascii) : option Q :=
  let (ip, fp) := split_dot l in
  let fp' := match fp with Some f => f | None => [] end in
  match (ip ++ fp')%list with
  | [] => None
  | _ =>
      match digits_val 0 ip, digits_val 0 fp' with
      | Some i, Some f =>
          Some (inject_Z i
                + inject_Z f / inject_Z (10 ^ Z.of_nat (List.length fp')))%Q
      | _, _ => None
      end
  end.

Definition plain_char (c : ascii) : bool :=
  let n := nat_of_ascii c in
  negb ((28 <=? n) && (n <=? 31) || (127 <? n))%nat.

Definition dec_float (s : string) : option Q :=
  if forallb plain_char (chars s) then
    match rstrip_chars (lstrip_chars (chars s)) with
    | c :: l =>
        if Ascii.eqb c "-" then option_map Qopp (dec_unsigned l)
        else if Ascii.eqb c "+" then dec_unsigned l
        else dec_unsigned (c :: l)
    | [] => None
    end
  else None.

End ComparePerformance.


Import Lcp.
Import ComparePerformance.

(* ================================================================== *)
(** * Specification-side definitions and sample data *)

(** Median of an ascending sequence: the middle element for an odd count,
    the mean of the two middle elements for an even count, nothing for
    the empty sequence. *)
Definition spec_median (ys : list Q) : option Q :=
  match ys with
  | [] => None
  | _ =>
      let n := List.length ys in
      if Nat.odd n then Some (nth (n / 2) ys 0)
      else Some ((nth (n / 2 - 1) ys 0 + nth (n / 2) ys 0) / 2)
  end.

(** 75th percentile of an ascending sequence by linear interpolation at
    index [(n-1) * 0.75] between the floor and the ceiling neighbours. *)
Definition spec_p75 (ys : list Q) : Q :=
  let idx := inject_Z (Z.of_nat (List.length ys) - 1) * (3 # 4) in
  let lo := nth (Z.to_nat (Qfloor idx)) ys 0 in
  let hi := nth (Z.to_nat (Qceiling idx)) ys 0 in
  lo + (hi - lo) * (idx - inject_Z (Qfloor idx)).

(** A result that is the number [v], up to equality of rationals *)
Definition returns (c : result (option Q)) (v : Q) : Prop :=
  exists q, c = Ok (Some q) /\ q == v.

(** The rank of a severity in the specification: [HIGH] first, then
    [MED], then [LOW] *)
Definition severity (lv : string) : nat :=
  if String.eqb lv "HIGH" then 0
  else if String.eqb lv "MED" then 1
  else if String.eqb lv "LOW" then 2
  else 3.

(** The value that orders an issue in the specification: an issue
    without a value counts as 0 *)
Definition issue_value (i : Issue) : Q :=
  match value_of i with
  | Some v => v
  | None => 0
  end.

(** Severity first, then descending value *)
Definition issue_le (a b : Issue) : Prop :=
  (severity (level a) < severity (level b))%nat
  \/ (severity (level a) = severity (level b)
      /\ issue_value b <= issue_value a).

(** Same severity and same value *)
Definition same_key (a b : Issue) : bool :=
  (severity (level a) =? severity (level b))%nat
  && Qeq_bool (issue_value a) (issue_value b).

(** [a] comes before [b] in [l] *)
Definition precedes {A} (a b : A) (l : list A) : Prop :=
  exists l1 l2 l3, l = (l1 ++ a :: l2 ++ b :: l3)%list.

(** The successful and the failed attempts of a run, in order *)
Fixpoint successes {A B} (l : list (A + B)) : list A :=
  match l with
  | [] => []
  | inl a :: l' => a :: successes l'
  | inr _ :: l' => successes l'
  end.

Fixpoint failures {A B} (l : list (A + B)) : list B :=
  match l with
  | [] => []
  | inl _ :: l' => failures l'
  | inr b :: l' => b :: failures l'
  end.

(** ** Sample data for the diagnostic rules and the repeat runner *)

(** The double nearest to a number, the even one at a tie: the value
    that a float holding the number has.  Overflow and subnormal numbers
    are left out. *)
Definition to_double (x : Q) : Q :=
  if Qeq_bool x 0 then 0
  else
    let a := Qabs x in
    let e0 := (Z.log2 (Qnum a) - Z.log2 (Zpos (Qden a)))%Z in
    let e := if Qlt_bool a (2 ^ e0) then (e0 - 1)%Z else e0 in
    inject_Z (round_half_even (x * 2 ^ (52 - e))) / 2 ^ (52 - e).

(** A number rounded to [d] decimals, the even neighbour at a tie, as
    sign, integer part, point and [d] digits; no point for [d = 0]. *)
Definition digit_char (k : nat) : ascii := ascii_of_nat (48 + k).

Fixpoint frac_digits (d : nat) (m : nat) : list ascii :=
  match d with
  | O => []
  | S d' => (frac_digits d' (m / 10) ++ [digit_char (m mod 10)])%list
  end.

Definition decimal_text (d : nat) (x : Q) : string :=
  let scale := (10 ^ d)%nat in
  let a := Z.abs_nat (round_half_even (x * inject_Z (Z.of_nat scale))) in
  ((if Qlt_bool x 0 then "-" else "")
   ++ str_of_nat (a / scale)
   ++ (if (d =? 0)%nat then "" else "." ++ str (frac_digits d (a mod scale))))
  %string.

(** [f"{x:.df}"]: the decimals of the double that holds [x] *)
Definition fixed_text (d : nat) (x : Q) : string :=
  decimal_text d (to_double x).

(** The text formats on concrete values, to run the rules and the table
    writer. *)
Definition plain_formats : Formats :=
  {| fmt_fixed := fixed_text;
     str_value := fun v => match v with VStr s => s | _ => "?"%string end;
     str_exn := fun _ => "error"%string |}.

(** Metrics with a slow server response and a blocked main thread and
    nothing else known *)
Definition no_flags : Flags := mkFlags false false false false false false.

Definition slow_metrics : Metrics :=
  {| perfScore := None; lcp := None; inp := None; cls := None;
     tbt := Some 700; fcp := None; ttfb := Some 1500;
     lcpElement := VNone; renderBlockingTop := []; flags := no_flags;
     auditEvidence := [] |}.

(** A tool whose second invocation fails and whose other invocations
    report an LCP of 1000 ms times the repeat number *)
Definition flaky_tool (i : nat) (path : string) : ToolOutcome :=
  if (i =? 1)%nat then ToolError "Lighthouse failed (rc=1)"
  else ToolReport
         (VDict [("audits"%string,
                  VDict [("largest-contentful-paint"%string,
                          VDict [("numericValue"%string,
                                  VInt (1000 * Z.of_nat (i + 1)))])])]).

(** A tool that always times out *)
Definition dead_tool (i : nat) (path : string) : ToolOutcome :=
  ToolError "timeout".

(** A tool that never fails and reports an LCP of 1000 ms times the
    repeat number *)
Definition steady_tool (i : nat) (path : string) : ToolOutcome :=
  ToolReport
    (VDict [("audits"%string,
             VDict [("largest-contentful-paint"%string,
                     VDict [("numericValue"%string,
                             VInt (1000 * Z.of_nat (i + 1)))])])]).

(** The samples of a metric over the successful repeats: the values of
    the repeats that have one, in the order of the repeats *)
Definition run_samples (k : Metrics -> option Q) (ok : list RunResult)
  : list Q :=
  flat_map (fun r => match k (run_metrics r) with
                     | Some v => [v]
                     | None => []
                     end) ok.

(** [v] is the median of [samples]: the specification's median of the
    samples in ascending order *)
Definition median_over (samples : list Q) (v : option Q) : Prop :=
  exists ys : list Q,
    Permutation ys samples /\ StronglySorted Qle ys /\ v = spec_median ys.

(** [m] with TTFB = 1500 and TBT = 700 *)
Definition with_ttfb_tbt (m : Metrics) : Metrics :=
  {| perfScore := perfScore m; lcp := lcp m; inp := inp m; cls := cls m;
     tbt := Some 700; fcp := fcp m; ttfb := Some 1500;
     lcpElement := lcpElement m; renderBlockingTop := renderBlockingTop m;
     flags := flags m; auditEvidence := auditEvidence m |}.

(** [m] with LCP = 5000 and TTFB = 6000: two [HIGH] issues, the one of
    the later rule with the larger value *)
Definition with_lcp_ttfb (m : Metrics) : Metrics :=
  {| perfScore := perfScore m; lcp := Some 5000; inp := inp m; cls := cls m;
     tbt := tbt m; fcp := fcp m; ttfb := Some 6000;
     lcpElement := lcpElement m; renderBlockingTop := renderBlockingTop m;
     flags := flags m; auditEvidence := auditEvidence m |}.

(** [m] with CLS = 0.3, a render-blocking resource [b], the bootup flag
    set and a TBT of [t]: three [MED] issues with the values 0.3, none
    and [t] *)
Definition with_blocking (m : Metrics) (b : Blocking) (t : Q) : Metrics :=
  {| perfScore := perfScore m; lcp := lcp m; inp := inp m;
     cls := Some (3 # 10); tbt := Some t; fcp := fcp m; ttfb := ttfb m;
     lcpElement := lcpElement m; renderBlockingTop := [b];
     flags := {| lcpLazyLoaded := lcpLazyLoaded (flags m);
                 needsPrioritizeLcpImage := needsPrioritizeLcpImage (flags m);
                 heavyBootup := true;
                 hasLongTasks := hasLongTasks (flags m);
                 heavyMainThread := heavyMainThread (flags m);
                 lotsUnusedJs := lotsUnusedJs (flags m) |};
     auditEvidence := auditEvidence m |}.

(** The thresholds as the specification lists them: metric, good,
    needs-improvement *)
Definition spec_thresholds : list (string * Q * Q) :=
  [ ("LCP"%string, 2500, 4000); ("INP"%string, 200, 500);
    ("CLS"%string, 1 # 10, 1 # 4); ("TBT"%string, 200, 600);
    ("FCP"%string, 1800, 3000); ("TTFB"%string, 800, 1800) ].

(** A result that is the number [v], up to equality of rationals *)
Definition yields (c : result Q) (v : Q) : Prop :=
  exists q, c = Ok q /\ q == v.

(** ** Shape of a report *)

(** [x] is falsy or a dict, so that [(x or {}).get(k)] is defined. *)
Definition dictish (v : value) : bool := negb (truthy v) || is_dict v.

(** The object under key [k] of [v or {}]; [None] where there is none. *)
Definition field (v : value) (k : string) : value :=
  match get (or_else v (VDict [])) k with
  | Ok x => x
  | Raise _ => VNone
  end.

(** Not an integer beyond the range of a float *)
Definition float_ok (v : value) : bool :=
  match v with
  | VInt z => (Z.abs z <? float_overflow)%Z
  | _ => true
  end.

Definition numeric_ids : list string :=
  [ "largest-contentful-paint"; "cumulative-layout-shift";
    "total-blocking-time"; "first-contentful-paint";
    "server-response-time"; "interaction-to-next-paint";
    "experimental-interaction-to-next-paint" ]%string.

Definition items_ids : list string :=
  [ "largest-contentful-paint-element"; "render-blocking-resources" ]%string.

Definition object_ids : list string :=
  [ "lcp-lazy-loaded"; "prioritize-lcp-image"; "bootup-time"; "long-tasks";
    "mainthread-work-breakdown"; "unused-javascript"; "diagnostics";
    "third-party-summary" ]%string.

Definition details_ids : list string :=
  [ "long-tasks"; "unused-javascript"; "third-party-summary" ]%string.

(** A report whose object-valued positions, where the extractor descends,
    are absent, falsy or dicts, and whose numeric fields fit a float. *)
Definition well_shaped (lhr : value) : bool :=
  let audits := field lhr "audits" in
  let perf := field (field lhr "categories") "performance" in
  is_dict lhr
  && dictish audits
  && forallb (fun id => dictish (field audits id))
       (numeric_ids ++ items_ids ++ object_ids)
  && forallb (fun id => float_ok (field (field audits id) "numericValue"))
       numeric_ids
  && forallb (fun id => dictish (field (field audits id) "details"))
       (items_ids ++ details_ids)
  && dictish (field lhr "categories")
  && dictish perf
  && float_ok (field perf "score").

(** The number under a key, absent when missing or not a number *)
Definition number_at (v : value) (k : string) : option Q :=
  let x := field v k in
  if is_number x then Some (number_of x) else None.

(** The metric read from audit [id] of a report *)
Definition numeric_at (lhr : value) (id : string) : option Q :=
  number_at (field (field lhr "audits") id) "numericValue".

(** ** Cells and sample reports of the differ *)

(** The characters of a decimal number *)
Definition decimal_char (c : ascii) : Prop :=
  digit_val c <> None \/ c = "."%char \/ c = "-"%char \/ c = "+"%char.

(** A row with every column present *)
Definition sample_row (url score lcp tbt fcp cls ttfb : string) : Row :=
  [ ("URL", Some url); ("性能分数", Some score); ("LCP", Some lcp);
    ("TBT", Some tbt); ("FCP", Some fcp); ("CLS", Some cls);
    ("TTFB", Some ttfb) ]%string.

Definition old_sample : Data :=
  [ (Some "u"%string,
     mkEntry (5 # 10) (Some 4) (Some (3 # 10)) (Some 2) (1 # 100) (Some 2)) ].

Definition new_sample : Data :=
  [ (Some "u"%string,
     mkEntry (6 # 10) (Some 3) (Some (2 # 10)) (Some 1) (1 # 100) (Some 1)) ].

(** Two reports with the URLs [a] and [b]: the TTFB averages are 2.0 and
    1.0, the score averages 0.5 and 0.6, and the old TBT is 0 for both *)
Definition old_report : Data :=
  [ (Some "a"%string,
     mkEntry (4 # 10) (Some 4) (Some 0) (Some 2) (1 # 100) (Some (15 # 10)));
    (Some "b"%string,
     mkEntry (6 # 10) (Some 2) (Some 0) (Some 1) (3 # 100) (Some (25 # 10))) ].

Definition new_report : Data :=
  [ (Some "b"%string,
     mkEntry (7 # 10) (Some 2) (Some (2 # 10)) (Some 1) (3 # 100)
             (Some (15 # 10)));
    (Some "a"%string,
     mkEntry (5 # 10) (Some 3) (Some (1 # 10)) (Some 2) (1 # 100)
             (Some (5 # 10))) ].

(** ** The comparison as the specification states it *)

Definition same_url (a b : option string) : bool :=
  match a, b with
  | Some x, Some y => String.eqb x y
  | None, None => true
  | _, _ => false
  end.

(** The entry of a URL in a report *)
Definition lookup_url (u : option string) (d : Data) : option Entry :=
  option_map snd (find (fun ke => same_url u (fst ke)) d).

(** The value of a metric in an entry; the score and CLS are always
    present *)
Definition entry_value (m : string) (e : Entry) : option Q :=
  match find (fun kv => String.eqb m (fst kv))
             [ ("score"%string, Some (e_score e)); ("lcp"%string, e_lcp e);
               ("tbt"%string, e_tbt e); ("fcp"%string, e_fcp e);
               ("cls"%string, Some (e_cls e)); ("ttfb"%string, e_ttfb e) ] with
  | Some kv => snd kv
  | None => None
  end.

(** The common sample set of a metric: for each URL of the old report
    that the new report has too, the old and the new value when both are
    present *)
Definition common_sample (old_data new_data : Data) (m : string)
  : list (Q * Q) :=
  flat_map (fun ke =>
              match lookup_url (fst ke) old_data,
                    lookup_url (fst ke) new_data with
              | Some o, Some n =>
                  match entry_value m o, entry_value m n with
                  | Some a, Some b => [(a, b)]
                  | _, _ => []
                  end
              | _, _ => []
              end) old_data.

(** The arithmetic mean: the sum, taken from left to right, over the
    count *)
Definition mean (xs : list Q) : Q :=
  fold_left Qplus xs 0 / inject_Z (Z.of_nat (List.length xs)).

(** Text of a time cell that is read as absent: empty, [N/A], or text
    that is not a number and does not end in [s] *)
Definition tolerated (float_of_str : string -> option Q) (v : string)
  : Prop :=
  v = ""%string \/ v = "N/A"%string
  \/ (endswith (strip v) "s" = false /\ float_of_str (strip v) = None).

(** What a time cell with the text [v] contributes: nothing when the
    text is tolerated, otherwise what [parse_time] makes of it *)
Definition time_reading (float_of_str : string -> option Q) (v : string)
  (x : option Q) : Prop :=
  (tolerated float_of_str v /\ x = None)
  \/ parse_time float_of_str (Some v) = Ok x.

(** What a score or CLS cell with the text [v] contributes: its number,
    or 0 when the text is not a number *)
Definition score_reading (float_of_str : string -> option Q) (v : string)
  : Q :=
  match float_of_str v with
  | Some q => q
  | None => 0
  end.

(** A row under the header that the audit writes, cut off after the FCP
    grade: the TBT and CLS cells and the cells after them are missing *)
Definition short_row : Row :=
  [ ("URL", Some "u"); ("性能分数", Some "80"); ("LCP", Some "2.00s");
    ("LCP评级", Some "GOOD"); ("TTFB", Some "2.00s"); ("TTFB评级", Some "POOR");
    ("FCP", Some "1.00s"); ("FCP评级", Some "GOOD"); ("TBT", None);
    ("TBT评级", None); ("CLS", None); ("CLS评级", None); ("INP", None);
    ("INP评级", None); ("主要问题1", None); ("主要问题2", None);
    ("主要问题3", None); ("错误信息", None) ]%string.

(** ** Definitions for the further properties *)

(** Grades from best to worst; [N/A] last *)
Definition grade_rank (g : string) : Z :=
  if String.eqb g "GOOD" then 0
  else if String.eqb g "NI" then 1
  else if String.eqb g "POOR" then 2
  else 3.

(** The issue list has an issue that cites audit [id] *)
Definition fires (F : Formats) (m : Metrics) (id : string) : Prop :=
  exists i : Issue, In i (build_issue_list F m) /\ auditId i = Some id.

(** A computation that fails, if at all, with [AttributeError] or
    [OverflowError] *)
Definition benign {A} (c : result A) : Prop :=
  match c with
  | Ok _ => True
  | Raise e => e = AttributeError \/ e = OverflowError
  end.

(** Some result without an error has a value for metric [k]. *)
Definition sampled (results : list UrlResult) (k : string) : bool :=
  existsb (fun r => is_ok r
                    && match metric_value r k with
                       | Some _ => true
                       | None => false
                       end) results.

(** A batch of two results: a URL whose runs all failed, and a folded
    result with a TTFB of 1500 ms and a TBT of 700 ms *)
Definition slow_result : UrlResult :=
  Folded {| url_of := "https://b.example/"; device_of := "mobile";
            repeats_of := 1; metrics_of := slow_metrics; grades := [];
            lcpReasons := []; issues := []; sampleLhr := ""; errors := [] |}.

Definition sample_results : list UrlResult :=
  [ AllFailed {| f_url := "https://a.example/"; f_device := "mobile";
                 error := "Lighthouse failed (rc=1)";
                 allErrors := ["Lighthouse failed (rc=1)"] |};
    slow_result ].

(** What makes [read_row] fail with [e] on a row: a column that the
    differ reads is not in the header ([KeyError]), the row is too short
    to have a score or CLS cell ([TypeError]), or a time cell ends in [s]
    ([ValueError]; the text before the unit is then not a number). *)
Definition row_fault (row : Row) (e : exn) : Prop :=
  match e with
  | KeyError =>
      exists col : string,
        In col ["URL"; "性能分数"; "LCP"; "TBT"; "FCP"; "CLS"; "TTFB"]%string
        /\ row_assoc col row = None
  | TypeError =>
      exists col : string,
        In col ["性能分数"; "CLS"]%string /\ row_assoc col row = Some None
  | ValueError =>
      exists (col v : string),
        In col ["LCP"; "TBT"; "FCP"; "TTFB"]%string
        /\ row_assoc col row = Some (Some v)
        /\ endswith (strip v) "s" = true
  | _ => False
  end.

(** A report with two rows for the same URL, and what [read_row] makes
    of each row *)
Definition twice_rows : list Row :=
  [ sample_row "u" "80" "2.00s" "100ms" "1.00s" "0.010" "2.00s";
    sample_row "u" "90" "1.00s" "100ms" "1.00s" "0.010" "1.00s" ].

Definition twice_entries : list (option string * Entry) :=
  Eval vm_compute in
    flat_map (fun row => match read_row dec_float row with
                         | Ok e => [e]
                         | Raise _ => []
                         end) twice_rows.

(** Metric [m] has a sample: a common URL with both values present *)
Definition has_samples (old_data new_data : Data) (m : string) : bool :=
  match old_totals old_data new_data m with
  | [] => false
  | _ :: _ => true
  end.

(** The row that [csv.DictReader] yields for a row that
    [csv.DictWriter] wrote under the same header: each cell comes back
    as its text. *)
Definition read_back (cells : list (string * string)) : Row :=
  map (fun kv => (fst kv, Some (snd kv))) cells.

(* ================================================================== *)
(** * Lemmas on the builtins *)

(** [lia] also decides goals with division and remainder by constants. *)
Ltac Zify.zify_post_hook ::= Z.to_euclidean_division_equations.

Lemma index_nth {A} (xs : list A) (i : Z) (d : A) :
  (0 <= i < Z.of_nat (List.length xs))%Z ->
  index xs i = Ok (nth (Z.to_nat i) xs d).
Proof.
  intros Hi. unfold index.
  destruct (Z.ltb_spec i 0) as [Hneg | _]; [lia |].
  destruct (Z.ltb_spec i 0) as [Hneg | _]; [lia |].
  destruct (nth_error xs (Z.to_nat i)) as [x |] eqn:E.
  - now rewrite (nth_error_nth _ _ d E).
  - apply nth_error_None in E. lia.
Qed.

Section SortFacts.
Variable A : Type.
Variable lt : A -> A -> bool.

Lemma insert_perm (x : A) (l : list A) : Permutation (insert lt x l) (x :: l).
Proof.
  induction l as [| y l IH]; simpl; [reflexivity |].
  destruct (lt y x); [| reflexivity].
  rewrite IH. apply perm_swap.
Qed.

Lemma sort_perm (l : list A) : Permutation (sort lt l) l.
Proof.
  induction l as [| x l IH]; simpl; [reflexivity |].
  rewrite insert_perm. now apply perm_skip.
Qed.

Lemma sort_length (l : list A) : List.length (sort lt l) = List.length l.
Proof. apply Permutation_length, sort_perm. Qed.

(** Stability: elements that the order does not separate keep their
    relative order. *)
Lemma filter_insert (p : A -> bool) (x : A) (l : list A) :
  (forall a b, p a = true -> p b = true -> lt a b = false) ->
  filter p (insert lt x l) = if p x then x :: filter p l else filter p l.
Proof.
  intros Hp. induction l as [| y l IH]; simpl.
  - reflexivity.
  - destruct (lt y x) eqn:Hyx; simpl.
    + rewrite IH. destruct (p y) eqn:Hy, (p x) eqn:Hx; try reflexivity.
      rewrite (Hp y x Hy Hx) in Hyx. discriminate.
    + reflexivity.
Qed.

Lemma sort_stable (p : A -> bool) (l : list A) :
  (forall a b, p a = true -> p b = true -> lt a b = false) ->
  filter p (sort lt l) = filter p l.
Proof.
  intros Hp. induction l as [| x l IH]; simpl; [reflexivity |].
  rewrite filter_insert by assumption. now rewrite IH.
Qed.

Hypothesis lt_asym : forall a b, lt a b = true -> lt b a = false.
Hypothesis le_trans :
  forall a b c, lt b a = false -> lt c b = false -> lt c a = false.

Lemma insert_sorted (x : A) (l : list A) :
  StronglySorted (fun a b => lt b a = false) l ->
  StronglySorted (fun a b => lt b a = false) (insert lt x l).
Proof.
  induction 1 as [| y l Hs IH Hall]; simpl.
  - constructor; constructor.
  - destruct (lt y x) eqn:Hyx.
    + constructor; [exact IH |].
      rewrite Forall_forall in *. intros z Hz.
      apply (Permutation_in _ (insert_perm x l)) in Hz.
      destruct Hz as [<- | Hz]; [now apply lt_asym | now apply Hall].
    + constructor; [now constructor |].
      constructor; [exact Hyx |].
      rewrite Forall_forall in *. intros z Hz.
      apply le_trans with (b := y); [exact Hyx | now apply Hall].
Qed.

Lemma sort_sorted (l : list A) :
  StronglySorted (fun a b => lt b a = false) (sort lt l).
Proof.
  induction l as [| x l IH]; simpl; [constructor | now apply insert_sorted].
Qed.

End SortFacts.

Lemma Qlt_bool_false (a b : Q) : Qlt_bool a b = false <-> b <= a.
Proof.
  unfold Qlt_bool. rewrite negb_false_iff. apply Qle_bool_iff.
Qed.

Lemma Qlt_bool_true (a b : Q) : Qlt_bool a b = true <-> a < b.
Proof.
  unfold Qlt_bool. rewrite negb_true_iff.
  destruct (Qle_bool b a) eqn:E.
  - apply Qle_bool_iff in E. split; [discriminate | intro; lra].
  - split; [intros _ | reflexivity].
    apply Qnot_le_lt. intro H. apply Qle_bool_iff in H. congruence.
Qed.

Lemma sort_Q_sorted (l : list Q) : StronglySorted Qle (sort Qlt_bool l).
Proof.
  assert (H : StronglySorted (fun a b => Qlt_bool b a = false)
                (sort Qlt_bool l)).
  { apply sort_sorted.
    - intros a b Hab. apply Qlt_bool_true in Hab. apply Qlt_bool_false. lra.
    - intros a b c H1 H2. apply Qlt_bool_false in H1, H2.
      apply Qlt_bool_false. lra. }
  induction H as [| x s Hs IH Hall]; constructor; [exact IH |].
  eapply Forall_impl; [| exact Hall].
  intros y Hy. now apply Qlt_bool_false in Hy.
Qed.

Lemma odd_mod2 (n : nat) : Nat.odd n = (Z.of_nat n mod 2 =? 1)%Z.
Proof.
  destruct (Nat.odd n) eqn:E.
  - apply Nat.odd_spec in E. destruct E as [m ->].
    symmetry. apply Z.eqb_eq. lia.
  - rewrite <- Nat.negb_even in E. apply negb_false_iff in E.
    apply Nat.even_spec in E. destruct E as [m ->].
    symmetry. apply Z.eqb_neq. lia.
Qed.

Lemma to_nat_half (n : nat) : Z.to_nat (Z.of_nat n / 2) = (n / 2)%nat.
Proof.
  change 2%Z with (Z.of_nat 2). rewrite <- Nat2Z.inj_div. apply Nat2Z.id.
Qed.

(** The median of a non-empty ascending list, as the code computes it *)
Lemma median_sorted (ys : list Q) :
  ys <> [] ->
  (let n := Z.of_nat (List.length ys) in
   let mid := (n / 2)%Z in
   if (n mod 2 =? 1)%Z
   then a <- index ys mid ;; Ok (Some a)
   else a <- index ys (mid - 1)%Z ;; b <- index ys mid ;;
        Ok (Some ((a + b) / 2)))
  = Ok (spec_median ys).
Proof.
  intros Hne. cbv zeta. unfold spec_median.
  destruct ys as [| y0 ys']; [congruence |].
  remember (y0 :: ys') as ys eqn:Eys.
  assert (Hlen : (0 < List.length ys)%nat) by (subst ys; simpl; lia).
  clear Eys Hne. rewrite odd_mod2.
  destruct (Z.eqb_spec (Z.of_nat (List.length ys) mod 2) 1) as [Hodd | Heven].
  - rewrite (index_nth ys 0) by lia. unfold Py.bind.
    now rewrite to_nat_half.
  - rewrite (index_nth ys 0) by lia.
    rewrite (index_nth ys 0) by lia. unfold Py.bind.
    rewrite Z2Nat.inj_sub by lia. now rewrite to_nat_half.
Qed.

Lemma median_total (xs : list (option Q)) :
  median xs = Ok (spec_median (sort Qlt_bool (available xs))).
Proof.
  unfold median. destruct (available xs) as [| q l] eqn:E; [reflexivity |].
  apply median_sorted. intro H.
  apply (f_equal (@List.length Q)) in H. rewrite sort_length in H. discriminate.
Qed.

(* ================================================================== *)
(** * RepeatRunner: the median *)

(** C1.  [median] drops the absent samples, sorts the rest ascending and
    returns the middle element for an odd count, the mean of the two
    middle elements for an even count and nothing for no sample; it never
    raises.  The median of [[]] is absent, of [[5]] is 5 and of
    [[1,2,3,4]] is 2.5. *)
Theorem median_spec :
  (forall xs : list (option Q),
      exists ys, Permutation ys (available xs)
                 /\ StronglySorted Qle ys
                 /\ median xs = Ok (spec_median ys))
  /\ median [] = Ok None
  /\ median [Some 5] = Ok (Some 5)
  /\ median [Some 1; Some 2; Some 3; Some 4] = Ok (Some (5 # 2)).
Proof.
  split; [| repeat split; reflexivity].
  intros xs. exists (sort Qlt_bool (available xs)).
  split; [apply sort_perm |].
  split; [apply sort_Q_sorted | apply median_total].
Qed.

(* ================================================================== *)
(** * Aggregator: the 75th percentile *)

(** The interpolation index for [n >= 2] samples: truncation is the
    floor, the floor is a valid index below the last one, and the ceiling
    is the next index unless the index is whole. *)
Lemma p75_index (n : Z) :
  (2 <= n)%Z ->
  let idx := inject_Z (n - 1) * (3 # 4) in
  let f := Qfloor idx in
  int_of_float idx = f
  /\ (0 <= f < n - 1)%Z
  /\ (Qceiling idx = (f + 1)%Z
      \/ (Qceiling idx = f /\ idx - inject_Z f == 0)).
Proof.
  intros Hn. cbv zeta.
  unfold int_of_float, Qceiling, Qfloor, Qeq. cbn.
  rewrite Z.quot_div_nonneg by lia.
  split; [reflexivity |]. split; [lia |].
  destruct (Z.eq_dec (((n - 1) * 3) mod 4) 0) as [H0 | H0].
  - right. split; lia.
  - left. lia.
Qed.

(** C6.  For a non-empty sample sequence the 75th percentile sorts the
    samples ascending and interpolates linearly at index [(n-1) * 0.75]
    between the floor and the ceiling neighbours by the fractional part;
    a single sample is returned as it is; without samples the result is
    absent.  The 75th percentile of [[10,20,30,40]] is 32.5. *)
Theorem p75_spec :
  (forall xs : list (option Q),
      match available xs with
      | [] => p75 xs = Ok None
      | _ :: _ =>
          exists ys, Permutation ys (available xs)
                     /\ StronglySorted Qle ys
                     /\ returns (p75 xs) (spec_p75 ys)
      end)
  /\ (forall x : Q, p75 [Some x] = Ok (Some x))
  /\ returns (p75 [Some 10; Some 20; Some 30; Some 40]) (65 # 2).
Proof.
  split; [| split].
  - intros xs. unfold p75, percentile.
    destruct (available xs) as [| q l] eqn:E; [reflexivity |].
    remember (sort Qlt_bool (q :: l)) as ys eqn:Eys.
    exists ys.
    split; [subst ys; apply sort_perm |].
    split; [subst ys; apply sort_Q_sorted |].
    assert (Hlen : (1 <= Z.of_nat (List.length ys))%Z).
    { subst ys. rewrite sort_length. simpl. lia. }
    clear Eys E. unfold returns, spec_p75.
    destruct (Z.eqb_spec (Z.of_nat (List.length ys)) 1) as [H1 | H1].
    + rewrite (index_nth ys 0) by lia. unfold Py.bind.
      eexists. split; [reflexivity |].
      rewrite H1. cbn. ring.
    + destruct (p75_index (n := Z.of_nat (List.length ys))) as (Ht & Hf & Hc);
        [lia |].
      set (idx := inject_Z (Z.of_nat (List.length ys) - 1) * (3 # 4)) in *.
      rewrite Ht.
      rewrite (index_nth ys 0) by lia.
      rewrite Z.min_l by lia.
      rewrite (index_nth ys 0) by lia. unfold Py.bind.
      eexists. split; [reflexivity |].
      destruct Hc as [Hc | [Hc Hz]].
      * rewrite Hc. reflexivity.
      * rewrite Hz. ring.
  - intros x. reflexivity.
  - eexists. split; [vm_compute; reflexivity | reflexivity].
Qed.

(* ================================================================== *)
(** * Grading *)

Lemma Qle_bool_reflect (a b : Q) : reflect (a <= b) (Qle_bool a b).
Proof. apply iff_reflect. symmetry. apply Qle_bool_iff. Qed.

Lemma grade_cases (v good ni : Q) :
  good <= ni ->
  let g := if Qle_bool v good then "GOOD"%string
           else if Qle_bool v ni then "NI"%string
           else "POOR"%string in
  (v <= good -> g = "GOOD"%string)
  /\ (good < v -> v <= ni -> g = "NI"%string)
  /\ (ni < v -> g = "POOR"%string).
Proof.
  intros Hgn. cbv zeta.
  destruct (Qle_bool_reflect v good), (Qle_bool_reflect v ni);
    repeat split; intros; first [reflexivity | lra].
Qed.

(** C2, as the code has it.  For each of LCP/INP/CLS/TBT/FCP/TTFB with
    the listed thresholds, [grade] returns "GOOD" for a value at most the
    good threshold, "NI" (the label of the needs-improvement grade) for a
    value at most the second threshold, "POOR" above it and "N/A" for an
    absent value.  LCP=2000 is GOOD, LCP=3000 is NI, LCP=5000 is POOR and
    an absent LCP is N/A. *)
Theorem grade_spec :
  (forall (m : string) (good ni : Q),
      In (m, good, ni) spec_thresholds ->
      forall v : Q,
        grade m None = "N/A"%string
        /\ (v <= good -> grade m (Some v) = "GOOD"%string)
        /\ (good < v -> v <= ni -> grade m (Some v) = "NI"%string)
        /\ (ni < v -> grade m (Some v) = "POOR"%string))
  /\ grade "LCP" (Some 2000) = "GOOD"%string
  /\ grade "LCP" (Some 3000) = "NI"%string
  /\ grade "LCP" (Some 5000) = "POOR"%string
  /\ grade "LCP" None = "N/A"%string.
Proof.
  split; [| repeat split; reflexivity].
  intros m good ni Hin v.
  split; [reflexivity |].
  unfold spec_thresholds in Hin. simpl in Hin.
  repeat (destruct Hin as [Heq | Hin];
          [injection Heq as <- <- <-; unfold grade; cbn;
           apply grade_cases; lra |]).
  contradiction.
Qed.

Lemma grade_spec_witness :
  In ("LCP"%string, 2500, 4000) spec_thresholds
  /\ grade "LCP" (Some 3000) = "NI"%string.
Proof.
  split; [left; reflexivity |].
  apply (proj1 grade_spec "LCP"%string 2500 4000 (or_introl eq_refl) 3000);
    unfold Qlt, Qle; simpl; lia.
Defined.

(** The label of the middle grade is not the specification's
    NEEDS_IMPROVEMENT. *)
Lemma grade_label_counterexample :
  grade "LCP" (Some 3000) <> "NEEDS_IMPROVEMENT"%string.
Proof. vm_compute. discriminate. Qed.

(* ================================================================== *)
(** * DiagnosticRules: the order of the issues *)

Lemma rank_compare (a b : string) :
  (level_order a ?= level_order b)%Z = (severity a ?= severity b)%nat.
Proof.
  unfold level_order, severity.
  destruct (String.eqb a "HIGH"), (String.eqb a "MED"), (String.eqb a "LOW"),
    (String.eqb b "HIGH"), (String.eqb b "MED"), (String.eqb b "LOW");
    reflexivity.
Qed.

Lemma rank_lt (a b : string) :
  (level_order a < level_order b)%Z <-> (severity a < severity b)%nat.
Proof.
  rewrite <- Z.compare_lt_iff, <- Nat.compare_lt_iff. now rewrite rank_compare.
Qed.

Lemma rank_eq (a b : string) :
  level_order a = level_order b <-> severity a = severity b.
Proof.
  rewrite <- Z.compare_eq_iff, <- Nat.compare_eq_iff. now rewrite rank_compare.
Qed.

Lemma value_or_zero_spec (i : Issue) :
  value_or_zero (value_of i) == issue_value i.
Proof.
  unfold value_or_zero, issue_value. destruct (value_of i) as [q |];
    [| apply Qeq_refl].
  cbn [truthy]. destruct (Qeq_bool q 0) eqn:E; cbn [negb];
    [| apply Qeq_refl].
  apply Qeq_bool_iff in E. now symmetry.
Qed.

Lemma issue_lt_false (a b : Issue) : issue_lt b a = false <-> issue_le a b.
Proof.
  unfold issue_lt, key_lt, issue_le, sort_key. cbn [fst snd].
  rewrite <- rank_lt, <- rank_eq.
  pose proof (value_or_zero_spec a) as Ha.
  pose proof (value_or_zero_spec b) as Hb.
  destruct (Z.eqb_spec (level_order (level b)) (level_order (level a)))
    as [He | Hne].
  - rewrite Qlt_bool_false. split.
    + intros H. right. split; [congruence | lra].
    + intros [H | [_ H]]; [lia | lra].
  - rewrite Z.ltb_ge. split.
    + intros H. left. lia.
    + intros [H | [H _]]; [lia | congruence].
Qed.

Lemma issue_lt_asym (a b : Issue) : issue_lt a b = true -> issue_lt b a = false.
Proof.
  unfold issue_lt, key_lt, sort_key. cbn [fst snd].
  destruct (Z.eqb_spec (level_order (level a)) (level_order (level b)))
    as [He | Hne];
    destruct (Z.eqb_spec (level_order (level b)) (level_order (level a)))
      as [He' | Hne']; try congruence.
  - rewrite Qlt_bool_true, Qlt_bool_false. lra.
  - rewrite Z.ltb_lt, Z.ltb_ge. lia.
Qed.

Lemma issue_le_trans (a b c : Issue) :
  issue_lt b a = false -> issue_lt c b = false -> issue_lt c a = false.
Proof.
  rewrite !issue_lt_false. unfold issue_le.
  intros [H1 | [H1 H1']] [H2 | [H2 H2']].
  - left. lia.
  - left. lia.
  - left. lia.
  - right. split; [congruence | lra].
Qed.

Lemma same_key_not_lt (k a b : Issue) :
  same_key k a = true -> same_key k b = true -> issue_lt a b = false.
Proof.
  unfold same_key. rewrite !andb_true_iff, !Nat.eqb_eq, !Qeq_bool_iff.
  intros [Ha Ha'] [Hb Hb']. apply issue_lt_false. right.
  split; [congruence | lra].
Qed.

Lemma sorted_precedes {A} (R : A -> A -> Prop) (a b : A) (l : list A) :
  StronglySorted R l -> In a l -> In b l -> ~ R b a -> a <> b ->
  precedes a b l.
Proof.
  intros Hs Ha Hb Hnr Hne.
  destruct (in_split _ _ Ha) as (l1 & r & ->).
  apply in_app_or in Hb. destruct Hb as [Hb | [Hb | Hb]].
  - exfalso. apply Hnr. clear Ha Hne Hnr.
    induction l1 as [| x l1 IH]; [contradiction |].
    simpl in Hs. apply StronglySorted_inv in Hs. destruct Hs as [Hs Hall].
    destruct Hb as [-> | Hb].
    + rewrite Forall_forall in Hall. apply Hall.
      apply in_or_app. right. now left.
    + now apply IH.
  - congruence.
  - destruct (in_split _ _ Hb) as (l2 & l3 & ->).
    now exists l1, l2, l3.
Qed.

Lemma Forall_when {A} (P : A -> Prop) (b : bool) (x : A) :
  P x -> Forall P (when b x).
Proof. destruct b; simpl; auto. Qed.

Lemma collect_levels (F : Formats) (m : Metrics) :
  Forall (fun i => level i = "HIGH" \/ level i = "MED" \/ level i = "LOW")%string
         (collect_issues F m).
Proof.
  unfold collect_issues. cbn [List.concat].
  repeat (apply Forall_app; split);
    try (apply Forall_when; cbn; tauto); try constructor.
  destruct (renderBlockingTop m); constructor; [cbn; tauto | constructor].
Qed.

(** C3.  [build_issue_list] returns the fired issues ordered by severity
    (HIGH, then MED, then LOW) and, within a severity, by descending
    value, an issue without a value counting as 0; issues that agree on
    both keep the order in which the rules fired.  With TTFB = 1500 and
    TBT = 700 the TTFB issue comes before the TBT issue, whatever the
    order in which the issues were collected.  With LCP = 5000 and
    TTFB = 6000, both HIGH, the TTFB issue comes first although its rule
    is the later one; the render-blocking issue, which has no value,
    comes after the CLS issue of value 0.3 and before a bootup issue of
    negative value, all three MED. *)
Theorem issues_ordered (F : Formats) (m : Metrics) :
  Permutation (build_issue_list F m) (collect_issues F m)
  /\ StronglySorted issue_le (build_issue_list F m)
  /\ Forall (fun i => level i = "HIGH" \/ level i = "MED" \/ level i = "LOW")%string
            (build_issue_list F m)
  /\ level_order "HIGH" = 0%Z /\ level_order "MED" = 1%Z
  /\ level_order "LOW" = 2%Z
  /\ (forall k : Issue,
         filter (same_key k) (build_issue_list F m)
         = filter (same_key k) (collect_issues F m))
  /\ (forall l : list Issue,
         Permutation l (collect_issues F (with_ttfb_tbt m)) ->
         exists ti bi : Issue,
           metric ti = "TTFB"%string /\ level ti = "HIGH"%string
           /\ value_of ti = Some 1500
           /\ auditId ti = Some "server-response-time"%string
           /\ metric bi = "TBT"%string /\ level bi = "MED"%string
           /\ value_of bi = Some 700
           /\ auditId bi = Some "total-blocking-time"%string
           /\ precedes ti bi (sort issue_lt l))
  /\ (forall l : list Issue,
         Permutation l (collect_issues F (with_lcp_ttfb m)) ->
         exists ti li : Issue,
           metric ti = "TTFB"%string /\ level ti = "HIGH"%string
           /\ value_of ti = Some 6000
           /\ auditId ti = Some "server-response-time"%string
           /\ metric li = "LCP"%string /\ level li = "HIGH"%string
           /\ value_of li = Some 5000
           /\ auditId li = Some "largest-contentful-paint"%string
           /\ precedes ti li (sort issue_lt l)
           /\ precedes ti li (build_issue_list F (with_lcp_ttfb m)))
  /\ (forall (b : Blocking) (t : Q) (l : list Issue),
         t < 0 ->
         Permutation l (collect_issues F (with_blocking m b t)) ->
         exists ci ri bi : Issue,
           level ci = "MED"%string /\ value_of ci = Some (3 # 10)
           /\ auditId ci = Some "cumulative-layout-shift"%string
           /\ level ri = "MED"%string /\ value_of ri = None
           /\ auditId ri = Some "render-blocking-resources"%string
           /\ level bi = "MED"%string /\ value_of bi = Some t
           /\ auditId bi = Some "bootup-time"%string
           /\ precedes ci ri (sort issue_lt l)
           /\ precedes ri bi (sort issue_lt l)).
Proof.
  unfold build_issue_list.
  split; [apply sort_perm |].
  split.
  { assert (H : StronglySorted (fun a b => issue_lt b a = false)
                  (sort issue_lt (collect_issues F m))).
    { apply sort_sorted; [apply issue_lt_asym | apply issue_le_trans]. }
    induction H as [| x s Hs IH Hall]; constructor; [exact IH |].
    eapply Forall_impl; [| exact Hall].
    intros y Hy. now apply issue_lt_false. }
  split.
  { eapply Permutation_Forall; [| apply collect_levels].
    symmetry. apply sort_perm. }
  split; [reflexivity |]. split; [reflexivity |]. split; [reflexivity |].
  split.
  { intros k. apply sort_stable. apply same_key_not_lt. }
  split.
  { intros l Hl.
    set (m' := with_ttfb_tbt m) in *.
    set (ti := add_issue m' "HIGH" "TTFB" "TTFB 偏高（后端/网关/CDN 回源慢）"
                 ("TTFB≈" ++ sec_text F (ttfb m')
                  ++ "s，先看 CDN 命中率/回源耗时/接口耗时/重定向链路。")
                 (ttfb m') "server-response-time").
    set (bi := add_issue m' "MED" "TBT" "主线程阻塞（TBT 高）"
                 ("TBT≈" ++ ms_text (tbt m')
                  ++ "ms，常见原因：bundle 大、初始化重、第三方脚本占用。")
                 (tbt m') "total-blocking-time").
    exists ti, bi. repeat (split; [reflexivity |]).
    assert (Hti : In ti (collect_issues F m')).
    { unfold collect_issues. cbn [List.concat].
      apply in_or_app. right. apply in_or_app. left. now left. }
    assert (Hbi : In bi (collect_issues F m')).
    { unfold collect_issues. cbn [List.concat].
      do 4 (apply in_or_app; right). apply in_or_app. left. now left. }
    apply sorted_precedes with (R := fun a b => issue_lt b a = false).
    - apply sort_sorted; [apply issue_lt_asym | apply issue_le_trans].
    - apply (Permutation_in ti (Permutation_sym (sort_perm issue_lt l))).
      now apply (Permutation_in ti (Permutation_sym Hl)).
    - apply (Permutation_in bi (Permutation_sym (sort_perm issue_lt l))).
      now apply (Permutation_in bi (Permutation_sym Hl)).
    - discriminate.
    - discriminate. }
  split.
  { intros l Hl.
    set (m' := with_lcp_ttfb m) in *.
    set (ti := add_issue m' "HIGH" "TTFB" "TTFB 偏高（后端/网关/CDN 回源慢）"
                 ("TTFB≈" ++ sec_text F (ttfb m')
                  ++ "s，先看 CDN 命中率/回源耗时/接口耗时/重定向链路。")
                 (ttfb m') "server-response-time").
    set (li := add_issue m' "HIGH" "LCP" "LCP 偏慢"
                 ("LCP≈" ++ sec_text F (lcp m')
                  ++ "s，需关注资源请求、渲染阻塞、解码绘制与主线程阻塞。")
                 (lcp m') "largest-contentful-paint").
    exists ti, li. repeat (split; [reflexivity |]).
    assert (Hti : In ti (collect_issues F m')).
    { unfold collect_issues. cbn [List.concat].
      apply in_or_app. right. apply in_or_app. left. now left. }
    assert (Hli : In li (collect_issues F m')).
    { unfold collect_issues. cbn [List.concat].
      apply in_or_app. left. now left. }
    assert (Hnot : ~ issue_lt ti li = false) by discriminate.
    assert (Hne : ti <> li) by discriminate.
    split.
    - apply sorted_precedes with (R := fun a b => issue_lt b a = false);
        [| | | exact Hnot | exact Hne].
      + apply sort_sorted; [apply issue_lt_asym | apply issue_le_trans].
      + apply (Permutation_in ti (Permutation_sym (sort_perm issue_lt l))).
        now apply (Permutation_in ti (Permutation_sym Hl)).
      + apply (Permutation_in li (Permutation_sym (sort_perm issue_lt l))).
        now apply (Permutation_in li (Permutation_sym Hl)).
    - apply sorted_precedes with (R := fun a b => issue_lt b a = false);
        [| | | exact Hnot | exact Hne].
      + apply sort_sorted; [apply issue_lt_asym | apply issue_le_trans].
      + now apply (Permutation_in ti (Permutation_sym (sort_perm issue_lt _))).
      + now apply (Permutation_in li (Permutation_sym (sort_perm issue_lt _))). }
  intros b t l Ht Hl.
  set (m' := with_blocking m b t) in *.
  set (ci := add_issue m' "MED" "CLS" "布局抖动明显（CLS 高）"
               ("CLS≈" ++ match cls m' with
                          | Some q => fmt_fixed F 3 q
                          | None => ""
                          end
                ++ "，检查图片/广告/懒加载占位、字体加载策略。")
               (cls m') "cumulative-layout-shift").
  set (ri := add_issue m' "MED" "FCP" "存在渲染阻塞资源（CSS/同步 JS）"
               ("示例阻塞资源：" ++ rb_url_text F b)
               None "render-blocking-resources").
  set (bi := add_issue m' "MED" "TBT" "JS 启动/解析执行开销大（bootup-time 高）"
               "拆包、延迟非首屏代码、减少 polyfill/过度转译。"
               (tbt m') "bootup-time").
  exists ci, ri, bi. repeat (split; [reflexivity |]).
  assert (Hci : In ci (collect_issues F m')).
  { unfold collect_issues. cbn [List.concat].
    do 3 (apply in_or_app; right). apply in_or_app. left. now left. }
  assert (Hri : In ri (collect_issues F m')).
  { unfold collect_issues. cbn [List.concat].
    do 8 (apply in_or_app; right). apply in_or_app. left. now left. }
  assert (Hbi : In bi (collect_issues F m')).
  { unfold collect_issues. cbn [List.concat].
    do 9 (apply in_or_app; right). apply in_or_app. left. now left. }
  assert (Hs : StronglySorted (fun a b => issue_lt b a = false)
                 (sort issue_lt l))
    by (apply sort_sorted; [apply issue_lt_asym | apply issue_le_trans]).
  assert (In_sorted : forall x, In x (collect_issues F m') ->
                                In x (sort issue_lt l)).
  { intros x Hx.
    apply (Permutation_in x (Permutation_sym (sort_perm issue_lt l))).
    now apply (Permutation_in x (Permutation_sym Hl)). }
  split.
  - apply sorted_precedes with (R := fun a b => issue_lt b a = false);
      auto; [| discriminate].
    intros H. apply issue_lt_false in H. unfold issue_le in H.
    cbn in H. destruct H as [H | [_ H]]; [lia |].
    revert H. apply Qlt_not_le. reflexivity.
  - apply sorted_precedes with (R := fun a b => issue_lt b a = false);
      auto; [| discriminate].
    intros H. apply issue_lt_false in H. unfold issue_le in H.
    cbn in H. destruct H as [H | [_ H]]; [lia |].
    revert H. apply Qlt_not_le. exact Ht.
Qed.

Lemma issues_ordered_witness :
  Permutation (rev (collect_issues plain_formats slow_metrics))
              (collect_issues plain_formats (with_ttfb_tbt slow_metrics))
  /\ exists ti bi : Issue,
      metric ti = "TTFB"%string /\ level ti = "HIGH"%string
      /\ value_of ti = Some 1500
      /\ auditId ti = Some "server-response-time"%string
      /\ metric bi = "TBT"%string /\ level bi = "MED"%string
      /\ value_of bi = Some 700
      /\ auditId bi = Some "total-blocking-time"%string
      /\ precedes ti bi
           (sort issue_lt (rev (collect_issues plain_formats slow_metrics))).
Proof.
  assert (H : Permutation (rev (collect_issues plain_formats slow_metrics))
                (collect_issues plain_formats (with_ttfb_tbt slow_metrics))).
  { vm_compute. apply perm_swap. }
  split; [exact H |].
  exact (proj1 (proj2 (proj2 (proj2 (proj2 (proj2 (proj2 (proj2
           (issues_ordered plain_formats slow_metrics)))))))) _ H).
Defined.

(* ================================================================== *)
(** * RepeatRunner: failures and folding *)

Lemma attempts_length {A B} (l : list (A + B)) :
  (List.length (successes l) + List.length (failures l) = List.length l)%nat.
Proof.
  induction l as [| [a | b] l IH]; simpl; lia.
Qed.

Section Repeats.
Variable F : Formats.
Variable tool : nat -> string -> ToolOutcome.
Variables url out_dir device : string.
Variable repeats : nat.

Lemma repeat_loop (idx : list nat) (st : list RunResult * list string) :
  fold_left (repeat_step F tool url repeats out_dir device) idx st
  = ((fst st
      ++ successes (map (attempt F tool url repeats out_dir device) idx))%list,
     (snd st
      ++ failures (map (attempt F tool url repeats out_dir device) idx))%list).
Proof.
  revert st. induction idx as [| i idx IH]; intros [runs errs]; simpl.
  - now rewrite !app_nil_r.
  - rewrite IH. unfold repeat_step.
    destruct (attempt F tool url repeats out_dir device i) as [r | e]; simpl;
      now rewrite <- !app_assoc.
Qed.

Lemma repeats_outcome :
  let attempts :=
    map (attempt F tool url repeats out_dir device) (seq 0 repeats) in
  let ok := successes attempts in
  let failed := failures attempts in
  (List.length ok + List.length failed = repeats)%nat
  /\ match ok with
     | [] =>
         exists f : FailedResult,
           run_url_repeats F tool url repeats out_dir device = Ok (AllFailed f)
           /\ error f <> ""%string
           /\ allErrors f = failed
           /\ List.length (allErrors f) = repeats
     | _ :: _ =>
         exists r : FoldedResult,
           run_url_repeats F tool url repeats out_dir device = Ok (Folded r)
           /\ errors r = failed
           /\ List.length (errors r) = (repeats - List.length ok)%nat
           /\ median (collect perfScore ok) = Ok (perfScore (metrics_of r))
           /\ median (collect lcp ok) = Ok (lcp (metrics_of r))
           /\ median (collect inp ok) = Ok (inp (metrics_of r))
           /\ median (collect cls ok) = Ok (cls (metrics_of r))
           /\ median (collect tbt ok) = Ok (tbt (metrics_of r))
           /\ median (collect fcp ok) = Ok (fcp (metrics_of r))
           /\ median (collect ttfb ok) = Ok (ttfb (metrics_of r))
     end.
Proof.
  cbv zeta.
  set (attempts :=
         map (attempt F tool url repeats out_dir device) (seq 0 repeats)).
  assert (Hlen : (List.length (successes attempts)
                  + List.length (failures attempts) = repeats)%nat).
  { subst attempts. now rewrite attempts_length, length_map, length_seq. }
  split; [exact Hlen |].
  unfold run_url_repeats. rewrite repeat_loop. cbn [fst snd app].
  fold attempts.
  destruct (successes attempts) as [| first rest].
  - eexists. split; [reflexivity |]. cbn [error allErrors].
    split; [| split; [reflexivity | simpl in Hlen; exact Hlen]].
    match goal with
    | |- (if String.eqb ?s _ then _ else _) <> _ =>
        destruct (String.eqb_spec s ""%string); [discriminate | assumption]
    end.
  - rewrite !median_total. unfold Py.bind.
    eexists. split; [reflexivity |].
    cbn [errors metrics_of perfScore lcp inp cls tbt fcp ttfb].
    split; [reflexivity |]. split; [simpl in *; lia |].
    repeat split; reflexivity.
Qed.

End Repeats.

Lemma available_some (l : list Q) : available (map Some l) = l.
Proof.
  unfold available. induction l as [| x l IH]; [reflexivity |].
  simpl. now rewrite IH.
Qed.

Lemma available_samples (k : Metrics -> option Q) (ok : list RunResult) :
  available (map (fun r => k (run_metrics r)) ok) = run_samples k ok.
Proof.
  unfold available, run_samples. induction ok as [| r ok IH]; [reflexivity |].
  simpl. destruct (k (run_metrics r)); simpl; now rewrite IH.
Qed.

Lemma median_runs (k : Metrics -> option Q) (ok : list RunResult)
  (v : option Q) :
  median (collect k ok) = Ok v -> median_over (run_samples k ok) v.
Proof.
  rewrite median_total. unfold collect.
  rewrite available_some, available_samples. intros H. injection H as <-.
  exists (sort Qlt_bool (run_samples k ok)).
  split; [apply sort_perm |]. split; [apply sort_Q_sorted | reflexivity].
Qed.

(** C5.  Every repeat is attempted and each failure adds its message to
    the error list.  When no repeat succeeds the result is the all-failed
    variant, with a non-empty message and all N errors; otherwise it is
    the folded variant, each metric being the median of the values that
    the successful repeats have for it, with the k errors recorded.  With
    three repeats of which the second fails the LCP is the median of
    1000 and 3000; with three successes it is the median of 1000, 2000
    and 3000. *)
Theorem repeats_folded :
  (forall (F : Formats) (tool : nat -> string -> ToolOutcome)
          (url out_dir device : string) (repeats : nat),
      let attempts :=
        map (attempt F tool url repeats out_dir device) (seq 0 repeats) in
      let ok := successes attempts in
      let failed := failures attempts in
      (List.length ok + List.length failed = repeats)%nat
      /\ match ok with
         | [] =>
             exists f : FailedResult,
               run_url_repeats F tool url repeats out_dir device
               = Ok (AllFailed f)
               /\ error f <> ""%string
               /\ allErrors f = failed
               /\ List.length (allErrors f) = repeats
         | _ :: _ =>
             exists r : FoldedResult,
               run_url_repeats F tool url repeats out_dir device
               = Ok (Folded r)
               /\ errors r = failed
               /\ List.length (errors r) = (repeats - List.length ok)%nat
               /\ median_over (run_samples perfScore ok)
                    (perfScore (metrics_of r))
               /\ median_over (run_samples lcp ok) (lcp (metrics_of r))
               /\ median_over (run_samples inp ok) (inp (metrics_of r))
               /\ median_over (run_samples cls ok) (cls (metrics_of r))
               /\ median_over (run_samples tbt ok) (tbt (metrics_of r))
               /\ median_over (run_samples fcp ok) (fcp (metrics_of r))
               /\ median_over (run_samples ttfb ok) (ttfb (metrics_of r))
         end)
  /\ (exists r : FoldedResult,
         run_url_repeats plain_formats flaky_tool "https://a.com" 3 "out"
                         "mobile"
         = Ok (Folded r)
         /\ errors r = ["Lighthouse failed (rc=1)"%string]
         /\ exists v, lcp (metrics_of r) = Some v /\ v == 2000)
  /\ (exists r : FoldedResult,
         run_url_repeats plain_formats steady_tool "https://a.com" 3 "out"
                         "mobile"
         = Ok (Folded r)
         /\ errors r = []
         /\ run_samples lcp
              (successes
                 (map (attempt plain_formats steady_tool "https://a.com" 3
                               "out" "mobile") (seq 0 3)))
            = [1000; 2000; 3000]
         /\ exists v, lcp (metrics_of r) = Some v /\ v == 2000)
  /\ (exists f : FailedResult,
         run_url_repeats plain_formats dead_tool "https://a.com" 3 "out"
                         "mobile"
         = Ok (AllFailed f)
         /\ error f = "timeout; timeout; timeout"%string
         /\ List.length (allErrors f) = 3%nat).
Proof.
  split.
  { intros F tool url out_dir device repeats.
    pose proof (@repeats_outcome F tool url out_dir device repeats) as H.
    cbv zeta in *. destruct H as [Hlen H]. split; [exact Hlen |].
    destruct (successes _) as [| first rest]; [exact H |].
    destruct H as (r & E & He & Hl & H1 & H2 & H3 & H4 & H5 & H6 & H7).
    exists r. split; [exact E |]. split; [exact He |]. split; [exact Hl |].
    repeat split; now apply median_runs. }
  split.
  { eexists. split; [vm_compute; reflexivity |].
    split; [reflexivity |]. eexists. split; reflexivity. }
  split.
  { eexists. split; [vm_compute; reflexivity |].
    split; [reflexivity |]. split; [vm_compute; reflexivity |].
    eexists. split; reflexivity. }
  eexists. split; [vm_compute; reflexivity |]. split; reflexivity.
Qed.

(* ================================================================== *)
(** * ReportDiffer: the improvement percentage *)

Lemma average_ok (xs : list Q) :
  xs <> [] ->
  average xs
  = Ok (fold_left Qplus xs 0 / inject_Z (Z.of_nat (List.length xs))).
Proof.
  intros Hne. unfold average, div.
  destruct (Qeq_bool (inject_Z (Z.of_nat (List.length xs))) 0) eqn:E;
    [| reflexivity].
  apply Qeq_bool_iff in E. unfold Qeq in E. simpl in E.
  destruct xs; [congruence | simpl in E; lia].
Qed.

Lemma improvement_cases (m : string) (avg_old avg_new : Q) :
  (avg_old == 0 -> improvement m avg_old avg_new = Ok 0)
  /\ (~ avg_old == 0 ->
      improvement m avg_old avg_new
      = Ok (if String.eqb m "score"
            then (avg_new - avg_old) / avg_old * 100
            else (avg_old - avg_new) / avg_old * 100)).
Proof.
  unfold improvement, div.
  destruct (Qeq_bool avg_old 0) eqn:E.
  - apply Qeq_bool_iff in E. split; [| tauto].
    intros _. now destruct (String.eqb m "score").
  - apply Qeq_bool_neq in E. split; [tauto |].
    intros _. now destruct (String.eqb m "score").
Qed.

Lemma average_mean (xs : list Q) (a : Q) :
  average xs = Ok a -> a == mean xs.
Proof.
  unfold average, div, mean.
  destruct (Qeq_bool (inject_Z (Z.of_nat (List.length xs))) 0);
    [discriminate |].
  intros H. injection H as <-. apply Qeq_refl.
Qed.

Lemma data_get_lookup (u : option string) (d : Data) :
  data_get u d = lookup_url u d.
Proof.
  unfold lookup_url. induction d as [| [k e] d IH]; [reflexivity |].
  cbn [data_get find fst].
  change (same_url u k) with (key_eqb u k).
  destruct (key_eqb u k); [reflexivity | exact IH].
Qed.

Lemma entry_get_value (m : string) (e : Entry) :
  entry_get e m = entry_value m e.
Proof.
  unfold entry_get, entry_value. cbn [find fst snd].
  destruct (String.eqb m "score"); [reflexivity |].
  destruct (String.eqb m "lcp"); [reflexivity |].
  destruct (String.eqb m "tbt"); [reflexivity |].
  destruct (String.eqb m "fcp"); [reflexivity |].
  destruct (String.eqb m "cls"); [reflexivity |].
  destruct (String.eqb m "ttfb"); reflexivity.
Qed.

Lemma flat_map_filter_map {A B C} (f : B -> list C) (p : B -> bool)
  (h : A -> B) (l : list A) :
  flat_map f (filter p (map h l))
  = flat_map (fun x => if p (h x) then f (h x) else []) l.
Proof.
  induction l as [| x l IH]; [reflexivity |].
  cbn [map filter flat_map]. destruct (p (h x)); cbn [flat_map app];
    now rewrite IH.
Qed.

Lemma samples_common (old_data new_data : Data) (m : string) :
  samples old_data new_data m = common_sample old_data new_data m.
Proof.
  unfold samples, common_urls, common_sample.
  rewrite flat_map_filter_map. apply flat_map_ext. intros [u e].
  cbn [fst]. unfold sample_of.
  rewrite !data_get_lookup.
  destruct (lookup_url u new_data) as [n |];
    [| now destruct (lookup_url u old_data)].
  destruct (lookup_url u old_data) as [o |]; [| reflexivity].
  now rewrite !entry_get_value.
Qed.



(* ================================================================== *)
(** * Strings *)

Lemma chars_app (a b : string) : chars (a ++ b) = (chars a ++ chars b)%list.
Proof. unfold chars. induction a as [| c a IH]; simpl; congruence. Qed.

Lemma chars_length (s : string) : List.length (chars s) = String.length s.
Proof. unfold chars. induction s as [| c s IH]; simpl; congruence. Qed.

Lemma chars_inj (a b : string) : chars a = chars b -> a = b.
Proof.
  unfold chars. intros H.
  rewrite <- (string_of_list_ascii_of_string a),
          <- (string_of_list_ascii_of_string b).
  now rewrite H.
Qed.

Lemma str_chars (s : string) : str (chars s) = s.
Proof. apply string_of_list_ascii_of_string. Qed.

Lemma chars_str (l : list ascii) : chars (str l) = l.
Proof. apply list_ascii_of_string_of_list_ascii. Qed.

Lemma append_inv_head (p a b : string) : (p ++ a = p ++ b)%string -> a = b.
Proof. induction p as [| c p IH]; simpl; intros H; [exact H |].
       injection H as H. now apply IH. Qed.

Lemma append_inv_tail (a b t : string) : (a ++ t = b ++ t)%string -> a = b.
Proof.
  intros H. apply chars_inj. apply (f_equal chars) in H.
  rewrite !chars_app in H. now apply app_inv_tail in H.
Qed.

Lemma str_take_all (n : nat) (s : string) :
  (String.length s <= n)%nat -> str_take n s = s.
Proof.
  intros H. unfold str_take.
  rewrite firstn_all2 by (now rewrite chars_length). apply str_chars.
Qed.

Lemma str_of_nat_inj (n m : nat) : str_of_nat n = str_of_nat m -> n = m.
Proof.
  unfold str_of_nat. intros H.
  apply DecimalNat.Unsigned.to_uint_inj.
  assert (E : Some (Nat.to_uint n) = Some (Nat.to_uint m)).
  { rewrite <- !NilEmpty.usu. now rewrite H. }
  now injection E.
Qed.

(* ================================================================== *)
(** * Report paths *)

Lemma startswith_common (c : ascii) (p x y pre : string) :
  startswith (String c p ++ x) pre = startswith (String c p ++ y) pre
  \/ (1 < String.length pre)%nat.
Proof.
  unfold startswith. destruct pre as [| c' [| c'' pre]].
  - left. reflexivity.
  - left. simpl. destruct (ascii_dec c' c); [| reflexivity].
    now destruct (p ++ x)%string, (p ++ y)%string.
  - right. simpl. lia.
Qed.

Lemma path_join_inj (a : string) (c : ascii) (p x y : string) :
  path_join a (String c p ++ x) = path_join a (String c p ++ y) -> x = y.
Proof.
  unfold path_join.
  destruct (startswith_common c p x y "/") as [-> | H]; [| simpl in H; lia].
  destruct (startswith (String c p ++ y) "/").
  - apply append_inv_head.
  - destruct (String.eqb a "" || endswith a "/").
    + intros H. apply append_inv_head in H. now apply append_inv_head in H.
    + intros H. apply append_inv_head in H.
      change ("/" ++ (String c p ++ x) = "/" ++ (String c p ++ y))%string in H.
      apply append_inv_head in H. now apply append_inv_head in H.
Qed.

Lemma append_assoc' (a b c : string) : ((a ++ b) ++ c = a ++ (b ++ c))%string.
Proof. induction a as [| x a IH]; simpl; congruence. Qed.

Lemma path_join_inj' (a q x y : string) :
  q <> ""%string ->
  path_join a (q ++ x) = path_join a (q ++ y) -> x = y.
Proof.
  destruct q as [| c p]; [congruence |]. intros _. apply path_join_inj.
Qed.

Lemma lhr_path_shape (url out_dir device run_id : string) :
  unique_id device run_id <> ""%string ->
  exists q : string,
    q <> ""%string
    /\ lhr_path url out_dir device run_id
       = path_join out_dir
           (q ++ (str_take 30 (unique_id device run_id) ++ ".lhr.json"))
    /\ forall device' run_id',
        unique_id device' run_id' <> ""%string ->
        lhr_path url out_dir device' run_id'
        = path_join out_dir
            (q ++ (str_take 30 (unique_id device' run_id') ++ ".lhr.json")).
Proof.
  intros Hu.
  set (s := str_take 150 (str (collapse_seps false (chars (strip_scheme url))))).
  exists (s ++ "__")%string.
  assert (Hq : (s ++ "__")%string <> ""%string) by (destruct s; discriminate).
  assert (Hshape : forall d r, unique_id d r <> ""%string ->
            lhr_path url out_dir d r
            = path_join out_dir
                ((s ++ "__") ++ (str_take 30 (unique_id d r) ++ ".lhr.json"))).
  { intros d r Hne. unfold lhr_path, sanitize_filename. fold s.
    destruct (String.eqb_spec (unique_id d r) ""%string) as [E | _];
      [congruence |].
    cbn [negb]. now rewrite !append_assoc'. }
  split; [exact Hq |]. split; [now apply Hshape | exact Hshape].
Qed.




(* ================================================================== *)
(** * MetricExtractor *)

Lemma or_else_dict (v : value) :
  dictish v = true -> is_dict (or_else v (VDict [])) = true.
Proof.
  unfold dictish, or_else. destruct (truthy v); simpl; [tauto | reflexivity].
Qed.

Lemma get_dict (v : value) (k : string) :
  is_dict v = true -> get v k = Ok (field v k).
Proof.
  destruct v as [| | | | | | d]; try discriminate. intros _.
  unfold field, or_else. destruct d as [| p d]; reflexivity.
Qed.

Lemma get_or_else (v : value) (k : string) :
  dictish v = true -> get (or_else v (VDict [])) k = Ok (field v k).
Proof.
  intros H. apply or_else_dict in H. unfold field.
  destruct (or_else v (VDict [])); try discriminate. reflexivity.
Qed.

Lemma truthy_dictish (v : value) :
  dictish v = true -> truthy v = true -> is_dict v = true.
Proof. unfold dictish. intros H Ht. now rewrite Ht in H. Qed.

Lemma float_of_ok (v : value) :
  is_number v = true -> float_ok v = true -> float_of v = Ok (number_of v).
Proof.
  destruct v; try discriminate; simpl; intros _ H; try reflexivity.
  now rewrite H.
Qed.

Lemma number_read (v : value) :
  float_ok v = true ->
  (if is_number v then q <- float_of v ;; Ok (Some q) else Ok None)
  = Ok (if is_number v then Some (number_of v) else None).
Proof.
  intros H. destruct (is_number v) eqn:E; [| reflexivity].
  now rewrite (float_of_ok v E H).
Qed.

Section Extract.
Variable lhr : value.
Hypothesis lhr_dict : is_dict lhr = true.
Hypothesis audits_dictish : dictish (field lhr "audits") = true.

Lemma audits_of_ok :
  audits_of lhr = Ok (or_else (field lhr "audits") (VDict [])).
Proof. unfold audits_of. now rewrite (get_dict lhr "audits" lhr_dict). Qed.

Lemma audit_numeric_ok (id : string) :
  dictish (field (field lhr "audits") id) = true ->
  float_ok (field (field (field lhr "audits") id) "numericValue") = true ->
  audit_numeric lhr id = Ok (numeric_at lhr id).
Proof.
  intros Ha Hf. unfold audit_numeric, numeric_at, number_at.
  rewrite audits_of_ok. cbn [Py.bind].
  rewrite (get_or_else _ id audits_dictish). cbn [Py.bind].
  set (a := field (field lhr "audits") id) in *.
  destruct (truthy a) eqn:Ht; cbn [negb].
  - rewrite (get_dict a "numericValue" (truthy_dictish a Ha Ht)).
    cbn [Py.bind]. now apply number_read.
  - unfold field, or_else. rewrite Ht. reflexivity.
Qed.

Lemma audit_obj_ok (id : string) :
  audit_obj lhr id = Ok (or_else (field (field lhr "audits") id) (VDict [])).
Proof.
  unfold audit_obj. rewrite audits_of_ok. cbn [Py.bind].
  now rewrite (get_or_else _ id audits_dictish).
Qed.

Lemma details_get_ok (a : value) (k : string) :
  dictish a = true -> dictish (field a "details") = true ->
  details_get (or_else a (VDict [])) k = Ok (field (field a "details") k).
Proof.
  intros Ha Hd. unfold details_get.
  rewrite (get_or_else a "details" Ha). cbn [Py.bind].
  now apply get_or_else.
Qed.

Lemma audit_items_ok (id : string) :
  dictish (field (field lhr "audits") id) = true ->
  dictish (field (field (field lhr "audits") id) "details") = true ->
  exists l, audit_items lhr id = Ok l.
Proof.
  intros Ha Hd. unfold audit_items.
  rewrite audits_of_ok. cbn [Py.bind].
  rewrite (get_or_else _ id audits_dictish). cbn [Py.bind].
  rewrite (get_or_else _ "details" Ha). cbn [Py.bind].
  rewrite (get_or_else _ "items" Hd). cbn [Py.bind].
  destruct (or_else _ (VList [])); eexists; reflexivity.
Qed.

End Extract.

Lemma rb_top_of_ok (items : list value) : exists l, rb_top_of items = Ok l.
Proof.
  induction items as [| it rest [l IH]]; simpl; [now eexists |].
  destruct (is_dict it) eqn:E; cbn [negb]; [| now exists l].
  rewrite !(get_dict it _ E). cbn [Py.bind]. rewrite IH. now eexists.
Qed.




(* ================================================================== *)
(** * Stripping and suffixes *)

Lemma append_length (a b : string) :
  String.length (a ++ b) = (String.length a + String.length b)%nat.
Proof. now rewrite <- !chars_length, chars_app, length_app. Qed.

Lemma lstrip_head (l : list ascii) :
  lstrip_chars l = []
  \/ exists c r, lstrip_chars l = c :: r /\ is_space c = false.
Proof.
  induction l as [| c l IH]; simpl; [now left |].
  destruct (is_space c) eqn:E; [exact IH |]. right. now exists c, l.
Qed.

Lemma lstrip_nonspace (c : ascii) (l : list ascii) :
  is_space c = false -> lstrip_chars (c :: l) = c :: l.
Proof. intros E. simpl. now rewrite E. Qed.

Lemma lstrip_app (l : list ascii) (c : ascii) (t : list ascii) :
  is_space c = false ->
  lstrip_chars (l ++ c :: t) = (lstrip_chars l ++ c :: t)%list.
Proof.
  intros E. induction l as [| x l IH]; simpl; [now rewrite E |].
  now destruct (is_space x).
Qed.

Lemma rstrip_nonspace (c : ascii) (l : list ascii) :
  is_space c = false -> rstrip_chars (c :: l) = c :: rstrip_chars l.
Proof. intros E. simpl. rewrite E. now destruct (rstrip_chars l). Qed.

Lemma rstrip_app (l : list ascii) (t : list ascii) (c : ascii) :
  is_space c = false ->
  rstrip_chars (l ++ t ++ [c]) = (l ++ t ++ [c])%list.
Proof.
  intros E. rewrite app_assoc. generalize (l ++ t)%list. clear l t.
  intros l. induction l as [| x l IH]; simpl; [now rewrite E |].
  rewrite IH. now destruct (l ++ [c])%list eqn:El; [destruct l |].
Qed.

Lemma rstrip_cons (c : ascii) (l : list ascii) :
  rstrip_chars l <> [] -> rstrip_chars (c :: l) = c :: rstrip_chars l.
Proof. intros H. simpl. now destruct (rstrip_chars l). Qed.

Lemma rstrip_idem (l : list ascii) :
  rstrip_chars (rstrip_chars l) = rstrip_chars l.
Proof.
  induction l as [| c l IH]; [reflexivity |].
  destruct (rstrip_chars l) as [| y r] eqn:E.
  - simpl. rewrite E.
    destruct (is_space c) eqn:Ec; simpl; [reflexivity | now rewrite Ec].
  - rewrite (rstrip_cons c l) by (rewrite E; discriminate).
    rewrite E. rewrite (rstrip_cons c (y :: r)) by (rewrite IH; discriminate).
    now rewrite IH.
Qed.

Lemma strip_chars (s : string) :
  chars (strip s) = rstrip_chars (lstrip_chars (chars s)).
Proof. unfold strip. apply chars_str. Qed.

Lemma strip_chars_idem (l : list ascii) :
  rstrip_chars (lstrip_chars (rstrip_chars (lstrip_chars l)))
  = rstrip_chars (lstrip_chars l).
Proof.
  destruct (lstrip_head l) as [-> | (c & r & -> & Ec)]; [reflexivity |].
  rewrite (rstrip_nonspace c r Ec), (lstrip_nonspace c _ Ec).
  now rewrite (rstrip_nonspace c _ Ec), rstrip_idem.
Qed.

Lemma strip_idem (s : string) : strip (strip s) = strip s.
Proof. apply chars_inj. rewrite !strip_chars. apply strip_chars_idem. Qed.

Lemma lstrip_idem (l : list ascii) :
  lstrip_chars (lstrip_chars l) = lstrip_chars l.
Proof.
  destruct (lstrip_head l) as [-> | (c & r & -> & Ec)]; [reflexivity |].
  now apply lstrip_nonspace.
Qed.

Lemma strip_lstrip (s : string) : strip (lstrip s) = strip s.
Proof.
  apply chars_inj. rewrite !strip_chars. unfold lstrip.
  now rewrite chars_str, lstrip_idem.
Qed.

(** Stripping a string that ends in the non-blank text [t ++ [c]] only
    strips it on the left. *)
Lemma strip_suffix (s t : string) (c : ascii) :
  is_space c = false ->
  (forall x r, chars t = x :: r -> is_space x = false) ->
  strip (s ++ t ++ String c "") = (lstrip s ++ t ++ String c "")%string.
Proof.
  intros Ec Ht. apply chars_inj.
  rewrite strip_chars, !chars_app. unfold lstrip. rewrite chars_str.
  change (chars (String c "")) with [c].
  destruct (chars t) as [| x r] eqn:Et.
  - cbn [app]. rewrite (lstrip_app _ c _ Ec).
    apply (rstrip_app (lstrip_chars (chars s)) [] c Ec).
  - cbn [app]. rewrite (lstrip_app _ x _ (Ht x r eq_refl)).
    apply (rstrip_app (lstrip_chars (chars s)) (x :: r) c Ec).
Qed.

Lemma endswith_app (x suf : string) : endswith (x ++ suf) suf = true.
Proof.
  unfold endswith. rewrite append_length.
  apply andb_true_intro. split; [apply Nat.leb_le; lia |].
  apply String.eqb_eq. unfold str_drop.
  replace (String.length x + String.length suf - String.length suf)%nat
    with (List.length (chars x) + 0)%nat by (rewrite chars_length; lia).
  rewrite chars_app, skipn_app, Nat.add_0_r, skipn_all.
  replace (List.length (chars x) - List.length (chars x))%nat with 0%nat by lia.
  apply str_chars.
Qed.

Lemma endswith_split (s suf : string) :
  endswith s suf = true -> exists x, s = (x ++ suf)%string.
Proof.
  unfold endswith. intros H. apply andb_prop in H. destruct H as [_ H].
  apply String.eqb_eq in H.
  exists (str_take (String.length s - String.length suf) s).
  rewrite <- H at 2. unfold str_take, str_drop. apply chars_inj.
  now rewrite chars_app, !chars_str, firstn_skipn.
Qed.

Lemma drop_last_app (x suf : string) :
  str_drop_last (String.length suf) (x ++ suf) = x.
Proof.
  unfold str_drop_last, str_take. rewrite append_length.
  replace (String.length x + String.length suf - String.length suf)%nat
    with (List.length (chars x) + 0)%nat by (rewrite chars_length; lia).
  rewrite chars_app, firstn_app_2, firstn_O, app_nil_r. apply str_chars.
Qed.

Lemma in_chars_suffix (x suf : string) (c : ascii) :
  In c (chars suf) -> In c (chars (x ++ suf)).
Proof. intros H. rewrite chars_app. apply in_or_app. now right. Qed.

(* ================================================================== *)
(** * ReportDiffer: reading the cells *)

Section ParseTime.

Variable float_of_str : string -> option Q.

(** A string that [float] accepts is still accepted, with the same
    value, once the blanks at its left end or at both ends are stripped;
    it is not empty and has no [s], [m] or [/] in it. *)
Hypothesis float_blank :
  forall s q, float_of_str s = Some q ->
    float_of_str (lstrip s) = Some q /\ float_of_str (strip s) = Some q.
Hypothesis float_chars :
  forall s q, float_of_str s = Some q ->
    s <> ""%string
    /\ ~ In "s"%char (chars s)
    /\ ~ In "m"%char (chars s)
    /\ ~ In "/"%char (chars s).

Lemma accepted_no_suffix_s (v : string) (q : Q) :
  float_of_str v = Some q -> endswith v "s" = false.
Proof.
  intros Hv. destruct (endswith v "s") eqn:E; [| reflexivity].
  apply endswith_split in E. destruct E as [x ->].
  destruct (float_chars Hv) as (_ & Hs & _). exfalso. apply Hs.
  apply in_chars_suffix. now left.
Qed.

Lemma accepted_no_suffix_ms (v : string) (q : Q) :
  float_of_str v = Some q -> endswith v "ms" = false.
Proof.
  intros Hv. destruct (endswith v "ms") eqn:E; [| reflexivity].
  apply endswith_split in E. destruct E as [x ->].
  destruct (float_chars Hv) as (_ & Hs & _). exfalso. apply Hs.
  apply in_chars_suffix. right. now left.
Qed.

Lemma seconds_not_millis (x : string) (q : Q) :
  float_of_str x = Some q -> endswith (x ++ "s") "ms" = false.
Proof.
  intros Hx. destruct (endswith (x ++ "s") "ms") eqn:E; [| reflexivity].
  apply endswith_split in E. destruct E as [y E].
  apply (f_equal chars) in E. rewrite !chars_app in E.
  change (chars "s") with ["s"%char] in E.
  change (chars "ms") with (["m"%char] ++ ["s"%char])%list in E.
  rewrite app_assoc in E. apply app_inj_tail in E. destruct E as [E _].
  destruct (float_chars Hx) as (_ & _ & Hm & _). exfalso. apply Hm.
  rewrite E. apply in_or_app. right. now left.
Qed.

(** C10.  [parse_time] reads every time cell in seconds: a well-formed
    number followed by [ms] is divided by 1000, a number followed by [s]
    and a bare number are taken as they are, and an empty cell or [N/A]
    is absent.  [read_csv] reads the LCP, TBT, FCP and TTFB columns of
    both reports through it. *)
Theorem parse_time_seconds (num : string) (q : Q) :
  float_of_str num = Some q ->
  parse_time float_of_str (Some (num ++ "ms")%string) = Ok (Some (q / 1000))
  /\ parse_time float_of_str (Some (num ++ "s")%string) = Ok (Some q)
  /\ parse_time float_of_str (Some num) = Ok (Some q)
  /\ parse_time float_of_str (Some ""%string) = Ok None
  /\ parse_time float_of_str (Some "N/A"%string) = Ok None
  /\ (forall (row : Row) (u : option string) (e : Entry),
         read_row float_of_str row = Ok (u, e) ->
         exists c_lcp c_tbt c_fcp c_ttfb : option string,
           cell row "LCP" = Ok c_lcp
           /\ parse_time float_of_str c_lcp = Ok (e_lcp e)
           /\ cell row "TBT" = Ok c_tbt
           /\ parse_time float_of_str c_tbt = Ok (e_tbt e)
           /\ cell row "FCP" = Ok c_fcp
           /\ parse_time float_of_str c_fcp = Ok (e_fcp e)
           /\ cell row "TTFB" = Ok c_ttfb
           /\ parse_time float_of_str c_ttfb = Ok (e_ttfb e)).
Proof.
  intros Hnum.
  destruct (float_blank Hnum) as [Hl Hs].
  split; [| split; [| split; [| split; [| split]]]].
  - unfold parse_time.
    assert (Hend := endswith_app num "ms").
    destruct (String.eqb_spec (num ++ "ms") ""%string) as [E | _];
      [rewrite E in Hend; discriminate |].
    destruct (String.eqb_spec (num ++ "ms") "N/A"%string) as [E | _];
      [rewrite E in Hend; discriminate |].
    cbn [orb].
    change (num ++ "ms")%string with (num ++ "m" ++ String "s" "")%string.
    rewrite strip_suffix;
      [| reflexivity | intros x r Hx; injection Hx as <- _; reflexivity].
    change (lstrip num ++ "m" ++ String "s" "")%string
      with (lstrip num ++ "ms")%string.
    rewrite endswith_app.
    change 2%nat with (String.length "ms").
    now rewrite drop_last_app, Hl.
  - unfold parse_time.
    assert (Hend := endswith_app num "s").
    destruct (String.eqb_spec (num ++ "s") ""%string) as [E | _];
      [rewrite E in Hend; discriminate |].
    destruct (String.eqb_spec (num ++ "s") "N/A"%string) as [E | _];
      [rewrite E in Hend; discriminate |].
    cbn [orb].
    change (num ++ "s")%string with (num ++ "" ++ String "s" "")%string.
    rewrite strip_suffix; [| reflexivity | discriminate].
    change (lstrip num ++ "" ++ String "s" "")%string
      with (lstrip num ++ "s")%string.
    rewrite (seconds_not_millis Hl), endswith_app.
    change 1%nat with (String.length "s").
    now rewrite drop_last_app, Hl.
  - unfold parse_time.
    destruct (float_chars Hnum) as (Hne & _ & _ & Hslash).
    destruct (String.eqb_spec num ""%string) as [E | _]; [congruence |].
    destruct (String.eqb_spec num "N/A"%string) as [E | _].
    { exfalso. apply Hslash. rewrite E. right. now left. }
    cbn [orb].
    now rewrite (accepted_no_suffix_ms Hs), (accepted_no_suffix_s Hs), Hs.
  - reflexivity.
  - reflexivity.
  - intros row u e Hrow. unfold read_row in Hrow.
    repeat match type of Hrow with
           | Py.bind ?c _ = Ok _ =>
               let E := fresh "E" in
               destruct c eqn:E; cbn [Py.bind] in Hrow; [| discriminate]
           end.
    injection Hrow as <- <-. cbn [e_lcp e_tbt e_fcp e_ttfb].
    do 4 eexists. repeat split; eassumption.
Qed.

End ParseTime.

(** ** The decimal fragment satisfies what is assumed of [float] *)

Lemma in_lstrip (x : ascii) (l : list ascii) :
  In x l -> is_space x = false -> In x (lstrip_chars l).
Proof.
  intros Hin Hx. induction l as [| c l IH]; [contradiction |].
  simpl. destruct (is_space c) eqn:Ec; [| exact Hin].
  destruct Hin as [-> | Hin]; [congruence | now apply IH].
Qed.

Lemma in_rstrip (x : ascii) (l : list ascii) :
  In x l -> is_space x = false -> In x (rstrip_chars l).
Proof.
  intros Hin Hx. induction l as [| c l IH]; [contradiction |].
  destruct Hin as [-> | Hin].
  - rewrite (rstrip_nonspace x l Hx). now left.
  - specialize (IH Hin). rewrite rstrip_cons; [now right |].
    intro E. now rewrite E in IH.
Qed.

Lemma digits_val_chars (l : list ascii) (acc z : Z) :
  digits_val acc l = Some z -> Forall decimal_char l.
Proof.
  revert acc. induction l as [| c l IH]; intros acc H; [constructor |].
  simpl in H. destruct (digit_val c) as [d |] eqn:E; [| discriminate].
  constructor; [left; congruence | eapply IH; eassumption].
Qed.

Lemma split_dot_chars (l ip : list ascii) (fp : option (list ascii)) :
  split_dot l = (ip, fp) ->
  Forall decimal_char ip ->
  Forall decimal_char (match fp with Some f => f | None => [] end) ->
  Forall decimal_char l.
Proof.
  revert ip fp. induction l as [| c l IH]; intros ip fp H Hip Hfp;
    [constructor |].
  simpl in H. destruct (Ascii.eqb_spec c "."%char) as [-> | Hc].
  - injection H as <- <-. constructor; [right; now left | exact Hfp].
  - destruct (split_dot l) as [a b] eqn:E. injection H as <- <-.
    inversion Hip; subst. constructor; [assumption |].
    now apply (IH a b).
Qed.

Lemma dec_unsigned_chars (l : list ascii) (q : Q) :
  dec_unsigned l = Some q -> Forall decimal_char l.
Proof.
  unfold dec_unsigned. destruct (split_dot l) as [ip fp] eqn:E.
  destruct (ip ++ match fp with Some f => f | None => [] end)%list;
    [discriminate |].
  destruct (digits_val 0 ip) as [i |] eqn:Ei; [| discriminate].
  destruct (digits_val 0 match fp with Some f => f | None => [] end)
    as [f |] eqn:Ef; [| discriminate].
  intros _. eapply split_dot_chars; [exact E | |];
    eapply digits_val_chars; eassumption.
Qed.

Lemma dec_float_accepts (s : string) (q : Q) :
  dec_float s = Some q ->
  Forall decimal_char (rstrip_chars (lstrip_chars (chars s))).
Proof.
  unfold dec_float. destruct (forallb plain_char (chars s)); [| discriminate].
  destruct (rstrip_chars (lstrip_chars (chars s))) as [| c l];
    [discriminate |].
  destruct (Ascii.eqb_spec c "-"%char) as [-> | Hm].
  - destruct (dec_unsigned l) as [u |] eqn:E; [| discriminate].
    intros _. constructor; [right; right; now left |].
    eapply dec_unsigned_chars; eassumption.
  - destruct (Ascii.eqb_spec c "+"%char) as [-> | Hp].
    + intros H. constructor; [right; right; now right |].
      eapply dec_unsigned_chars; eassumption.
    + intros H. eapply dec_unsigned_chars; eassumption.
Qed.

Lemma forallb_lstrip (p : ascii -> bool) (l : list ascii) :
  forallb p l = true -> forallb p (lstrip_chars l) = true.
Proof.
  induction l as [| c l IH]; simpl; [reflexivity |].
  intros H. apply andb_prop in H. destruct H as [Hc Hl].
  destruct (is_space c); [now apply IH | simpl; now rewrite Hc, Hl].
Qed.

Lemma forallb_rstrip (p : ascii -> bool) (l : list ascii) :
  forallb p l = true -> forallb p (rstrip_chars l) = true.
Proof.
  induction l as [| c l IH]; simpl; [reflexivity |].
  intros H. apply andb_prop in H. destruct H as [Hc Hl].
  specialize (IH Hl). destruct (rstrip_chars l) as [| y r].
  - destruct (is_space c); simpl; [reflexivity | now rewrite Hc].
  - change (forallb p (c :: y :: r) = true). simpl in *. now rewrite Hc.
Qed.

Lemma dec_float_blank (s : string) (q : Q) :
  dec_float s = Some q ->
  dec_float (lstrip s) = Some q /\ dec_float (strip s) = Some q.
Proof.
  unfold dec_float, lstrip, strip. rewrite !chars_str.
  destruct (forallb plain_char (chars s)) eqn:E; [| discriminate].
  rewrite (forallb_lstrip _ _ E).
  rewrite (forallb_rstrip _ _ (forallb_lstrip _ _ E)).
  rewrite lstrip_idem, strip_chars_idem. tauto.
Qed.

Lemma dec_float_chars (s : string) (q : Q) :
  dec_float s = Some q ->
  s <> ""%string
  /\ ~ In "s"%char (chars s)
  /\ ~ In "m"%char (chars s)
  /\ ~ In "/"%char (chars s).
Proof.
  intros H.
  assert (Hex : forall x, In x (chars s) -> is_space x = false ->
                          decimal_char x).
  { intros x Hin Hx. apply dec_float_accepts in H.
    rewrite Forall_forall in H. apply H.
    now apply in_rstrip; [apply in_lstrip |]. }
  split; [intros ->; discriminate |].
  repeat split; intros Hin; apply Hex in Hin; try reflexivity;
    destruct Hin as [Hd | [Hd | [Hd | Hd]]];
    solve [discriminate | now apply Hd].
Qed.

Lemma parse_time_seconds_witness :
  dec_float "1500" = Some 1500
  /\ parse_time dec_float (Some "1500ms"%string) = Ok (Some (1500 / 1000))
  /\ parse_time dec_float (Some "1500s"%string) = Ok (Some 1500)
  /\ parse_time dec_float (Some "1500"%string) = Ok (Some 1500).
Proof.
  assert (H : dec_float "1500" = Some 1500) by reflexivity.
  split; [exact H |].
  destruct (@parse_time_seconds dec_float dec_float_blank dec_float_chars
              "1500" 1500 H)
    as (Hms & Hs & Hbare & _).
  split; [exact Hms |]. split; [exact Hs | exact Hbare].
Defined.


Lemma no_suffix_s_ms (v : string) :
  endswith v "s" = false -> endswith v "ms" = false.
Proof.
  intros Hs. destruct (endswith v "ms") eqn:E; [| reflexivity].
  apply endswith_split in E. destruct E as [x ->].
  change (x ++ "ms")%string with (x ++ ("m" ++ "s"))%string in Hs.
  rewrite <- append_assoc' in Hs. now rewrite endswith_app in Hs.
Qed.

Lemma key_eqb_eq (a b : option string) : key_eqb a b = true -> a = b.
Proof.
  destruct a as [x |], b as [y |]; simpl; try discriminate; [| reflexivity].
  intros H. apply String.eqb_eq in H. now subst.
Qed.

Lemma data_get_key (k : option string) (d : Data) (e : Entry) :
  data_get k d = Some e -> In k (map fst d).
Proof.
  induction d as [| [k' e'] d IH]; simpl; [discriminate |].
  destruct (key_eqb k k') eqn:E.
  - intros _. left. symmetry. now apply key_eqb_eq.
  - intros H. right. now apply IH.
Qed.

Section Cells.

Variable float_of_str : string -> option Q.


End Cells.



(* ================================================================== *)
(** * Further properties: median and percentile *)

Lemma sorted_nth_le (l : list Q) (i j : nat) :
  StronglySorted Qle l -> (i <= j)%nat -> (j < List.length l)%nat ->
  nth i l 0 <= nth j l 0.
Proof.
  intros Hs. revert i j. induction Hs as [| x l Hs IH Hall]; intros i j Hij Hj.
  - simpl in Hj. lia.
  - destruct i as [| i], j as [| j]; simpl in *; try lia.
    + apply Qle_refl.
    + rewrite Forall_forall in Hall. apply Hall. apply nth_In. lia.
    + apply IH; lia.
Qed.

Lemma sorted_samples (xs : list (option Q)) (k : nat) :
  (k < List.length (sort Qlt_bool (available xs)))%nat ->
  In (nth k (sort Qlt_bool (available xs)) 0) (available xs).
Proof.
  intros Hk. apply (Permutation_in _ (sort_perm Qlt_bool (available xs))).
  now apply nth_In.
Qed.

Lemma half_lt (n : nat) : (0 < n)%nat -> (n / 2 < n)%nat.
Proof. intros H. apply Nat.div_lt; lia. Qed.

Lemma even_half (n : nat) :
  (0 < n)%nat -> Nat.odd n = false -> (1 <= n / 2)%nat.
Proof.
  intros Hn Ho. rewrite <- Nat.negb_even in Ho. apply negb_false_iff in Ho.
  apply Nat.even_spec in Ho. destruct Ho as [m ->].
  rewrite Nat.mul_comm, Nat.div_mul by lia. lia.
Qed.

(** X1.  The median is absent exactly when no sample is available;
    otherwise it lies between two of the samples. *)
Theorem median_between (xs : list (option Q)) :
  (median xs = Ok None <-> available xs = [])
  /\ (forall v : Q,
         median xs = Ok (Some v) ->
         exists a b : Q,
           In a (available xs) /\ In b (available xs) /\ a <= v <= b).
Proof.
  rewrite median_total. unfold spec_median.
  pose proof (sort_length Qlt_bool (available xs)) as Hlen.
  pose proof (sort_Q_sorted (available xs)) as Hs.
  pose proof (sorted_samples xs) as Hin.
  destruct (sort Qlt_bool (available xs)) as [| y ys] eqn:E.
  - destruct (available xs); [| discriminate].
    split; [tauto | discriminate].
  - remember (y :: ys) as l eqn:El.
    assert (Hn : (0 < List.length l)%nat) by (subst l; simpl; lia).
    split.
    + split.
      * destruct (Nat.odd (List.length l)); discriminate.
      * intros H. rewrite H in Hlen. simpl in Hlen. lia.
    + intros v Hv. destruct (Nat.odd (List.length l)) eqn:Ho.
      * pose proof (f_equal (fun o => match o with
                                     | Ok (Some q) => q
                                     | _ => 0
                                     end) Hv) as Ev.
        cbv beta iota in Ev. subst v. clear Hv.
        pose proof (half_lt Hn) as Hh.
        exists (nth (List.length l / 2) l 0), (nth (List.length l / 2) l 0).
        repeat split; try apply Hin; try apply Qle_refl; exact Hh.
      * pose proof (f_equal (fun o => match o with
                                     | Ok (Some q) => q
                                     | _ => 0
                                     end) Hv) as Ev.
        cbv beta iota in Ev. subst v. clear Hv.
        pose proof (half_lt Hn) as Hh.
        pose proof (even_half Hn Ho) as He.
        exists (nth (List.length l / 2 - 1) l 0), (nth (List.length l / 2) l 0).
        assert (Hab : nth (List.length l / 2 - 1) l 0
                      <= nth (List.length l / 2) l 0)
          by (apply sorted_nth_le; [exact Hs | apply Nat.le_sub_l | exact Hh]).
        split.
        { apply Hin. eapply Nat.le_lt_trans; [apply Nat.le_sub_l | exact Hh]. }
        split; [apply Hin; exact Hh |].
        revert Hab. generalize (nth (List.length l / 2 - 1) l 0).
        generalize (nth (List.length l / 2) l 0). intros b a Hab.
        split; [apply Qle_shift_div_l | apply Qle_shift_div_r]; lra.
Qed.

Lemma median_between_witness :
  median [Some 3; None; Some 1] = Ok (Some ((1 + 3) / 2))
  /\ exists a b : Q,
      In a (available [Some 3; None; Some 1])
      /\ In b (available [Some 3; None; Some 1])
      /\ a <= (1 + 3) / 2 <= b.
Proof.
  assert (H : median [Some 3; None; Some 1] = Ok (Some ((1 + 3) / 2)))
    by reflexivity.
  split; [exact H |].
  exact (proj2 (median_between [Some 3; None; Some 1]) _ H).
Defined.

Lemma int_of_float_floor (x : Q) : 0 <= x -> int_of_float x = Qfloor x.
Proof.
  destruct x as [n d]. unfold Qle, int_of_float, Qfloor. simpl. intros H.
  apply Z.quot_div_nonneg; lia.
Qed.

(** The interpolation that [percentile] performs on [n >= 2] ascending
    samples, for a rank [p] between 0 and 1: both indices are valid and
    the weight is a proper fraction. *)
Lemma percentile_step (ys : list Q) (p : Q) :
  (2 <= List.length ys)%nat -> 0 <= p <= 1 ->
  let n := Z.of_nat (List.length ys) in
  let idx := inject_Z (n - 1) * p in
  let lo := Qfloor idx in
  exists (i j : nat),
    i = Z.to_nat lo /\ (i <= j)%nat /\ (j < List.length ys)%nat
    /\ (j = i \/ j = S i)
    /\ (lo = n - 1 -> j = i)%Z
    /\ 0 <= idx - inject_Z lo < 1
    /\ (a <- index ys (int_of_float idx) ;;
        b <- index ys (Z.min (int_of_float idx + 1) (n - 1)) ;;
        a' <- index ys (int_of_float idx) ;;
        Ok (Some (a + (b - a') * (idx - inject_Z (int_of_float idx)))))
       = Ok (Some (nth i ys 0
                   + (nth j ys 0 - nth i ys 0) * (idx - inject_Z lo))).
Proof.
  intros Hn [Hp0 Hp1]. cbv zeta.
  set (n := Z.of_nat (List.length ys)).
  set (idx := inject_Z (n - 1) * p).
  assert (Hn1 : 0 <= inject_Z (n - 1)).
  { change 0 with (inject_Z 0). rewrite <- Zle_Qle. lia. }
  assert (Hidx0 : 0 <= idx) by (subst idx; now apply Qmult_le_0_compat).
  assert (Hidx1 : idx <= inject_Z (n - 1)).
  { subst idx. revert Hn1. generalize (inject_Z (n - 1)). intros k Hk. nra. }
  rewrite (int_of_float_floor Hidx0).
  pose proof (Qfloor_le idx) as Hfl. pose proof (Qlt_floor idx) as Hfu.
  assert (Hlo0 : (0 <= Qfloor idx)%Z).
  { change 0%Z with (Qfloor 0). now apply Qfloor_resp_le. }
  assert (Hlo1 : (Qfloor idx <= n - 1)%Z).
  { rewrite <- (Qfloor_Z (n - 1)). now apply Qfloor_resp_le. }
  set (lo := Qfloor idx) in *.
  exists (Z.to_nat lo), (Z.to_nat (Z.min (lo + 1) (n - 1))).
  split; [reflexivity |]. split; [lia |]. split; [lia |]. split; [lia |].
  split; [lia |]. split.
  { rewrite inject_Z_plus in Hfu. change (inject_Z 1) with 1 in Hfu.
    split; lra. }
  rewrite (index_nth ys 0) by lia. cbn [Py.bind].
  rewrite (index_nth ys 0) by lia. cbn [Py.bind]. reflexivity.
Qed.

Lemma percentile_unfold (xs : list (option Q)) (p : Q) :
  available xs <> [] ->
  let ys := sort Qlt_bool (available xs) in
  let n := Z.of_nat (List.length ys) in
  percentile xs p
  = if (n =? 1)%Z then a <- index ys 0%Z ;; Ok (Some a)
    else
      let idx := inject_Z (n - 1) * p in
      a <- index ys (int_of_float idx) ;;
      b <- index ys (Z.min (int_of_float idx + 1) (n - 1)) ;;
      a' <- index ys (int_of_float idx) ;;
      Ok (Some (a + (b - a') * (idx - inject_Z (int_of_float idx)))).
Proof.
  intros Hne. unfold percentile.
  destruct (available xs); [congruence | reflexivity].
Qed.

(** X2.  For a rank between 0 and 1 [percentile] never raises: it is
    absent without samples and otherwise lies between two of the
    samples. *)
Theorem percentile_unit (xs : list (option Q)) (p : Q) :
  0 <= p <= 1 ->
  match available xs with
  | [] => percentile xs p = Ok None
  | _ :: _ =>
      exists v a b : Q,
        percentile xs p = Ok (Some v)
        /\ In a (available xs) /\ In b (available xs) /\ a <= v <= b
  end.
Proof.
  intros Hp.
  destruct (available xs) as [| q l] eqn:E; [unfold percentile; now rewrite E |].
  assert (Hne : available xs <> []) by (rewrite E; discriminate).
  rewrite (percentile_unfold xs p Hne). cbv zeta.
  pose proof (sort_length Qlt_bool (available xs)) as Hlen.
  pose proof (sort_Q_sorted (available xs)) as Hs.
  pose proof (sorted_samples xs) as Hin.
  rewrite <- E. clear E q l.
  set (ys := sort Qlt_bool (available xs)) in *.
  assert (Hpos : (0 < List.length ys)%nat).
  { rewrite Hlen. destruct (available xs); [congruence | simpl; lia]. }
  destruct (Z.eqb_spec (Z.of_nat (List.length ys)) 1) as [H1 | H1].
  - rewrite (index_nth ys 0) by lia. cbn [Py.bind].
    exists (nth 0 ys 0), (nth 0 ys 0), (nth 0 ys 0).
    split; [reflexivity |].
    repeat split; try apply Hin; try apply Qle_refl; exact Hpos.
  - destruct (@percentile_step ys p) as (i & j & _ & Hij & Hj & _ & _ & Hf & ->);
      [lia | exact Hp |].
    pose proof (sorted_nth_le Hs Hij Hj) as Hab.
    eexists. exists (nth i ys 0), (nth j ys 0).
    split; [reflexivity |].
    split; [apply Hin; lia |]. split; [apply Hin; exact Hj |].
    revert Hab Hf. generalize (nth i ys 0) (nth j ys 0).
    generalize (inject_Z (Z.of_nat (List.length ys) - 1) * p
                - inject_Z (Qfloor (inject_Z (Z.of_nat (List.length ys) - 1) * p))).
    intros f a b Hab Hf. split; nra.
Qed.

Lemma percentile_unit_witness :
  0 <= 1 # 2 <= 1
  /\ exists v a b : Q,
      percentile [Some 4; None; Some 2] (1 # 2) = Ok (Some v)
      /\ In a (available [Some 4; None; Some 2])
      /\ In b (available [Some 4; None; Some 2])
      /\ a <= v <= b.
Proof.
  assert (H : 0 <= 1 # 2 <= 1) by (split; discriminate).
  split; [exact H |].
  exact (@percentile_unit [Some 4; None; Some 2] (1 # 2) H).
Defined.

(** X3.  With at least one sample, the percentile of rank 0 is the
    smallest sample and the percentile of rank 1 is the largest. *)
Theorem percentile_ends (xs : list (option Q)) :
  available xs <> [] ->
  exists lo hi : Q,
    In lo (available xs) /\ Forall (fun x => lo <= x) (available xs)
    /\ In hi (available xs) /\ Forall (fun x => x <= hi) (available xs)
    /\ returns (percentile xs 0) lo
    /\ returns (percentile xs 1) hi.
Proof.
  intros Hne.
  pose proof (sort_length Qlt_bool (available xs)) as Hlen.
  pose proof (sort_Q_sorted (available xs)) as Hs.
  pose proof (sorted_samples xs) as Hin.
  pose proof (sort_perm Qlt_bool (available xs)) as Hperm.
  rewrite !(fun p => percentile_unfold xs p Hne). cbv zeta.
  set (ys := sort Qlt_bool (available xs)) in *.
  assert (Hpos : (0 < List.length ys)%nat).
  { rewrite Hlen. destruct (available xs); [congruence | simpl; lia]. }
  exists (nth 0 ys 0), (nth (List.length ys - 1) ys 0).
  split; [apply Hin; lia |]. split.
  { apply (Permutation_Forall Hperm). apply Forall_forall. intros x Hx.
    destruct (In_nth _ _ 0 Hx) as (k & Hk & <-).
    apply sorted_nth_le; [exact Hs | lia | exact Hk]. }
  split; [apply Hin; lia |]. split.
  { apply (Permutation_Forall Hperm). apply Forall_forall. intros x Hx.
    destruct (In_nth _ _ 0 Hx) as (k & Hk & <-).
    apply sorted_nth_le; [exact Hs | lia | lia]. }
  unfold returns.
  destruct (Z.eqb_spec (Z.of_nat (List.length ys)) 1) as [H1 | H1].
  - rewrite (index_nth ys 0) by lia. cbn [Py.bind].
    replace (List.length ys - 1)%nat with 0%nat by lia.
    split; eexists; (split; [reflexivity | apply Qeq_refl]).
  - split.
    + destruct (@percentile_step ys 0)
        as (i & j & Hi & _ & _ & _ & _ & _ & ->); [lia | split; discriminate |].
      eexists. split; [reflexivity |].
      assert (Hfl : Qfloor (inject_Z (Z.of_nat (List.length ys) - 1) * 0) = 0%Z).
      { rewrite (Qfloor_comp _ 0); [reflexivity | ring]. }
      rewrite Hfl in *. subst i. change (Z.to_nat 0) with 0%nat.
      change (inject_Z 0) with 0. ring.
    + destruct (@percentile_step ys 1)
        as (i & j & Hi & _ & _ & _ & Hj & _ & ->); [lia | split; discriminate |].
      eexists. split; [reflexivity |].
      assert (Hfl : Qfloor (inject_Z (Z.of_nat (List.length ys) - 1) * 1)
                    = (Z.of_nat (List.length ys) - 1)%Z).
      { rewrite (Qfloor_comp _ (inject_Z (Z.of_nat (List.length ys) - 1)));
          [apply Qfloor_Z | ring]. }
      rewrite Hfl in *. rewrite (Hj eq_refl). subst i.
      replace (Z.to_nat (Z.of_nat (List.length ys) - 1))
        with (List.length ys - 1)%nat by lia.
      ring.
Qed.

Lemma percentile_ends_witness :
  available [Some 4; None; Some 2] <> []
  /\ exists lo hi : Q,
      In lo (available [Some 4; None; Some 2])
      /\ Forall (fun x => lo <= x) (available [Some 4; None; Some 2])
      /\ In hi (available [Some 4; None; Some 2])
      /\ Forall (fun x => x <= hi) (available [Some 4; None; Some 2])
      /\ returns (percentile [Some 4; None; Some 2] 0) lo
      /\ returns (percentile [Some 4; None; Some 2] 1) hi.
Proof.
  assert (H : available [Some 4; None; Some 2] <> []) by discriminate.
  split; [exact H |].
  exact (@percentile_ends [Some 4; None; Some 2] H).
Defined.

Lemma index_out {A} (xs : list A) (i : Z) :
  (Z.of_nat (List.length xs) <= i)%Z -> index xs i = Raise IndexError.
Proof.
  intros Hi. unfold index.
  destruct (Z.ltb_spec i 0) as [Hneg | _]; [lia |].
  destruct (Z.ltb_spec i 0) as [Hneg | _]; [lia |].
  destruct (nth_error xs (Z.to_nat i)) eqn:E; [| reflexivity].
  assert (Hn : nth_error xs (Z.to_nat i) <> None) by congruence.
  apply nth_error_Some in Hn. lia.
Qed.

(** X4.  [percentile] is only safe for ranks up to 1: with two or more
    samples and a rank of 2 or more the lower index falls outside the
    list and the call raises [IndexError]. *)
Theorem percentile_out_of_range (xs : list (option Q)) (p : Q) :
  (2 <= List.length (available xs))%nat -> 2 <= p ->
  percentile xs p = Raise IndexError.
Proof.
  intros Hlen Hp.
  assert (Hne : available xs <> []).
  { intros E. rewrite E in Hlen. simpl in Hlen. lia. }
  rewrite (percentile_unfold xs p Hne). cbv zeta.
  rewrite <- (sort_length Qlt_bool) in Hlen.
  set (ys := sort Qlt_bool (available xs)) in *.
  destruct (Z.eqb_spec (Z.of_nat (List.length ys)) 1) as [H1 | _]; [lia |].
  set (n := Z.of_nat (List.length ys)).
  assert (Hk : 1 <= inject_Z (n - 1)).
  { change 1 with (inject_Z 1). rewrite <- Zle_Qle. lia. }
  assert (Hn : inject_Z n == inject_Z (n - 1) + 1).
  { change 1 with (inject_Z 1). rewrite <- inject_Z_plus.
    replace (n - 1 + 1)%Z with n by lia. apply Qeq_refl. }
  assert (Hidx : inject_Z n <= inject_Z (n - 1) * p).
  { rewrite Hn. revert Hk. generalize (inject_Z (n - 1)). intros k Hk. nra. }
  assert (H0 : 0 <= inject_Z (n - 1) * p).
  { revert Hk. generalize (inject_Z (n - 1)). intros k Hk. nra. }
  rewrite index_out; [reflexivity |].
  rewrite (int_of_float_floor H0). fold n.
  apply Z.le_trans with (Qfloor (inject_Z n));
    [rewrite Qfloor_Z; lia | now apply Qfloor_resp_le].
Qed.

Lemma percentile_out_of_range_witness :
  (2 <= List.length (available [Some 1; Some 2]))%nat /\ 2 <= 2
  /\ percentile [Some 1; Some 2] 2 = Raise IndexError.
Proof.
  assert (H1 : (2 <= List.length (available [Some 1; Some 2]))%nat)
    by (simpl; lia).
  assert (H2 : 2 <= 2) by discriminate.
  split; [exact H1 |]. split; [exact H2 |].
  exact (@percentile_out_of_range [Some 1; Some 2] 2 H1 H2).
Defined.

(* ================================================================== *)
(** * Further properties: grades and issues *)

(** X5.  A larger value never gets a better grade, a metric without
    thresholds is graded N/A whatever the value, and no other label than
    GOOD, NI, POOR and N/A is ever returned. *)
Theorem grade_monotone (m : string) :
  (forall v w : Q,
      v <= w ->
      (grade_rank (grade m (Some v)) <= grade_rank (grade m (Some w)))%Z)
  /\ (thresholds_get m THRESHOLDS = None ->
      forall x : option Q, grade m x = "N/A"%string)
  /\ (forall x : option Q,
         In (grade m x) ["GOOD"; "NI"; "POOR"; "N/A"]%string).
Proof.
  unfold grade. destruct (thresholds_get m THRESHOLDS) as [[good ni] |].
  - split; [| split].
    + intros v w Hvw.
      destruct (Qle_bool_reflect v good), (Qle_bool_reflect v ni),
        (Qle_bool_reflect w good), (Qle_bool_reflect w ni);
        cbn; try lia; lra.
    + discriminate.
    + intros [x |]; [| cbn; tauto].
      destruct (Qle_bool x good), (Qle_bool x ni); cbn; tauto.
  - split; [| split].
    + intros v w _. cbn. lia.
    + intros _ [x |]; reflexivity.
    + intros [x |]; cbn; tauto.
Qed.

Lemma grade_monotone_witness :
  2000 <= 3000
  /\ (grade_rank (grade "LCP" (Some 2000%Q))
      <= grade_rank (grade "LCP" (Some 3000%Q)))%Z.
Proof.
  assert (H : 2000 <= 3000) by discriminate.
  split; [exact H |].
  exact (proj1 (grade_monotone "LCP") 2000 3000 H).
Defined.

Lemma In_when {A} (b : bool) (x y : A) : In x (when b y) -> b = true /\ x = y.
Proof. destruct b; simpl; [intros [<- | []]; auto | contradiction]. Qed.

Lemma grade_poor (m : string) (good ni : Q) (v : option Q) :
  thresholds_get m THRESHOLDS = Some (good, ni) -> good <= ni ->
  (grade m v = "POOR"%string <-> over v ni = true).
Proof.
  intros Ht Hgn. unfold grade, over. destruct v as [x |].
  - rewrite Ht, Qlt_bool_true.
    destruct (Qle_bool_reflect x good), (Qle_bool_reflect x ni);
      split; intros H; try discriminate; try reflexivity; lra.
  - split; discriminate.
Qed.

Lemma fires_collect (F : Formats) (m : Metrics) (id : string) :
  fires F m id
  <-> exists i : Issue, In i (collect_issues F m) /\ auditId i = Some id.
Proof.
  unfold fires, build_issue_list.
  split; intros (i & Hin & Hid); exists i; (split; [| exact Hid]).
  - now apply (Permutation_in i (sort_perm issue_lt (collect_issues F m))).
  - apply (Permutation_in i
             (Permutation_sym (sort_perm issue_lt (collect_issues F m)))).
    exact Hin.
Qed.

(** Which rule an issue of the collected list comes from *)
Ltac issue_cases H :=
  unfold collect_issues in H; cbn [List.concat] in H;
  repeat (apply in_app_or in H; destruct H as [H | H]);
  try (apply In_when in H; destruct H as [? ->]);
  try contradiction.

Lemma fired_metric (F : Formats) (m : Metrics) :
  (fires F m "largest-contentful-paint" <-> over (lcp m) 4000 = true)
  /\ (fires F m "server-response-time" <-> over (ttfb m) 1200 = true)
  /\ (fires F m "interaction-to-next-paint" <-> over (inp m) 500 = true)
  /\ (fires F m "cumulative-layout-shift" <-> over (cls m) (1 # 4) = true)
  /\ (fires F m "total-blocking-time" <-> over (tbt m) 600 = true)
  /\ (fires F m "first-contentful-paint" <-> over (fcp m) 3000 = true).
Proof.
  rewrite !fires_collect.
  repeat split;
    try (intros (i & Hin & Hid); issue_cases Hin;
         try (destruct (renderBlockingTop m);
              [contradiction | destruct Hin as [<- | []]]);
         first [discriminate Hid | assumption]);
    intros Ho; eexists;
    (split; [unfold collect_issues; cbn [List.concat]; rewrite Ho; cbn [when];
             repeat first [ left; reflexivity
                          | apply in_or_app; right ]
            | reflexivity]).
Qed.

(** X6.  For LCP, INP, CLS, TBT and FCP the issue of the metric is in the
    issue list exactly when the metric is graded POOR.  For TTFB the
    issue is there whenever the grade is POOR, and also for values above
    1200 that are still graded NI. *)
Theorem poor_grade_fires (F : Formats) (m : Metrics) :
  (grade "LCP" (lcp m) = "POOR"%string
   <-> fires F m "largest-contentful-paint")
  /\ (grade "INP" (inp m) = "POOR"%string
      <-> fires F m "interaction-to-next-paint")
  /\ (grade "CLS" (cls m) = "POOR"%string
      <-> fires F m "cumulative-layout-shift")
  /\ (grade "TBT" (tbt m) = "POOR"%string
      <-> fires F m "total-blocking-time")
  /\ (grade "FCP" (fcp m) = "POOR"%string
      <-> fires F m "first-contentful-paint")
  /\ (grade "TTFB" (ttfb m) = "POOR"%string
      -> fires F m "server-response-time")
  /\ (forall v : Q,
         ttfb m = Some v -> 1200 < v -> v <= 1800 ->
         fires F m "server-response-time"
         /\ grade "TTFB" (ttfb m) = "NI"%string).
Proof.
  destruct (fired_metric F m) as (Hlcp & Httfb & Hinp & Hcls & Htbt & Hfcp).
  split; [rewrite Hlcp; apply grade_poor with (good := 2500);
          [reflexivity | discriminate] |].
  split; [rewrite Hinp; apply grade_poor with (good := 200);
          [reflexivity | discriminate] |].
  split; [rewrite Hcls; apply grade_poor with (good := 1 # 10);
          [reflexivity | discriminate] |].
  split; [rewrite Htbt; apply grade_poor with (good := 200);
          [reflexivity | discriminate] |].
  split; [rewrite Hfcp; apply grade_poor with (good := 1800);
          [reflexivity | discriminate] |].
  split.
  - intros Hp. apply Httfb.
    apply (@grade_poor "TTFB" 800 1800 (ttfb m) eq_refl) in Hp;
      [| discriminate].
    unfold over in *. destruct (ttfb m) as [v |]; [| discriminate].
    apply Qlt_bool_true in Hp. apply Qlt_bool_true. lra.
  - intros v Hv Hlo Hhi. split.
    + apply Httfb. rewrite Hv. cbn. now apply Qlt_bool_true.
    + rewrite Hv. unfold grade. cbn.
      destruct (Qle_bool_reflect v 800), (Qle_bool_reflect v 1800);
        try reflexivity; lra.
Qed.

Lemma poor_grade_fires_witness :
  ttfb slow_metrics = Some 1500 /\ 1200 < 1500 /\ 1500 <= 1800
  /\ fires plain_formats slow_metrics "server-response-time"
  /\ grade "TTFB" (ttfb slow_metrics) = "NI"%string.
Proof.
  assert (H1 : ttfb slow_metrics = Some 1500) by reflexivity.
  assert (H2 : 1200 < 1500) by reflexivity.
  assert (H3 : 1500 <= 1800) by discriminate.
  split; [exact H1 |]. split; [exact H2 |]. split; [exact H3 |].
  exact (proj2 (proj2 (proj2 (proj2 (proj2 (proj2
           (poor_grade_fires plain_formats slow_metrics))))))
           1500 H1 H2 H3).
Defined.

(* ================================================================== *)
(** * Further properties: the narrow list of reasons *)

Lemma length_when {A} (b : bool) (x : A) :
  List.length (when b x) = Nat.b2n b.
Proof. now destruct b. Qed.

Lemma concat_when {A} (cands : list (bool * A)) :
  List.concat (map (fun c => when (fst c) (snd c)) cands)
  = map snd (filter fst cands).
Proof.
  induction cands as [| [b x] cands IH]; simpl; [reflexivity |].
  rewrite IH. now destruct b.
Qed.

Lemma picked_sorted {A} (R : A -> A -> Prop) (cands : list (bool * A)) :
  StronglySorted R (map snd cands) ->
  StronglySorted R (map snd (filter fst cands)).
Proof.
  induction cands as [| [b x] cands IH]; simpl; intros Hs; [constructor |].
  apply StronglySorted_inv in Hs. destruct Hs as [Hs Hall].
  destruct b; simpl; [| now apply IH].
  constructor; [now apply IH |].
  rewrite Forall_forall in *. intros y Hy. apply Hall.
  apply in_map_iff in Hy. destruct Hy as (c & <- & Hc).
  apply filter_In in Hc. now apply in_map.
Qed.

(** X7.  [build_lcp_reasons] does not sort, yet its reasons come out by
    severity, HIGH before MED before LOW; the fallback reason for a slow
    LCP without a diagnosis is only ever returned alone. *)
Theorem reasons_by_severity (F : Formats) (m : Metrics) :
  StronglySorted
    (fun a b => (level_order (r_level a) <= level_order (r_level b))%Z)
    (build_lcp_reasons F m)
  /\ Forall (fun r => r_level r = "HIGH" \/ r_level r = "MED"
                      \/ r_level r = "LOW")%string
            (build_lcp_reasons F m)
  /\ (forall r : Reason,
         In r (build_lcp_reasons F m) ->
         r_title r = "LCP 偏慢但未命中明确诊断项"%string ->
         build_lcp_reasons F m = [r]).
Proof.
  unfold build_lcp_reasons. cbv zeta.
  match goal with
  | |- context [match ?R with [] => ?fb | _ :: _ => _ end] =>
      set (reasons := R); set (fallback := fb)
  end.
  assert (Hpick : exists cands : list (bool * Reason),
             reasons = List.concat (map (fun c => when (fst c) (snd c)) cands)
             /\ StronglySorted
                  (fun a b => (level_order (r_level a)
                               <= level_order (r_level b))%Z)
                  (map snd cands)
             /\ Forall (fun r => (r_level r = "HIGH" \/ r_level r = "MED"
                                  \/ r_level r = "LOW")%string
                                 /\ r_title r
                                    <> "LCP 偏慢但未命中明确诊断项"%string)
                       (map snd cands)).
  { subst reasons. destruct (renderBlockingTop m) as [| first rest].
    - eexists [(_, _); (_, _); (_, _); (_, _); (_, _); (_, _)].
      split; [reflexivity |].
      split; repeat constructor; cbn; try lia; try tauto; discriminate.
    - eexists [(_, _); (_, _); (_, _); (true, _); (_, _); (_, _); (_, _)].
      split; [reflexivity |].
      split; repeat constructor; cbn; try lia; try tauto; discriminate. }
  destruct Hpick as (cands & Hr & Hs & Hall).
  rewrite concat_when in Hr.
  assert (Hsorted : StronglySorted
                      (fun a b => (level_order (r_level a)
                                   <= level_order (r_level b))%Z) reasons).
  { rewrite Hr. now apply picked_sorted. }
  assert (Hreasons : Forall (fun r => (r_level r = "HIGH" \/ r_level r = "MED"
                                       \/ r_level r = "LOW")%string
                                      /\ r_title r
                                         <> "LCP 偏慢但未命中明确诊断项"%string)
                            reasons).
  { rewrite Hr. apply Forall_forall. intros r Hin.
    rewrite Forall_forall in Hall. apply Hall.
    apply in_map_iff in Hin. destruct Hin as (c & <- & Hc).
    apply filter_In in Hc. now apply in_map. }
  clearbody reasons. destruct reasons as [| r0 rs].
  - subst fallback. destruct (over (lcp m) 4000); cbn [when].
    + split; [repeat constructor |].
      split; [repeat constructor; cbn; tauto |].
      intros r [<- | []] _. reflexivity.
    + split; [constructor |]. split; [constructor |]. intros r [].
  - split; [exact Hsorted |]. split.
    + eapply Forall_impl; [| exact Hreasons]. intros r [H _]. exact H.
    + intros r Hin Ht. rewrite Forall_forall in Hreasons.
      destruct (Hreasons r Hin) as [_ Hn]. contradiction.
Qed.

Lemma reasons_by_severity_witness :
  In (mkReason "MED" "LCP 偏慢但未命中明确诊断项"
        "建议结合 Performance trace 看：LCP 资源请求、CSS 阻塞、长任务、图片解码绘制阶段。")
     (build_lcp_reasons plain_formats
        (mkMetrics None (Some 5000) None None None None None VNone []
                   no_flags []))
  /\ build_lcp_reasons plain_formats
       (mkMetrics None (Some 5000) None None None None None VNone []
                  no_flags [])
     = [mkReason "MED" "LCP 偏慢但未命中明确诊断项"
          "建议结合 Performance trace 看：LCP 资源请求、CSS 阻塞、长任务、图片解码绘制阶段。"].
Proof.
  assert (H : In (mkReason "MED" "LCP 偏慢但未命中明确诊断项"
                    "建议结合 Performance trace 看：LCP 资源请求、CSS 阻塞、长任务、图片解码绘制阶段。")
                 (build_lcp_reasons plain_formats
                    (mkMetrics None (Some 5000) None None None None None
                               VNone [] no_flags [])))
    by (left; reflexivity).
  split; [exact H |].
  exact (proj2 (proj2 (reasons_by_severity plain_formats
                         (mkMetrics None (Some 5000) None None None None None
                                    VNone [] no_flags []))) _ H eq_refl).
Defined.

(** [lia] with the truth values counted as unknown numbers *)
Ltac count_lia :=
  repeat match goal with
         | H : context [Nat.b2n ?b] |- _ =>
             let k := fresh "k" in
             remember (Nat.b2n b) as k eqn:Ek; clear Ek
         | |- context [Nat.b2n ?b] =>
             let k := fresh "k" in
             remember (Nat.b2n b) as k eqn:Ek; clear Ek
         end;
  lia.

(** X8.  The narrow list never reports more than the full one: there are
    at most as many reasons as issues, so metrics without any issue have
    no reason either. *)
Theorem reasons_within_issues (F : Formats) (m : Metrics) :
  (List.length (build_lcp_reasons F m)
   <= List.length (build_issue_list F m))%nat
  /\ (build_issue_list F m = [] -> build_lcp_reasons F m = []).
Proof.
  assert (Hlen : (List.length (build_lcp_reasons F m)
                  <= List.length (build_issue_list F m))%nat).
  { unfold build_issue_list. rewrite sort_length.
    unfold build_lcp_reasons, collect_issues. cbv zeta. cbn [List.concat].
    match goal with
    | |- (List.length (match ?R with [] => _ | _ => _ end) <= _)%nat =>
        assert (HR : (List.length R
                      <= Nat.b2n (over (ttfb m) 1200)
                         + Nat.b2n (lcpLazyLoaded (flags m))
                         + Nat.b2n (needsPrioritizeLcpImage (flags m))
                         + match renderBlockingTop m with
                           | [] => 0
                           | _ :: _ => 1
                           end
                         + Nat.b2n (over (tbt m) 600)
                         + Nat.b2n (heavyBootup (flags m))
                         + Nat.b2n (lotsUnusedJs (flags m)))%nat);
        [ rewrite !length_app, !length_when;
          destruct (renderBlockingTop m); simpl; count_lia
        | destruct R as [| r0 R0] eqn:ER ]
    end.
    - rewrite !length_app, !length_when.
      assert (Hrb : renderBlockingTop m = []).
      { destruct (renderBlockingTop m); [reflexivity |].
        apply (f_equal (@List.length Reason)) in ER.
        rewrite !length_app in ER. simpl in ER. count_lia. }
      rewrite Hrb. simpl. count_lia.
    - rewrite !length_app, !length_when.
      destruct (renderBlockingTop m); simpl in *; count_lia. }
  split; [exact Hlen |].
  intros E. rewrite E in Hlen. simpl in Hlen.
  destruct (build_lcp_reasons F m); [reflexivity | simpl in Hlen; lia].
Qed.

Lemma reasons_within_issues_witness :
  build_issue_list plain_formats
    (mkMetrics None None None None None None None VNone [] no_flags []) = []
  /\ build_lcp_reasons plain_formats
       (mkMetrics None None None None None None None VNone [] no_flags [])
     = [].
Proof.
  assert (H : build_issue_list plain_formats
                (mkMetrics None None None None None None None VNone []
                           no_flags []) = []) by reflexivity.
  split; [exact H |].
  exact (proj2 (reasons_within_issues plain_formats
                  (mkMetrics None None None None None None None VNone []
                             no_flags [])) H).
Defined.

(* ================================================================== *)
(** * Further properties: the folded result *)

Lemma no_evidence (F : Formats) (m : Metrics) :
  auditEvidence m = [] ->
  Forall (fun i => evidence i = VNone) (build_issue_list F m).
Proof.
  intros He. unfold build_issue_list.
  apply (Permutation_Forall
           (Permutation_sym (sort_perm issue_lt (collect_issues F m)))).
  unfold collect_issues. cbn [List.concat].
  repeat (apply Forall_app; split);
    try (apply Forall_when; unfold add_issue; cbn; now rewrite He);
    try constructor.
  destruct (renderBlockingTop m); constructor; [| constructor].
  unfold add_issue. cbn. now rewrite He.
Qed.

Section Folded.
Variable F : Formats.
Variable tool : nat -> string -> ToolOutcome.
Variables url out_dir device : string.
Variable repeats : nat.

(** What the folded variant is made of *)
Lemma folded_shape (r : FoldedResult) :
  run_url_repeats F tool url repeats out_dir device = Ok (Folded r) ->
  exists (first : RunResult) (rest : list RunResult),
    successes (map (attempt F tool url repeats out_dir device)
                   (seq 0 repeats)) = first :: rest
    /\ lcpElement (metrics_of r) = lcpElement (run_metrics first)
    /\ renderBlockingTop (metrics_of r) = renderBlockingTop (run_metrics first)
    /\ flags (metrics_of r) = flags (run_metrics first)
    /\ auditEvidence (metrics_of r) = []
    /\ sampleLhr r = lhrPath first
    /\ issues r = build_issue_list F (metrics_of r)
    /\ lcpReasons r = build_lcp_reasons F (metrics_of r)
    /\ grades r
       = [ ("LCP", grade "LCP" (lcp (metrics_of r)));
           ("INP", grade "INP" (inp (metrics_of r)));
           ("CLS", grade "CLS" (cls (metrics_of r)));
           ("TBT", grade "TBT" (tbt (metrics_of r)));
           ("FCP", grade "FCP" (fcp (metrics_of r)));
           ("TTFB", grade "TTFB" (ttfb (metrics_of r))) ]%string.
Proof.
  unfold run_url_repeats. rewrite repeat_loop. cbn [fst snd app].
  destruct (successes _) as [| first rest]; [discriminate |].
  rewrite !median_total. unfold Py.bind. intros H.
  injection H as <-. exists first, rest. cbn.
  repeat split; reflexivity.
Qed.

End Folded.

(** X9.  In a folded result the element, the blocking resources and the
    flags are those of the first successful repeat, the sample report is
    that repeat's report, and the issues are computed from the folded
    metrics, which carry no audit evidence: no issue of a folded result
    has evidence attached. *)
Theorem folded_from_first (F : Formats) (tool : nat -> string -> ToolOutcome)
  (url out_dir device : string) (repeats : nat) (r : FoldedResult) :
  run_url_repeats F tool url repeats out_dir device = Ok (Folded r) ->
  exists (first : RunResult) (rest : list RunResult),
    successes (map (attempt F tool url repeats out_dir device)
                   (seq 0 repeats)) = first :: rest
    /\ lcpElement (metrics_of r) = lcpElement (run_metrics first)
    /\ renderBlockingTop (metrics_of r) = renderBlockingTop (run_metrics first)
    /\ flags (metrics_of r) = flags (run_metrics first)
    /\ sampleLhr r = lhrPath first
    /\ issues r = build_issue_list F (metrics_of r)
    /\ Forall (fun i => evidence i = VNone) (issues r).
Proof.
  intros H. destruct (folded_shape _ _ _ _ _ _ H)
    as (first & rest & Hs & He & Hrb & Hfl & Hev & Hlhr & Hi & _).
  exists first, rest. repeat (split; [assumption |]).
  rewrite Hi. now apply no_evidence.
Qed.

Lemma folded_from_first_witness :
  exists r : FoldedResult,
    run_url_repeats plain_formats flaky_tool "https://a.com" 3 "out" "mobile"
    = Ok (Folded r)
    /\ exists (first : RunResult) (rest : list RunResult),
        successes (map (attempt plain_formats flaky_tool "https://a.com" 3
                                "out" "mobile") (seq 0 3)) = first :: rest
        /\ lcpElement (metrics_of r) = lcpElement (run_metrics first)
        /\ renderBlockingTop (metrics_of r)
           = renderBlockingTop (run_metrics first)
        /\ flags (metrics_of r) = flags (run_metrics first)
        /\ sampleLhr r = lhrPath first
        /\ issues r = build_issue_list plain_formats (metrics_of r)
        /\ Forall (fun i => evidence i = VNone) (issues r).
Proof.
  eexists. split; [vm_compute; reflexivity |].
  apply (@folded_from_first plain_formats flaky_tool "https://a.com" "out"
           "mobile" 3).
  vm_compute. reflexivity.
Defined.

Lemma median_single (o : option Q) :
  median (map Some (available [o])) = Ok o.
Proof. destruct o; reflexivity. Qed.

(** X10.  With the default of one repeat, a successful invocation is
    reported as it is: the folded metrics are the metrics of that run,
    the error list is empty and the sample report is the path without a
    run suffix. *)
Theorem single_run (F : Formats) (tool : nat -> string -> ToolOutcome)
  (url out_dir device : string) (lhr : value) (em : Metrics) :
  tool 0%nat (lhr_path url out_dir device "") = ToolReport lhr ->
  extract_metrics lhr = Ok em ->
  exists r : FoldedResult,
    run_url_repeats F tool url 1 out_dir device = Ok (Folded r)
    /\ perfScore (metrics_of r) = perfScore em
    /\ lcp (metrics_of r) = lcp em
    /\ inp (metrics_of r) = inp em
    /\ cls (metrics_of r) = cls em
    /\ tbt (metrics_of r) = tbt em
    /\ fcp (metrics_of r) = fcp em
    /\ ttfb (metrics_of r) = ttfb em
    /\ lcpElement (metrics_of r) = lcpElement em
    /\ renderBlockingTop (metrics_of r) = renderBlockingTop em
    /\ flags (metrics_of r) = flags em
    /\ errors r = []
    /\ sampleLhr r = lhr_path url out_dir device "".
Proof.
  intros Htool Hex.
  unfold run_url_repeats. cbn [seq fold_left].
  unfold repeat_step, attempt, lighthouse_once.
  change (run_id_of 1 0) with ""%string.
  rewrite Htool, Hex. cbn [fst snd app].
  unfold collect. cbn [map run_metrics].
  rewrite !median_single. cbn [Py.bind].
  eexists. split; [reflexivity |].
  cbn [metrics_of perfScore lcp inp cls tbt fcp ttfb lcpElement
       renderBlockingTop flags errors sampleLhr lhrPath run_metrics].
  repeat split; reflexivity.
Qed.

Lemma single_run_witness :
  flaky_tool 0%nat (lhr_path "https://a.com" "out" "mobile" "")
  = ToolReport
      (VDict [("audits"%string,
               VDict [("largest-contentful-paint"%string,
                       VDict [("numericValue"%string, VInt 1000)])])])
  /\ exists r : FoldedResult,
      run_url_repeats plain_formats flaky_tool "https://a.com" 1 "out"
                      "mobile" = Ok (Folded r)
      /\ lcp (metrics_of r) = Some (inject_Z 1000)
      /\ errors r = [].
Proof.
  assert (Ht : flaky_tool 0%nat (lhr_path "https://a.com" "out" "mobile" "")
               = ToolReport
                   (VDict [("audits"%string,
                            VDict [("largest-contentful-paint"%string,
                                    VDict [("numericValue"%string,
                                            VInt 1000)])])]))
    by reflexivity.
  split; [exact Ht |].
  destruct (@single_run plain_formats flaky_tool "https://a.com" "out"
              "mobile" _ _ Ht eq_refl)
    as (r & Hr & _ & Hlcp & _ & _ & _ & _ & _ & _ & _ & _ & He & _).
  exists r. split; [exact Hr |]. split; [exact Hlcp | exact He].
Defined.

(* ================================================================== *)
(** * Further properties: the extractor *)

Lemma benign_bind {A B} (c : result A) (k : A -> result B) :
  benign c -> (forall a, benign (k a)) -> benign (Py.bind c k).
Proof. destruct c; simpl; auto. Qed.

Lemma benign_get (v : value) (k : string) : benign (get v k).
Proof. destruct v; simpl; auto. Qed.

Lemma benign_number (v : value) :
  benign (if is_number v then q <- float_of v ;; Ok (Some q) else Ok None).
Proof.
  destruct v as [| b | z | q | s | l | d]; simpl; auto.
  destruct (Z.abs z <? float_overflow)%Z; simpl; auto.
Qed.

Lemma benign_audits_of (lhr : value) : benign (audits_of lhr).
Proof.
  unfold audits_of. apply benign_bind; [apply benign_get | now intros].
Qed.

Lemma benign_audit_numeric (lhr : value) (id : string) :
  benign (audit_numeric lhr id).
Proof.
  unfold audit_numeric.
  apply benign_bind; [apply benign_audits_of | intros audits].
  apply benign_bind; [apply benign_get | intros a].
  destruct (negb (truthy a)); [exact I |].
  apply benign_bind; [apply benign_get | intros v]. apply benign_number.
Qed.

Lemma benign_audit_items (lhr : value) (id : string) :
  benign (audit_items lhr id).
Proof.
  unfold audit_items.
  apply benign_bind; [apply benign_audits_of | intros audits].
  apply benign_bind; [apply benign_get | intros a0].
  apply benign_bind; [apply benign_get | intros d0].
  apply benign_bind; [apply benign_get | intros i0].
  now destruct (or_else i0 (VList [])).
Qed.

Lemma benign_audit_obj (lhr : value) (id : string) :
  benign (audit_obj lhr id).
Proof.
  unfold audit_obj.
  apply benign_bind; [apply benign_audits_of | intros audits].
  apply benign_bind; [apply benign_get | now intros].
Qed.

Lemma benign_details_get (a : value) (k : string) :
  benign (details_get a k).
Proof.
  unfold details_get. apply benign_bind; [apply benign_get | intros d].
  apply benign_get.
Qed.

Lemma benign_rb_top_of (items : list value) : benign (rb_top_of items).
Proof.
  induction items as [| it rest IH]; simpl; [exact I |].
  destruct (negb (is_dict it)); [exact IH |].
  repeat (apply benign_bind; [apply benign_get | intros ?]).
  apply benign_bind; [exact IH | now intros].
Qed.

Lemma rb_top_of_length (items : list value) (l : list Blocking) :
  rb_top_of items = Ok l -> (List.length l <= List.length items)%nat.
Proof.
  revert l. induction items as [| it rest IH]; simpl; intros l H.
  - injection H as <-. simpl. lia.
  - destruct (negb (is_dict it)).
    + specialize (IH l H). lia.
    + repeat match type of H with
             | Py.bind ?c _ = Ok _ =>
                 let E := fresh "E" in
                 destruct c eqn:E; cbn [Py.bind] in H; [| discriminate]
             end.
      injection H as <-. simpl. specialize (IH _ eq_refl). lia.
Qed.

(** Steps of the extractor that cannot fail outside the two classes *)
Ltac benign_step :=
  first [ apply benign_audit_numeric | apply benign_audit_items
        | apply benign_audit_obj | apply benign_details_get
        | apply benign_rb_top_of | apply benign_get | apply benign_number ].

(** X11.  Whatever the report, the extractor fails only with
    [AttributeError] (a method called on an object that is not a dict) or
    [OverflowError] (an integer beyond the floats); and when it succeeds
    it keeps at most ten blocking resources. *)
Theorem extract_failures (lhr : value) :
  benign (extract_metrics lhr)
  /\ (forall m : Metrics,
         extract_metrics lhr = Ok m ->
         (List.length (renderBlockingTop m) <= 10)%nat).
Proof.
  split.
  - unfold extract_metrics.
    repeat (apply benign_bind; [benign_step | intros ?]).
    apply benign_bind.
    { match goal with
      | |- benign (match ?o with None => _ | Some _ => _ end) =>
          destruct o; [exact I | benign_step]
      end. }
    intros ?.
    repeat (apply benign_bind; [benign_step | intros ?]).
    apply benign_bind.
    { match goal with
      | |- benign (if is_dict ?e then _ else _) => destruct (is_dict e)
      end; [| exact I].
      repeat (apply benign_bind; [benign_step | intros ?]).
      apply benign_bind; [| now intros].
      match goal with
      | |- benign (if truthy ?u then _ else _) => destruct (truthy u)
      end; [exact I |].
      apply benign_bind; [benign_step | intros u2].
      destruct (truthy u2); [exact I | benign_step]. }
    intros ?.
    repeat (apply benign_bind; [benign_step | intros ?]).
    exact I.
  - intros m H. unfold extract_metrics in H.
    repeat match type of H with
           | Py.bind ?c _ = Ok _ =>
               let E := fresh "E" in
               destruct c eqn:E; cbn [Py.bind] in H; [| discriminate]
           end.
    injection H as <-. cbn [renderBlockingTop].
    match goal with
    | E : rb_top_of (firstn 10 ?items) = Ok ?l |- _ =>
        apply rb_top_of_length in E;
        pose proof (firstn_le_length 10 items)
    end.
    lia.
Qed.

Lemma extract_failures_witness :
  extract_metrics (VDict []) = Ok
    (mkMetrics None None None None None None None VNone []
       no_flags
       [ ("bootup-time"%string, VDict [("numericValue"%string, VNone)]);
         ("long-tasks"%string, VDict [("items"%string, VNone)]);
         ("mainthread-work-breakdown"%string,
          VDict [("numericValue"%string, VNone)]);
         ("unused-javascript"%string,
          VDict [("overallSavingsMs"%string, VNone)]);
         ("render-blocking-resources"%string,
          VDict [("items"%string, VList [])]);
         ("diagnostics"%string, VDict [("details"%string, VNone)]);
         ("third-party-summary"%string, VDict [("items"%string, VNone)]) ])
  /\ (List.length (@nil Blocking) <= 10)%nat.
Proof.
  assert (H : extract_metrics (VDict []) = Ok
    (mkMetrics None None None None None None None VNone []
       no_flags
       [ ("bootup-time"%string, VDict [("numericValue"%string, VNone)]);
         ("long-tasks"%string, VDict [("items"%string, VNone)]);
         ("mainthread-work-breakdown"%string,
          VDict [("numericValue"%string, VNone)]);
         ("unused-javascript"%string,
          VDict [("overallSavingsMs"%string, VNone)]);
         ("render-blocking-resources"%string,
          VDict [("items"%string, VList [])]);
         ("diagnostics"%string, VDict [("details"%string, VNone)]);
         ("third-party-summary"%string, VDict [("items"%string, VNone)]) ]))
    by reflexivity.
  split; [exact H |].
  exact (proj2 (extract_failures (VDict [])) _ H).
Defined.

(** X12.  A report in which the audits and the categories are missing
    (or empty) is not an error: every metric is absent, no flag is set,
    nothing blocks, and the rules report no issue and no reason. *)
Theorem bare_report (F : Formats) (lhr : value) :
  is_dict lhr = true ->
  truthy (field lhr "audits") = false ->
  truthy (field lhr "categories") = false ->
  exists m : Metrics,
    extract_metrics lhr = Ok m
    /\ perfScore m = None /\ lcp m = None /\ inp m = None /\ cls m = None
    /\ tbt m = None /\ fcp m = None /\ ttfb m = None
    /\ lcpElement m = VNone /\ renderBlockingTop m = []
    /\ flags m = no_flags
    /\ build_issue_list F m = [] /\ build_lcp_reasons F m = [].
Proof.
  intros Hd Ha Hc.
  assert (Haud : audits_of lhr = Ok (VDict [])).
  { unfold audits_of. rewrite (get_dict lhr "audits" Hd). cbn [Py.bind].
    unfold or_else. now rewrite Ha. }
  unfold extract_metrics, audit_numeric, audit_items, audit_obj.
  rewrite !Haud. rewrite (get_dict lhr "categories" Hd).
  cbn [Py.bind]. unfold or_else at 1. rewrite Hc.
  eexists. split; [reflexivity |]. cbn.
  repeat split; reflexivity.
Qed.

Lemma bare_report_witness :
  is_dict (VDict [("audits"%string, VNone)]) = true
  /\ exists m : Metrics,
      extract_metrics (VDict [("audits"%string, VNone)]) = Ok m
      /\ lcp m = None /\ flags m = no_flags
      /\ build_issue_list plain_formats m = [].
Proof.
  split; [reflexivity |].
  destruct (@bare_report plain_formats (VDict [("audits"%string, VNone)])
              eq_refl eq_refl eq_refl)
    as (m & Hm & _ & Hlcp & _ & _ & _ & _ & _ & _ & _ & Hfl & Hi & _).
  exists m. repeat (split; [assumption |]). exact Hi.
Defined.

(* ================================================================== *)
(** * Further properties: file names and report paths *)

Lemma collapse_no_sep (b : bool) (l : list ascii) :
  Forall (fun c => is_sep c = false) (collapse_seps b l).
Proof.
  revert b. induction l as [| c l IH]; intros b; simpl; [constructor |].
  destruct (is_sep c) eqn:E.
  - destruct b; [apply IH | constructor; [reflexivity | apply IH]].
  - constructor; [exact E | apply IH].
Qed.

Lemma Forall_firstn {A} (P : A -> Prop) (n : nat) (l : list A) :
  Forall P l -> Forall P (firstn n l).
Proof.
  intros H. rewrite Forall_forall in *. intros x Hx. apply H.
  rewrite <- (firstn_skipn n l). apply in_or_app. now left.
Qed.

Lemma str_take_length (n : nat) (s : string) :
  (String.length (str_take n s) <= n)%nat.
Proof.
  unfold str_take. rewrite <- chars_length, chars_str, length_firstn. lia.
Qed.

Lemma sanitized_url_chars (url : string) :
  Forall (fun c => is_sep c = false)
         (chars (str_take 150
                   (str (collapse_seps false (chars (strip_scheme url)))))).
Proof.
  unfold str_take. rewrite !chars_str. apply Forall_firstn.
  apply collapse_no_sep.
Qed.

(** X13.  The URL part of a file name has none of the separators
    [/ : ? & = #] and at most 150 characters; with a suffix the name has
    at most 182 characters. *)
Theorem sanitize_bounds (url suffix : string) :
  Forall (fun c => is_sep c = false) (chars (sanitize_filename url ""))
  /\ (String.length (sanitize_filename url "") <= 150)%nat
  /\ (String.length (sanitize_filename url suffix) <= 182)%nat.
Proof.
  unfold sanitize_filename. cbn [String.eqb negb].
  split; [apply sanitized_url_chars |].
  split; [apply str_take_length |].
  pose proof (str_take_length 150
                (str (collapse_seps false (chars (strip_scheme url))))) as H1.
  pose proof (str_take_length 30 suffix) as H2.
  destruct (negb (String.eqb suffix "")); [| lia].
  rewrite !append_length. simpl String.length. lia.
Qed.

Lemma startswith_slash (f : string) :
  (forall c r, chars f = c :: r -> c <> "/"%char) ->
  startswith f "/" = false.
Proof.
  intros H. destruct f as [| c r]; [reflexivity |].
  unfold startswith. cbn [String.prefix].
  destruct (ascii_dec "/" c) as [E | _]; [| reflexivity].
  exfalso. apply (H c (chars r)); [reflexivity | congruence].
Qed.

Lemma head_app {A} (P : A -> Prop) (l1 l2 : list A) (c : A) (r : list A) :
  Forall P l1 -> (forall x t, l2 = x :: t -> P x) ->
  (l1 ++ l2)%list = c :: r -> P c.
Proof.
  intros H1 H2 E. destruct l1 as [| y l1]; simpl in E.
  - now apply (H2 c r).
  - injection E as <- _. now inversion H1.
Qed.

Lemma filename_not_absolute (url uid : string) :
  startswith (sanitize_filename url uid ++ ".lhr.json") "/" = false.
Proof.
  apply startswith_slash. intros c r E.
  assert (Hs : Forall (fun c => c <> "/"%char)
                 (chars (str_take 150
                           (str (collapse_seps false
                                   (chars (strip_scheme url))))))).
  { eapply Forall_impl; [| apply sanitized_url_chars].
    intros a Ha ->. discriminate Ha. }
  unfold sanitize_filename in E.
  destruct (negb (String.eqb uid "")); rewrite !chars_app in E.
  - rewrite <- app_assoc in E.
    refine (head_app (P := fun c => c <> "/"%char) Hs _ E).
    intros x t Hx. simpl in Hx. injection Hx as <- _. discriminate.
  - refine (head_app (P := fun c => c <> "/"%char) Hs _ E).
    intros x t Hx. simpl in Hx. injection Hx as <- _. discriminate.
Qed.

Lemma startswith_app (p t : string) : startswith (p ++ t) p = true.
Proof.
  unfold startswith. induction p as [| c p IH]; cbn [String.prefix append].
  - now destruct t.
  - destruct (ascii_dec c c) as [_ | N]; [exact IH | now elim N].
Qed.

(** X14.  The report is always written under the output directory: the
    path is the directory, a slash unless the directory is empty or ends
    in one, and the file name; a URL cannot make the path absolute or
    leave the directory, since the URL part of the name has no slash. *)
Theorem lhr_path_under_out_dir (url out_dir device run_id : string) :
  lhr_path url out_dir device run_id
  = (out_dir
     ++ (if String.eqb out_dir "" || endswith out_dir "/" then "" else "/")
     ++ sanitize_filename url (unique_id device run_id) ++ ".lhr.json")%string
  /\ startswith (lhr_path url out_dir device run_id) out_dir = true
  /\ Forall (fun c => c <> "/"%char) (chars (sanitize_filename url "")).
Proof.
  assert (E : lhr_path url out_dir device run_id
              = (out_dir
                 ++ (if String.eqb out_dir "" || endswith out_dir "/"
                     then "" else "/")
                 ++ sanitize_filename url (unique_id device run_id)
                 ++ ".lhr.json")%string).
  { unfold lhr_path, path_join. rewrite filename_not_absolute.
    now destruct (String.eqb out_dir "" || endswith out_dir "/"). }
  split; [exact E |]. split.
  - rewrite E. apply startswith_app.
  - eapply Forall_impl; [| apply (sanitized_url_chars url)].
    intros a Ha ->. discriminate Ha.
Qed.

(* ================================================================== *)
(** * Further properties: the summary of a batch *)

Lemma percentile_defined (xs : list (option Q)) (p : Q) :
  available xs <> [] -> 0 <= p <= 1 ->
  exists v : Q, percentile xs p = Ok (Some v).
Proof.
  intros Hne Hp.
  rewrite (percentile_unfold xs p Hne). cbv zeta.
  pose proof (sort_length Qlt_bool (available xs)) as Hlen.
  set (ys := sort Qlt_bool (available xs)) in *.
  assert (Hpos : (0 < List.length ys)%nat).
  { rewrite Hlen. destruct (available xs); [congruence | simpl; lia]. }
  destruct (Z.eqb_spec (Z.of_nat (List.length ys)) 1) as [H1 | H1].
  - rewrite (index_nth ys 0) by lia. cbn [Py.bind]. eexists. reflexivity.
  - destruct (@percentile_step ys p) as (i & j & _ & _ & _ & _ & _ & _ & ->);
      [lia | exact Hp |].
    eexists. reflexivity.
Qed.

Lemma stats_ok (ok : list UrlResult) (keys : list string) :
  exists st : list (string * Q) * list (string * option Q),
    summarize_stats ok keys = Ok st
    /\ map fst (fst st)
       = filter (fun k => match collect_ok ok k with
                          | [] => false
                          | _ :: _ => true
                          end) keys
    /\ map fst (snd st) = map fst (fst st)
    /\ Forall (fun kp => exists v : Q, snd kp = Some v) (snd st).
Proof.
  induction keys as [| k ks IH].
  - exists ([], []). simpl. repeat split; constructor.
  - destruct IH as (st & E & Hk & Hp & Hv).
    cbn [summarize_stats filter].
    destruct (collect_ok ok k) as [| q l] eqn:Ec.
    + exists st. auto.
    + assert (Hne : q :: l <> []) by discriminate.
      pose proof (average_ok Hne) as Ha. unfold average in Ha.
      rewrite Ha. cbn [Py.bind].
      assert (Hav : available (map Some (q :: l)) = q :: l).
      { clear. generalize (q :: l). intros xs.
        induction xs as [| x xs IHx]; [reflexivity |].
        simpl. unfold available in *. simpl. now rewrite IHx. }
      destruct (@percentile_defined (map Some (q :: l)) (3 # 4)) as (v & Ev).
      { rewrite Hav. discriminate. }
      { split; discriminate. }
      unfold p75. rewrite Ev, E. cbn [Py.bind].
      eexists. split; [reflexivity |]. cbn [fst snd map].
      split; [now rewrite Hk |]. split; [now rewrite Hp |].
      constructor; [now exists v | exact Hv].
Qed.

Lemma collect_ok_sample (ok : list UrlResult) (k : string) (v : Q) :
  In v (collect_ok ok k) <-> exists r, In r ok /\ metric_value r k = Some v.
Proof.
  unfold collect_ok, available.
  induction ok as [| r ok IH]; simpl.
  - split; [tauto | now intros (r & [] & _)].
  - destruct (metric_value r k) as [w |] eqn:E; simpl.
    + rewrite IH. split.
      * intros [<- | (r' & Hr & Hv)]; [exists r; auto | exists r'; auto].
      * intros (r' & [<- | Hr] & Hv);
          [left; congruence | right; exists r'; auto].
    + rewrite IH. split.
      * intros (r' & Hr & Hv). exists r'; auto.
      * intros (r' & [<- | Hr] & Hv); [congruence | exists r'; auto].
Qed.

(** X15.  The summary of a batch is always produced.  Successes and
    failures add up to the number of results; the averages and the
    75th percentiles are reported for the same metrics, those with a
    value in a result without an error, in the order lcp, inp, cls, tbt,
    fcp, ttfb, perfScore, and each reported percentile is present. *)
Theorem summarize_total (results : list UrlResult) :
  exists s : Summary,
    summarize results = Ok s
    /\ s_count s = List.length results
    /\ s_success s = List.length (filter is_ok results)
    /\ (s_success s + s_failed s = s_count s)%nat
    /\ map fst (s_p75 s) = map fst (s_avg s)
    /\ map fst (s_avg s)
       = filter (sampled results)
           ["lcp"; "inp"; "cls"; "tbt"; "fcp"; "ttfb"; "perfScore"]
    /\ Forall (fun kp => exists v : Q, snd kp = Some v) (s_p75 s).
Proof.
  unfold summarize.
  destruct (stats_ok (filter is_ok results)
              ["lcp"; "inp"; "cls"; "tbt"; "fcp"; "ttfb"; "perfScore"])
    as (st & E & Hk & Hp & Hv).
  rewrite E. cbn [Py.bind]. eexists. split; [reflexivity |].
  cbn [s_count s_success s_failed s_avg s_p75].
  split; [reflexivity |]. split; [reflexivity |].
  split.
  { pose proof (filter_length_le is_ok results). lia. }
  split; [exact Hp |].
  split; [| exact Hv].
  rewrite Hk. apply filter_ext. intros k. unfold sampled.
  destruct (collect_ok (filter is_ok results) k) as [| q l] eqn:Ec.
  - symmetry. apply not_true_is_false. intros H.
    apply existsb_exists in H. destruct H as (r & Hr & H).
    apply andb_prop in H. destruct H as [Hok Hm].
    destruct (metric_value r k) as [v |] eqn:Em; [| discriminate].
    assert (Hq : In v (collect_ok (filter is_ok results) k)).
    { apply collect_ok_sample. exists r. split; [| exact Em].
      apply filter_In. auto. }
    rewrite Ec in Hq. destruct Hq.
  - symmetry. apply existsb_exists.
    assert (Hq : In q (collect_ok (filter is_ok results) k))
      by (rewrite Ec; now left).
    apply collect_ok_sample in Hq. destruct Hq as (r & Hr & Hq).
    apply filter_In in Hr. exists r. split; [tauto |].
    rewrite Hq. now destruct Hr as [_ ->].
Qed.

Lemma sorted_firstn {A} (R : A -> A -> Prop) (n : nat) (l : list A) :
  StronglySorted R l -> StronglySorted R (firstn n l).
Proof.
  intros H. revert n. induction H as [| x l Hs IH Hx]; intros n.
  - destruct n; constructor.
  - destruct n; cbn [firstn]; constructor; [apply IH |].
    now apply Forall_firstn.
Qed.

Lemma sorted_split {A} (R : A -> A -> Prop) (l1 l2 : list A) :
  StronglySorted R (l1 ++ l2) ->
  forall x y, In x l1 -> In y l2 -> R x y.
Proof.
  induction l1 as [| a l1 IH]; intros H x y Hx Hy; [destruct Hx |].
  cbn [app] in H. inversion H as [| ? ? Hs Ha]; subst.
  destruct Hx as [<- | Hx].
  - rewrite Forall_forall in Ha. apply Ha, in_or_app. now right.
  - now apply IH.
Qed.

Lemma sorted_weaken {A} (R S : A -> A -> Prop) (l : list A) :
  (forall a b, R a b -> S a b) ->
  StronglySorted R l -> StronglySorted S l.
Proof.
  intros HRS H. induction H as [| x l _ IH Hx]; constructor; [exact IH |].
  eapply Forall_impl; [| exact Hx]. intros b. apply HRS.
Qed.

(** X16.  A worst list of the summary holds at most [n] rows (five in
    the summary), in descending order of the value; every row is the URL
    and the value of a result without an error, and a result that is
    left out has a value no larger than each listed one. *)
Theorem worst_lists (results : list UrlResult) (k : string) (n : nat) :
  (List.length (top_worst (filter is_ok results) k n) <= n)%nat
  /\ StronglySorted (fun x y => snd y <= snd x)
       (top_worst (filter is_ok results) k n)
  /\ (forall (u : string) (v : Q),
         In (u, v) (top_worst (filter is_ok results) k n) ->
         exists r : UrlResult,
           In r results /\ is_ok r = true
           /\ result_url r = u /\ metric_value r k = Some v)
  /\ (forall (r : UrlResult) (v : Q),
         In r results -> is_ok r = true -> metric_value r k = Some v ->
         In (result_url r, v) (top_worst (filter is_ok results) k n)
         \/ (List.length (top_worst (filter is_ok results) k n) = n
             /\ Forall (fun x => v <= snd x)
                  (top_worst (filter is_ok results) k n)))
  /\ (exists s : Summary,
         summarize results = Ok s
         /\ s_worst s
            = map (fun m => (m, top_worst (filter is_ok results) m 5))
                  ["lcp"; "ttfb"; "fcp"; "tbt"; "cls"; "inp"]).
Proof.
  unfold top_worst.
  set (rows := flat_map (fun r => match metric_value r k with
                                  | Some v => [(result_url r, v)]
                                  | None => []
                                  end) (filter is_ok results)).
  assert (Hin : forall u v,
             In (u, v) rows
             <-> exists r, In r results /\ is_ok r = true
                           /\ result_url r = u /\ metric_value r k = Some v).
  { intros u v. unfold rows. rewrite in_flat_map. split.
    - intros (r & Hr & H). apply filter_In in Hr.
      destruct (metric_value r k) as [w |] eqn:Em; [| destruct H].
      destruct H as [H | []]. injection H as <- <-. exists r. tauto.
    - intros (r & Hr & Hok & <- & Hv). exists r.
      split; [apply filter_In; auto |]. rewrite Hv. now left. }
  assert (Hs : StronglySorted (fun x y => snd y <= snd x)
                 (sort worst_lt rows)).
  { apply sorted_weaken with (R := fun a b => worst_lt b a = false).
    - intros a b H. unfold worst_lt in H. now apply Qlt_bool_false in H.
    - apply sort_sorted; unfold worst_lt.
      + intros a b Hab. apply Qlt_bool_true in Hab. apply Qlt_bool_false.
        lra.
      + intros a b c H1 H2. apply Qlt_bool_false in H1, H2.
        apply Qlt_bool_false. lra. }
  split; [apply firstn_le_length |].
  split; [now apply sorted_firstn |].
  split.
  { intros u v H. apply Hin.
    apply (Permutation_in _ (sort_perm worst_lt rows)).
    rewrite <- (firstn_skipn n (sort worst_lt rows)).
    apply in_or_app. now left. }
  split.
  { intros r v Hr Hok Hv.
    assert (H : In (result_url r, v) (sort worst_lt rows)).
    { apply (Permutation_in _ (Permutation_sym (sort_perm worst_lt rows))).
      apply Hin. exists r. auto. }
    rewrite <- (firstn_skipn n (sort worst_lt rows)) in H, Hs.
    apply in_app_or in H. destruct H as [H | H]; [now left | right].
    split.
    - apply firstn_length_le.
      destruct (Nat.le_gt_cases n (List.length (sort worst_lt rows)))
        as [L | L]; [exact L |].
      rewrite skipn_all2 in H by lia. destruct H.
    - apply Forall_forall. intros x Hx.
      apply (sorted_split _ _ Hs x (result_url r, v) Hx H). }
  unfold summarize.
  destruct (stats_ok (filter is_ok results)
              ["lcp"; "inp"; "cls"; "tbt"; "fcp"; "ttfb"; "perfScore"])
    as (st & E & _).
  rewrite E. cbn [Py.bind]. eexists. split; reflexivity.
Qed.

Lemma worst_lists_witness :
  In slow_result sample_results
  /\ is_ok slow_result = true
  /\ metric_value slow_result "ttfb" = Some 1500
  /\ (In (result_url slow_result, 1500)
         (top_worst (filter is_ok sample_results) "ttfb" 1)
      \/ (List.length (top_worst (filter is_ok sample_results) "ttfb" 1)
          = 1%nat
          /\ Forall (fun x => 1500 <= snd x)
               (top_worst (filter is_ok sample_results) "ttfb" 1))).
Proof.
  assert (H1 : In slow_result sample_results) by (right; now left).
  assert (H2 : is_ok slow_result = true) by reflexivity.
  assert (H3 : metric_value slow_result "ttfb" = Some 1500) by reflexivity.
  repeat (split; [assumption |]).
  exact (proj1 (proj2 (proj2 (proj2 (worst_lists sample_results "ttfb" 1))))
           slow_result 1500 H1 H2 H3).
Defined.

(* ================================================================== *)
(** * Further properties: the list of URLs *)

Lemma lstrip_blank (l : list ascii) :
  forallb is_space l = true -> lstrip_chars l = [].
Proof.
  induction l as [| c l IH]; [reflexivity |]. simpl.
  intros H. apply andb_prop in H. destruct H as [-> H]. now apply IH.
Qed.

(** X17.  Read from a file, the URLs are the stripped lines that are
    neither empty nor comments, in the order of the file: no URL is
    empty, starts with [#] or has a blank at either end, every such line
    is kept, and nothing else is returned. *)
Theorem read_urls_file (urls_file single_url : option string)
  (lines : list string) :
  no_text single_url = true -> no_text urls_file = false ->
  exists urls : list string,
    read_urls urls_file single_url lines = Ok urls
    /\ Forall (fun u => u <> "" /\ startswith u "#" = false /\ strip u = u)
         urls
    /\ (forall l : string,
           In l lines -> strip l <> "" -> startswith (strip l) "#" = false ->
           In (strip l) urls)
    /\ (forall u : string, In u urls -> exists l, In l lines /\ u = strip l)
    /\ (List.length urls <= List.length lines)%nat.
Proof.
  intros Hs Hf.
  exists (filter is_url_line (map strip lines)).
  split.
  { unfold read_urls. destruct single_url as [u |]; simpl in Hs.
    - rewrite Hs. cbn [negb]. now rewrite Hf.
    - now rewrite Hf. }
  split.
  { apply Forall_forall. intros u Hu. apply filter_In in Hu.
    destruct Hu as [Hu Hk]. unfold is_url_line in Hk.
    apply andb_prop in Hk. destruct Hk as [H1 H2].
    apply negb_true_iff in H1, H2. apply String.eqb_neq in H1.
    apply in_map_iff in Hu. destruct Hu as (l & <- & _).
    split; [exact H1 |]. split; [exact H2 | apply strip_idem]. }
  split.
  { intros l Hl H1 H2. apply filter_In. split; [now apply in_map |].
    unfold is_url_line. rewrite H2. apply String.eqb_neq in H1.
    now rewrite H1. }
  split.
  { intros u Hu. apply filter_In in Hu. destruct Hu as [Hu _].
    apply in_map_iff in Hu. destruct Hu as (l & <- & Hl). now exists l. }
  eapply Nat.le_trans; [apply filter_length_le |]. now rewrite length_map.
Qed.

Lemma read_urls_file_witness :
  exists urls : list string,
    read_urls (Some "urls.txt") None
      ["# pages"; "  https://a.example/ "; ""; " #skip"; "https://b.example/"]
    = Ok urls
    /\ urls = ["https://a.example/"; "https://b.example/"].
Proof.
  destruct (@read_urls_file (Some "urls.txt") None
              ["# pages"; "  https://a.example/ "; ""; " #skip";
               "https://b.example/"] eq_refl eq_refl)
    as (urls & E & _).
  exists urls. split; [exact E |].
  vm_compute in E. now injection E as <-.
Defined.

(** X18.  Without a file and without a URL the call fails with
    [ValueError].  A non-empty URL argument wins over the file and gives
    exactly one URL, the stripped argument; an argument of blanks only
    gives the empty URL. *)
Theorem read_urls_single (urls_file : option string) (lines : list string) :
  (forall single_url : option string,
      no_text single_url = true -> no_text urls_file = true ->
      read_urls urls_file single_url lines = Raise ValueError)
  /\ (forall u : string,
         u <> "" ->
         read_urls urls_file (Some u) lines = Ok [strip u]
         /\ (forallb is_space (chars u) = true ->
             read_urls urls_file (Some u) lines = Ok [""])).
Proof.
  split.
  - intros single_url Hs Hf. unfold read_urls.
    destruct single_url as [u |]; simpl in Hs.
    + rewrite Hs. cbn [negb]. now rewrite Hf.
    + now rewrite Hf.
  - intros u Hu. apply String.eqb_neq in Hu.
    assert (E : read_urls urls_file (Some u) lines = Ok [strip u]).
    { unfold read_urls. now rewrite Hu. }
    split; [exact E |]. intros Hb. rewrite E. do 2 f_equal.
    apply chars_inj. rewrite strip_chars, (lstrip_blank _ Hb). reflexivity.
Qed.

Lemma read_urls_single_witness :
  read_urls (Some "urls.txt") (Some "  ") ["https://a.example/"] = Ok [""].
Proof.
  assert (H : "  " <> "") by discriminate.
  exact (proj2 (proj2 (@read_urls_single (Some "urls.txt")
                         ["https://a.example/"]) "  " H) eq_refl).
Defined.

(* ================================================================== *)
(** * Further properties: reading the two reports *)

Section Reading.

Variable float_of_str : string -> option Q.

Lemma cell_raise (row : Row) (col : string) (e : exn) :
  cell row col = Raise e -> e = KeyError /\ row_assoc col row = None.
Proof.
  unfold cell. destruct (row_assoc col row); [discriminate |].
  intros H. injection H as <-. auto.
Qed.

Lemma cell_ok (row : Row) (col : string) (c : option string) :
  cell row col = Ok c -> row_assoc col row = Some c.
Proof.
  unfold cell. destruct (row_assoc col row); [| discriminate].
  intros H. now injection H as <-.
Qed.

Lemma parse_score_raise (c : option string) (e : exn) :
  parse_score float_of_str c = Raise e -> e = TypeError /\ c = None.
Proof.
  unfold parse_score. destruct c as [v |].
  - destruct (float_of_str v); discriminate.
  - intros H. injection H as <-. auto.
Qed.

Lemma parse_time_raise (c : option string) (e : exn) :
  parse_time float_of_str c = Raise e ->
  e = ValueError /\ exists v, c = Some v /\ endswith (strip v) "s" = true.
Proof.
  unfold parse_time. destruct c as [v |]; [| discriminate].
  destruct (String.eqb v "" || String.eqb v "N/A"); [discriminate |].
  destruct (endswith (strip v) "s") eqn:Es.
  - destruct (endswith (strip v) "ms").
    + destruct (float_of_str _); [discriminate |].
      intros H. injection H as <-. split; [reflexivity |]. now exists v.
    + destruct (float_of_str _); [discriminate |].
      intros H. injection H as <-. split; [reflexivity |]. now exists v.
  - rewrite (no_suffix_s_ms _ Es).
    destruct (float_of_str (strip v)); discriminate.
Qed.

Lemma read_row_fault (row : Row) (e : exn) :
  read_row float_of_str row = Raise e -> row_fault row e.
Proof.
  unfold read_row. intros H.
  repeat match type of H with
         | Py.bind ?c _ = Raise _ =>
             let E := fresh "E" in
             destruct c eqn:E; cbn [Py.bind] in H;
             [| injection H as H; subst;
                first
                  [ apply cell_raise in E; destruct E as [-> E];
                    eexists; split; [| exact E]; simpl; tauto
                  | apply parse_score_raise in E; destruct E as [-> ->];
                    match goal with
                    | C : cell _ _ = Ok None |- _ =>
                        apply cell_ok in C; eexists; split; [| exact C];
                        simpl; tauto
                    end
                  | apply parse_time_raise in E;
                    destruct E as (-> & v & -> & Hs);
                    match goal with
                    | C : cell _ _ = Ok (Some v) |- _ =>
                        apply cell_ok in C; eexists; exists v;
                        split; [| split; [exact C | exact Hs]];
                        simpl; tauto
                    end ] ]
         end.
  discriminate.
Qed.

Lemma read_rows_ok (rows : list Row) (d0 d : Data) :
  read_rows float_of_str rows d0 = Ok d ->
  exists es : list (option string * Entry),
    Forall2 (fun row e => read_row float_of_str row = Ok e) rows es
    /\ d = fold_left (fun acc e => data_set (fst e) (snd e) acc) es d0.
Proof.
  revert d0. induction rows as [| row rows IH]; intros d0 H.
  - injection H as <-. exists []. split; [constructor | reflexivity].
  - cbn [read_rows] in H.
    destruct (read_row float_of_str row) as [e | x] eqn:E;
      cbn [Py.bind] in H; [| discriminate].
    destruct (IH _ H) as (es & Hes & ->).
    exists (e :: es). split; [now constructor | reflexivity].
Qed.

Lemma read_rows_all (rows : list Row) (es : list (option string * Entry))
  (d0 : Data) :
  Forall2 (fun row e => read_row float_of_str row = Ok e) rows es ->
  read_rows float_of_str rows d0
  = Ok (fold_left (fun acc e => data_set (fst e) (snd e) acc) es d0).
Proof.
  intros H. revert d0.
  induction H as [| row e rows es Hr _ IH]; intros d0; [reflexivity |].
  cbn [read_rows]. rewrite Hr. cbn [Py.bind fold_left]. apply IH.
Qed.

Lemma read_rows_raise (rows : list Row) (d0 : Data) (e : exn) :
  read_rows float_of_str rows d0 = Raise e ->
  exists (pre : list Row) (row : Row) (post : list Row),
    rows = (pre ++ row :: post)%list
    /\ Forall (fun r => exists x, read_row float_of_str r = Ok x) pre
    /\ read_row float_of_str row = Raise e.
Proof.
  revert d0. induction rows as [| row rows IH]; intros d0 H; [discriminate |].
  cbn [read_rows] in H.
  destruct (read_row float_of_str row) as [x | y] eqn:E; cbn [Py.bind] in H.
  - destruct (IH _ H) as (pre & r & post & -> & Hpre & Hr).
    exists (row :: pre), r, post. split; [reflexivity |].
    split; [constructor; [now exists x | exact Hpre] | exact Hr].
  - injection H as <-. exists [], row, rows.
    split; [reflexivity |]. split; [constructor | exact E].
Qed.

(** X19.  A report is read completely or not at all: [read_csv] returns
    a table exactly when every row can be read, and otherwise fails with
    the error of the first row that cannot.  That error is a [KeyError]
    (a column is missing from the header), a [TypeError] (a row too short
    to have a score or CLS cell) or a [ValueError] (a time cell ending in
    [s]), never anything else. *)
Theorem read_csv_failures (rows : list Row) :
  ((exists d, read_csv float_of_str rows = Ok d)
   <-> Forall (fun row => exists x, read_row float_of_str row = Ok x) rows)
  /\ (forall e : exn,
         read_csv float_of_str rows = Raise e ->
         (e = KeyError \/ e = TypeError \/ e = ValueError)
         /\ exists (pre : list Row) (row : Row) (post : list Row),
             rows = (pre ++ row :: post)%list
             /\ Forall (fun r => exists x, read_row float_of_str r = Ok x) pre
             /\ read_row float_of_str row = Raise e
             /\ row_fault row e).
Proof.
  unfold read_csv. split; [split |].
  - intros (d & H). apply read_rows_ok in H. destruct H as (es & H & _).
    induction H as [| row e rs es Hr _ IH]; constructor;
      [now exists e | exact IH].
  - intros H.
    assert (Hes : exists es,
               Forall2 (fun row e => read_row float_of_str row = Ok e)
                       rows es).
    { induction H as [| row rs (x & Hx) _ (es & IH)].
      - exists []. constructor.
      - exists (x :: es). now constructor. }
    destruct Hes as (es & Hes). eexists. apply (read_rows_all _ Hes).
  - intros e H. apply read_rows_raise in H.
    destruct H as (pre & row & post & -> & Hpre & Hr).
    pose proof (read_row_fault _ Hr) as Hf.
    split.
    + destruct e; simpl in Hf; try contradiction; auto.
    + exists pre, row, post. auto.
Qed.

End Reading.

Lemma read_csv_failures_witness :
  read_row dec_float
    [("URL", Some "u"); ("性能分数", Some "80"); ("LCP", Some "fast s")]
  = Raise ValueError
  /\ row_fault
       [("URL", Some "u"); ("性能分数", Some "80"); ("LCP", Some "fast s")]
       ValueError.
Proof.
  assert (H : read_csv dec_float
                [[("URL", Some "u"); ("性能分数", Some "80");
                  ("LCP", Some "fast s")]]
              = Raise ValueError) by reflexivity.
  destruct (proj2 (read_csv_failures dec_float
                     [[("URL", Some "u"); ("性能分数", Some "80");
                       ("LCP", Some "fast s")]]) ValueError H)
    as (_ & pre & row & post & E & _ & Hr & Hf).
  destruct pre as [| p pre].
  - injection E as <- _. split; [exact Hr | exact Hf].
  - destruct pre; discriminate E.
Defined.

Lemma key_eqb_refl (k : option string) : key_eqb k k = true.
Proof. destruct k as [s |]; [apply String.eqb_refl | reflexivity]. Qed.

Lemma key_eqb_neq (a b : option string) : key_eqb a b = false -> a <> b.
Proof. intros H ->. now rewrite key_eqb_refl in H. Qed.

Lemma data_get_set_same (k : option string) (e : Entry) (d : Data) :
  data_get k (data_set k e d) = Some e.
Proof.
  induction d as [| [k' e'] d IH]; simpl.
  - now rewrite key_eqb_refl.
  - destruct (key_eqb k k') eqn:E; simpl; now rewrite E.
Qed.

Lemma data_get_set_other (u k : option string) (e : Entry) (d : Data) :
  key_eqb u k = false -> data_get u (data_set k e d) = data_get u d.
Proof.
  intros Hu. induction d as [| [k' e'] d IH]; simpl.
  - now rewrite Hu.
  - destruct (key_eqb k k') eqn:E; simpl.
    + apply key_eqb_eq in E. subst k'. now rewrite Hu.
    + destruct (key_eqb u k'); [reflexivity | exact IH].
Qed.

Lemma data_set_keys (k : option string) (e : Entry) (d : Data) :
  (In k (map fst d) /\ map fst (data_set k e d) = map fst d)
  \/ (~ In k (map fst d)
      /\ map fst (data_set k e d) = (map fst d ++ [k])%list).
Proof.
  induction d as [| [k' e'] d IH]; simpl.
  - right. split; [tauto | reflexivity].
  - destruct (key_eqb k k') eqn:E; simpl.
    + apply key_eqb_eq in E. left. split; [now left | reflexivity].
    + apply key_eqb_neq in E.
      destruct IH as [[Hin ->] | [Hnot ->]].
      * left. split; [now right | reflexivity].
      * right. split; [| reflexivity]. intros [H | H]; [congruence | tauto].
Qed.

Lemma fold_set_spec (es : list (option string * Entry)) :
  let d := fold_left (fun acc e => data_set (fst e) (snd e) acc) es [] in
  NoDup (map fst d)
  /\ (forall u,
         data_get u d
         = option_map snd (find (fun e => key_eqb u (fst e)) (rev es)))
  /\ (forall u, In u (map fst d) <-> In u (map fst es))
  /\ (List.length d <= List.length es)%nat.
Proof.
  cbv zeta. induction es as [| e es IH] using rev_ind.
  - simpl. repeat split; try constructor; tauto.
  - destruct IH as (Hnd & Hget & Hkeys & Hlen).
    rewrite fold_left_app. cbn [fold_left].
    set (d := fold_left (fun acc e => data_set (fst e) (snd e) acc) es [])
      in *.
    pose proof (data_set_keys (fst e) (snd e) d) as Hk.
    split; [| split; [| split]].
    + destruct Hk as [[_ ->] | [Hnot ->]]; [exact Hnd |].
      apply NoDup_app; [exact Hnd | constructor; [tauto | constructor] |].
      intros x Hx [<- | []]. tauto.
    + intros u. rewrite rev_app_distr. cbn [rev app find].
      destruct (key_eqb u (fst e)) eqn:E.
      * apply key_eqb_eq in E. subst u. apply data_get_set_same.
      * rewrite (@data_get_set_other u (fst e) (snd e) d E). apply Hget.
    + intros u. rewrite map_app, in_app_iff. cbn [map In].
      destruct Hk as [[Hin ->] | [Hnot ->]].
      * rewrite Hkeys. split; [tauto |].
        intros [H | [<- | []]]; [exact H | now apply Hkeys].
      * rewrite in_app_iff, Hkeys. cbn [In]. tauto.
    + rewrite length_app. cbn [List.length].
      assert (L : (List.length (map fst (data_set (fst e) (snd e) d))
                   <= S (List.length (map fst d)))%nat).
      { destruct Hk as [[_ ->] | [_ ->]];
          [| rewrite length_app; cbn [List.length]]; lia. }
      rewrite !length_map in L. lia.
Qed.

(** X20.  In the table that [read_csv] builds each URL occurs once, and
    it stands for the last row of the report with that URL: a later row
    replaces an earlier one.  The table holds exactly the URLs of the
    rows and is never longer than the report. *)
Theorem read_csv_last_wins (float_of_str : string -> option Q)
  (rows : list Row) (es : list (option string * Entry)) :
  Forall2 (fun row e => read_row float_of_str row = Ok e) rows es ->
  exists d : Data,
    read_csv float_of_str rows = Ok d
    /\ NoDup (map fst d)
    /\ (forall u : option string,
           data_get u d
           = option_map snd (find (fun e => key_eqb u (fst e)) (rev es)))
    /\ (forall u : option string, In u (map fst d) <-> In u (map fst es))
    /\ (List.length d <= List.length rows)%nat.
Proof.
  intros H. unfold read_csv. rewrite (@read_rows_all float_of_str rows es [] H). eexists.
  split; [reflexivity |].
  destruct (fold_set_spec es) as (H1 & H2 & H3 & H4).
  split; [exact H1 |]. split; [exact H2 |]. split; [exact H3 |].
  now rewrite (Forall2_length H).
Qed.

Lemma read_csv_last_wins_witness :
  exists d : Data,
    read_csv dec_float twice_rows = Ok d
    /\ option_map e_score (data_get (Some "u") d) = Some 90.
Proof.
  assert (H : Forall2 (fun row e => read_row dec_float row = Ok e)
                twice_rows twice_entries)
    by (repeat constructor; vm_compute; reflexivity).
  destruct (@read_csv_last_wins dec_float twice_rows twice_entries H)
    as (d & E & _ & Hget & _).
  exists d. split; [exact E |]. rewrite Hget. reflexivity.
Defined.

(* ================================================================== *)
(** * Further properties: the comparison table *)

Lemma combine_fst_snd {A B} (l : list (A * B)) :
  combine (map fst l) (map snd l) = l.
Proof.
  induction l as [| [a b] l IH]; [reflexivity |]. simpl. now rewrite IH.
Qed.

Lemma one_sample_each (old_data new_data : Data) (m : string)
  (us : list (option string)) :
  (forall e : Entry, entry_get e m <> None) ->
  (forall u, In u us -> In u (common_urls old_data new_data)) ->
  List.length (flat_map (sample_of old_data new_data m) us) = List.length us.
Proof.
  intros Hm. induction us as [| u us IH]; intros Hus; [reflexivity |].
  cbn [flat_map]. rewrite length_app, IH by (intros x Hx; apply Hus; now right).
  assert (Hu : In u (common_urls old_data new_data)) by (apply Hus; now left).
  unfold common_urls in Hu. apply filter_In in Hu. destruct Hu as [Ho Hn].
  apply in_map_iff in Ho. destruct Ho as ([k e] & Hk & Hin).
  cbn [fst] in Hk. subst k.
  unfold sample_of.
  destruct (data_get u new_data) as [n |]; [| discriminate].
  destruct (data_get u old_data) as [o |] eqn:Eo.
  - pose proof (Hm o) as H1. pose proof (Hm n) as H2.
    destruct (entry_get o m); [| congruence].
    destruct (entry_get n m); [| congruence]. reflexivity.
  - exfalso. clear - Hin Eo.
    induction old_data as [| [k' e'] d IHd]; [destruct Hin |].
    cbn [data_get] in Eo. destruct (key_eqb u k') eqn:E; [discriminate |].
    destruct Hin as [Hin | Hin]; [| now apply IHd].
    injection Hin as -> _. destruct u as [x |]; cbn in E;
      [now rewrite String.eqb_refl in E | discriminate].
Qed.

(** X21.  The three lists that the comparison fills for a metric have one
    entry per common URL with both values present: they are equally
    long and never longer than the list of common URLs, each difference
    is the new value minus the old value at the same position, and for
    the score and for CLS every common URL has an entry. *)
Theorem diffs_consistent (old_data new_data : Data) (m : string) :
  List.length (new_totals old_data new_data m)
  = List.length (old_totals old_data new_data m)
  /\ List.length (diffs old_data new_data m)
     = List.length (old_totals old_data new_data m)
  /\ diffs old_data new_data m
     = map (fun on => snd on - fst on)
           (combine (old_totals old_data new_data m)
                    (new_totals old_data new_data m))
  /\ (List.length (old_totals old_data new_data m)
      <= List.length (common_urls old_data new_data))%nat
  /\ List.length (old_totals old_data new_data "score")
     = List.length (common_urls old_data new_data)
  /\ List.length (old_totals old_data new_data "cls")
     = List.length (common_urls old_data new_data).
Proof.
  unfold old_totals, new_totals, diffs. rewrite !length_map.
  split; [reflexivity |]. split; [reflexivity |].
  split; [now rewrite combine_fst_snd |].
  split.
  { unfold samples. generalize (common_urls old_data new_data).
    intros us. induction us as [| u us IH]; [apply Nat.le_refl |].
    cbn [flat_map]. rewrite length_app. cbn [List.length].
    assert (List.length (sample_of old_data new_data m u) <= 1)%nat.
    { unfold sample_of.
      destruct (data_get u old_data) as [o |]; [| simpl; lia].
      destruct (data_get u new_data) as [n |]; [| simpl; lia].
      destruct (entry_get o m); [| simpl; lia].
      destruct (entry_get n m); simpl; lia. }
    lia. }
  split; unfold samples; apply one_sample_each; auto;
    intros e; unfold entry_get; cbn; discriminate.
Qed.

Lemma report_line_ok (old_data new_data : Data) (m : string) :
  exists l : list Line,
    report_line old_data new_data m = Ok l
    /\ map l_name l
       = if has_samples old_data new_data m then [metric_names m] else [].
Proof.
  unfold report_line, has_samples.
  destruct (old_totals old_data new_data m) as [| q ot] eqn:Eo.
  - exists []. auto.
  - assert (H1 : q :: ot <> []) by discriminate.
    assert (H2 : new_totals old_data new_data m <> []).
    { intros E. apply (f_equal (@List.length Q)) in E, Eo.
      unfold new_totals in E. unfold old_totals in Eo.
      rewrite length_map in E, Eo. rewrite E in Eo. discriminate. }
    rewrite (average_ok H1), (average_ok H2). cbn [Py.bind].
    set (a := fold_left Qplus (q :: ot) 0 / _).
    set (b := fold_left Qplus (new_totals old_data new_data m) 0 / _).
    destruct (improvement_cases m a b) as [Hz Hnz].
    destruct (Qeq_dec a 0) as [E | E].
    + rewrite (Hz E). cbn [Py.bind]. eexists. split; reflexivity.
    + rewrite (Hnz E). cbn [Py.bind]. eexists. split; reflexivity.
Qed.

Lemma report_lines_ok (old_data new_data : Data) (ms : list string) :
  exists ls : list Line,
    report_lines old_data new_data ms = Ok ls
    /\ map l_name ls
       = map metric_names (filter (has_samples old_data new_data) ms).
Proof.
  induction ms as [| m ms (ls & E & Hn)].
  - exists []. auto.
  - destruct (report_line_ok old_data new_data m) as (l & El & Hl).
    cbn [report_lines filter]. rewrite El, E. cbn [Py.bind].
    eexists. split; [reflexivity |]. rewrite map_app, Hl, Hn.
    now destruct (has_samples old_data new_data m).
Qed.

Lemma data_get_in (u : option string) (d : Data) :
  In u (map fst d) -> exists e, data_get u d = Some e.
Proof.
  induction d as [| [k e] d IH]; [intros [] |]. simpl.
  destruct (key_eqb u k) eqn:E; [intros _; now exists e |].
  intros [H | H]; [| now apply IH].
  subst k. now rewrite key_eqb_refl in E.
Qed.

Lemma common_both (old_data new_data : Data) (u : option string) :
  In u (common_urls old_data new_data)
  <-> (exists o, data_get u old_data = Some o)
      /\ (exists n, data_get u new_data = Some n).
Proof.
  unfold common_urls. rewrite filter_In. split.
  - intros [Hu Hn]. split; [now apply data_get_in |].
    destruct (data_get u new_data) as [n |]; [now exists n | discriminate].
  - intros [(o & Ho) (n & Hn)]. split; [now apply (data_get_key _ _ Ho) |].
    now rewrite Hn.
Qed.

Lemma always_sampled (old_data new_data : Data) (m : string) :
  (forall e : Entry, entry_get e m <> None) ->
  common_urls old_data new_data <> [] ->
  has_samples old_data new_data m = true.
Proof.
  intros Hm Hc. unfold has_samples, old_totals, samples.
  destruct (common_urls old_data new_data) as [| u us] eqn:E; [congruence |].
  assert (Hu : In u (common_urls old_data new_data))
    by (rewrite E; now left).
  apply common_both in Hu. destruct Hu as [(o & Ho) (n & Hn)].
  cbn [flat_map]. unfold sample_of at 1. rewrite Ho, Hn.
  pose proof (Hm o) as H1. pose proof (Hm n) as H2.
  destruct (entry_get o m); [| congruence].
  destruct (entry_get n m); [| congruence]. reflexivity.
Qed.

(** X22.  Once both reports are read the comparison cannot fail: no
    division by zero and no missing key.  It prints one line for each
    metric with a sample, in the order score, lcp, tbt, fcp, cls, ttfb,
    so at most six; without a common URL it prints none, and with one it
    always prints the Score and CLS lines, since a score or CLS cell is
    never read as absent. *)
Theorem compare_total (float_of_str : string -> option Q)
  (old_rows new_rows : list Row) (old_data new_data : Data) :
  read_csv float_of_str old_rows = Ok old_data ->
  read_csv float_of_str new_rows = Ok new_data ->
  exists lines : list Line,
    compare float_of_str old_rows new_rows = Ok lines
    /\ map l_name lines
       = map metric_names (filter (has_samples old_data new_data) metrics)
    /\ (List.length lines <= 6)%nat
    /\ (common_urls old_data new_data = [] -> lines = [])
    /\ (common_urls old_data new_data <> [] ->
        exists rest : list string,
          map l_name lines = "Score" :: rest /\ In "CLS" rest).
Proof.
  intros Ho Hn. unfold compare. rewrite Ho, Hn. cbn [Py.bind].
  destruct (report_lines_ok old_data new_data metrics) as (ls & E & Hnames).
  exists ls. split; [exact E |]. split; [exact Hnames |].
  split.
  { rewrite <- (length_map l_name), Hnames, length_map.
    apply (filter_length_le (has_samples old_data new_data) metrics). }
  split.
  { intros Hc. apply (f_equal (@List.length string)) in Hnames.
    assert (Hf : filter (has_samples old_data new_data) metrics = []).
    { unfold has_samples, old_totals, samples. rewrite Hc. reflexivity. }
    rewrite Hf, length_map in Hnames. now destruct ls. }
  intros Hc. rewrite Hnames. unfold metrics. cbn [filter].
  rewrite (@always_sampled old_data new_data "score"); [| | exact Hc].
  2: { intros e. unfold entry_get. cbn. discriminate. }
  rewrite (@always_sampled old_data new_data "cls"); [| | exact Hc].
  2: { intros e. unfold entry_get. cbn. discriminate. }
  eexists. split; [reflexivity |].
  destruct (has_samples old_data new_data "lcp"),
    (has_samples old_data new_data "tbt"),
    (has_samples old_data new_data "fcp"),
    (has_samples old_data new_data "ttfb"); cbn; tauto.
Qed.

Lemma compare_total_witness :
  exists lines : list Line,
    compare dec_float twice_rows twice_rows = Ok lines
    /\ (List.length lines <= 6)%nat.
Proof.
  destruct (read_csv dec_float twice_rows) as [d | x] eqn:E;
    [| vm_compute in E; discriminate E].
  destruct (@compare_total dec_float twice_rows twice_rows d d E E)
    as (lines & H & _ & L & _).
  exists lines. split; [exact H | exact L].
Defined.

(** X23.  For a positive old average the improvement is positive exactly
    when the new average is the better one (a higher score, a lower time
    or CLS), zero exactly when the averages agree, and at most 100 for a
    metric other than the score whose new average is not negative. *)
Theorem improvement_sign (m : string) (avg_old avg_new : Q) :
  0 < avg_old ->
  exists imp : Q,
    improvement m avg_old avg_new = Ok imp
    /\ (0 < imp <-> if String.eqb m "score" then avg_old < avg_new
                    else avg_new < avg_old)
    /\ (imp == 0 <-> avg_new == avg_old)
    /\ (String.eqb m "score" = false -> 0 <= avg_new -> imp <= 100).
Proof.
  intros Hpos.
  destruct (improvement_cases m avg_old avg_new) as [_ H].
  rewrite H by lra. eexists. split; [reflexivity |].
  assert (Hi : 0 < / avg_old) by now apply Qinv_lt_0_compat.
  assert (Hu : avg_old * / avg_old == 1) by (apply Qmult_inv_r; lra).
  unfold Qdiv. revert Hi Hu. generalize (/ avg_old). intros i Hi Hu.
  destruct (String.eqb m "score").
  - split; [split; intros; nra |]. split; [split; intros; nra |].
    discriminate.
  - split; [split; intros; nra |]. split; [split; intros; nra |].
    intros _ Hn. nra.
Qed.

Lemma improvement_sign_witness :
  exists imp : Q,
    improvement "lcp" 4 3 = Ok imp
    /\ (0 < imp <-> 3 < 4)
    /\ (imp == 0 <-> 3 == 4)
    /\ ((String.eqb "lcp" "score") = false -> 0 <= 3 -> imp <= 100).
Proof.
  assert (H : 0 < 4) by reflexivity.
  exact (@improvement_sign "lcp" 4 3 H).
Defined.

(* ================================================================== *)
(** * Further properties: from the audit's table to the differ *)

Lemma round_half_even_near (x : Q) :
  - (1 # 2) <= inject_Z (round_half_even x) - x <= 1 # 2.
Proof.
  unfold round_half_even.
  pose proof (Qfloor_le x) as Hlo. pose proof (Qlt_floor x) as Hhi.
  rewrite inject_Z_plus in Hhi. change (inject_Z 1) with 1 in Hhi.
  destruct (Qcompare_spec (x - inject_Z (Qfloor x)) (1 # 2)) as [E | L | G].
  - destruct (Z.even (Qfloor x)).
    + lra.
    + rewrite inject_Z_plus. change (inject_Z 1) with 1. lra.
  - lra.
  - rewrite inject_Z_plus. change (inject_Z 1) with 1. lra.
Qed.

Lemma digit_val_char (k : nat) :
  (k < 10)%nat -> digit_val (digit_char k) = Some (Z.of_nat k).
Proof.
  intros H. do 10 (destruct k as [| k]; [reflexivity |]). lia.
Qed.

Lemma digit_plain (c : ascii) (z : Z) :
  digit_val c = Some z ->
  is_space c = false /\ plain_char c = true
  /\ c <> "."%char /\ c <> "-"%char /\ c <> "+"%char.
Proof.
  destruct c as [[] [] [] [] [] [] [] []]; vm_compute; intros H;
    try discriminate H; repeat split; discriminate.
Qed.

Lemma digits_val_app (l1 l2 : list ascii) (acc : Z) :
  digits_val acc (l1 ++ l2)
  = match digits_val acc l1 with
    | Some a => digits_val a l2
    | None => None
    end.
Proof.
  revert acc. induction l1 as [| c l1 IH]; intros acc; [reflexivity |].
  cbn [app digits_val]. destruct (digit_val c); [apply IH | reflexivity].
Qed.

Lemma frac_digits_val (d m : nat) (acc : Z) :
  digits_val acc (frac_digits d m)
  = Some (acc * 10 ^ Z.of_nat d + Z.of_nat (m mod 10 ^ d))%Z.
Proof.
  revert m acc. induction d as [| d IH]; intros m acc.
  - cbn [frac_digits digits_val]. f_equal.
    change (10 ^ 0)%nat with 1%nat. rewrite Nat.mod_1_r.
    change (10 ^ Z.of_nat 0)%Z with 1%Z. lia.
  - cbn [frac_digits]. rewrite digits_val_app, IH. cbn [digits_val].
    rewrite digit_val_char by (apply Nat.mod_upper_bound; lia).
    f_equal. rewrite Nat2Z.inj_succ, Z.pow_succ_r by lia.
    rewrite Nat.pow_succ_r', Nat.Div0.mod_mul_r. lia.
Qed.

Lemma frac_digits_length (d m : nat) : List.length (frac_digits d m) = d.
Proof.
  revert m. induction d as [| d IH]; intros m; [reflexivity |].
  cbn [frac_digits]. rewrite length_app, IH. simpl. lia.
Qed.

Lemma uint_digits (d : Decimal.uint) (acc : Z) :
  (0 <= acc)%Z ->
  digits_val acc (chars (NilEmpty.string_of_uint d))
  = Some (Z.of_nat (Nat.of_uint_acc d (Z.to_nat acc))).
Proof.
  revert acc. induction d as [| d IH | d IH | d IH | d IH | d IH
                              | d IH | d IH | d IH | d IH | d IH];
    intros acc Hacc;
    [cbn; f_equal; lia | ..];
    cbn [NilEmpty.string_of_uint chars list_ascii_of_string digits_val
         Nat.of_uint_acc];
    match goal with
    | |- context [digit_val ?c] =>
        let v := eval vm_compute in (digit_val c) in
        change (digit_val c) with v; cbv iota beta
    end;
    rewrite IH by lia; do 3 f_equal; rewrite Nat.tail_mul_spec; lia.
Qed.

Lemma str_of_nat_val (n : nat) :
  digits_val 0 (chars (str_of_nat n)) = Some (Z.of_nat n).
Proof.
  unfold str_of_nat. rewrite uint_digits by lia.
  change (Z.to_nat 0) with 0%nat.
  change (Nat.of_uint_acc (Nat.to_uint n) 0) with (Nat.of_uint (Nat.to_uint n)).
  now rewrite DecimalNat.Unsigned.of_to.
Qed.

Lemma split_dot_digits (l f : list ascii) (acc z : Z) :
  digits_val acc l = Some z ->
  split_dot (l ++ "."%char :: f) = (l, Some f).
Proof.
  revert acc. induction l as [| c l IH]; intros acc H.
  - reflexivity.
  - cbn [digits_val] in H. destruct (digit_val c) as [k |] eqn:E;
      [| discriminate].
    destruct (@digit_plain c k E) as (_ & _ & Hd & _).
    cbn [app split_dot]. destruct (Ascii.eqb_spec c "."); [contradiction |].
    now rewrite (IH _ H).
Qed.

Lemma digits_plain (l : list ascii) (acc z : Z) :
  digits_val acc l = Some z ->
  Forall (fun c => is_space c = false /\ plain_char c = true
                   /\ c <> "-"%char /\ c <> "+"%char) l.
Proof.
  revert acc. induction l as [| c l IH]; intros acc H; [constructor |].
  cbn [digits_val] in H. destruct (digit_val c) as [k |] eqn:E;
    [| discriminate].
  destruct (@digit_plain c k E) as (H1 & H2 & _ & H3 & H4).
  constructor; [auto | eapply IH; eassumption].
Qed.

Lemma rstrip_nonblank (l : list ascii) :
  Forall (fun c => is_space c = false) l -> rstrip_chars l = l.
Proof.
  induction 1 as [| c l Hc _ IH]; [reflexivity |].
  cbn [rstrip_chars]. rewrite IH, Hc. now destruct l.
Qed.

Lemma nonblank_strip (l : list ascii) :
  Forall (fun c => is_space c = false) l ->
  rstrip_chars (lstrip_chars l) = l.
Proof.
  intros H.
  assert (Hl : lstrip_chars l = l).
  { destruct H as [| c l Hc _]; [reflexivity | now apply lstrip_nonspace]. }
  rewrite Hl. now apply rstrip_nonblank.
Qed.

Lemma round_sign (x : Q) :
  (x < 0 -> (round_half_even x <= 0)%Z)
  /\ (0 <= x -> (0 <= round_half_even x)%Z).
Proof.
  pose proof (round_half_even_near x) as H.
  split; intros Hx.
  - apply Z.lt_succ_r. rewrite Zlt_Qlt. unfold Z.succ.
    rewrite inject_Z_plus. change (inject_Z 0) with 0.
    change (inject_Z 1) with 1. lra.
  - apply Z.lt_pred_le. rewrite Zlt_Qlt. unfold Z.pred.
    rewrite inject_Z_plus. change (inject_Z 0) with 0.
    change (inject_Z (-1)) with (-1). lra.
Qed.

Lemma dec_unsigned_fixed (d a : nat) :
  (0 < d)%nat ->
  exists q : Q,
    dec_unsigned (chars (str_of_nat (a / 10 ^ d))
                  ++ "."%char :: frac_digits d (a mod 10 ^ d))
    = Some q
    /\ q == inject_Z (Z.of_nat a) / inject_Z (10 ^ Z.of_nat d).
Proof.
  intros Hd. unfold dec_unsigned.
  rewrite (@split_dot_digits _ (frac_digits d (a mod 10 ^ d)) _ _
             (str_of_nat_val (a / 10 ^ d))).
  rewrite str_of_nat_val, frac_digits_val, frac_digits_length.
  destruct (chars (str_of_nat (a / 10 ^ d)) ++ frac_digits d (a mod 10 ^ d))%list
    eqn:E.
  { apply (f_equal (@List.length ascii)) in E.
    rewrite length_app, frac_digits_length in E. simpl in E. lia. }
  eexists. split; [reflexivity |].
  rewrite Nat.Div0.mod_mod.
  assert (Hs : (0 < 10 ^ Z.of_nat d)%Z) by (apply Z.pow_pos_nonneg; lia).
  assert (Hq : ~ inject_Z (10 ^ Z.of_nat d) == 0).
  { intros H. unfold Qeq in H. simpl in H. lia. }
  assert (Ha : Z.of_nat a
               = (Z.of_nat (a / 10 ^ d) * 10 ^ Z.of_nat d
                  + Z.of_nat (a mod 10 ^ d))%Z).
  { assert (Hp : (Z.of_nat (10 ^ d) = 10 ^ Z.of_nat d)%Z).
    { rewrite Nat2Z.inj_pow. reflexivity. }
    rewrite <- Hp. rewrite <- Nat2Z.inj_mul, <- Nat2Z.inj_add. f_equal.
    rewrite Nat.mul_comm. apply Nat.div_mod_eq. }
  rewrite Ha, Z.mul_0_l, Z.add_0_l, inject_Z_plus, inject_Z_mult.
  field. exact Hq.
Qed.

Lemma dec_float_fixed (d : nat) (x : Q) :
  (0 < d)%nat ->
  exists q : Q,
    dec_float (decimal_text d x) = Some q
    /\ q == inject_Z (round_half_even (x * inject_Z (Z.of_nat (10 ^ d))))
            / inject_Z (10 ^ Z.of_nat d).
Proof.
  intros Hd. unfold decimal_text.
  set (n := round_half_even (x * inject_Z (Z.of_nat (10 ^ d)))).
  set (a := Z.abs_nat n).
  destruct (Nat.eqb_spec d 0) as [E | _]; [lia |].
  destruct (dec_unsigned_fixed a Hd) as (q & Hq & Hv).
  set (body := (chars (str_of_nat (a / 10 ^ d))
                ++ "."%char :: frac_digits d (a mod 10 ^ d))%list) in *.
  assert (Hplain : Forall (fun c => is_space c = false /\ plain_char c = true
                                    /\ c <> "-"%char /\ c <> "+"%char) body).
  { unfold body. apply Forall_app. split.
    - apply (@digits_plain _ _ _ (str_of_nat_val (a / 10 ^ d))).
    - constructor; [repeat split; discriminate |].
      apply (@digits_plain _ _ _ (frac_digits_val d (a mod 10 ^ d) 0)). }
  assert (Hscale : 0 < inject_Z (Z.of_nat (10 ^ d))).
  { change 0 with (inject_Z 0). rewrite <- Zlt_Qlt.
    apply (inj_lt 0). apply Nat.neq_0_lt_0. apply Nat.pow_nonzero. lia. }
  destruct (round_sign (x * inject_Z (Z.of_nat (10 ^ d)))) as [Hneg Hpos].
  fold n in Hneg, Hpos.
  unfold dec_float, Qlt_bool.
  destruct (Qle_bool_reflect 0 x) as [Hx | Hx]; cbn [negb].
  - (* no sign *)
    assert (Hc : chars ("" ++ str_of_nat (a / 10 ^ d)
                        ++ "." ++ str (frac_digits d (a mod 10 ^ d)))%string
                 = body).
    { change ("" ++ str_of_nat (a / 10 ^ d)
              ++ "." ++ str (frac_digits d (a mod 10 ^ d)))%string
        with (str_of_nat (a / 10 ^ d)
              ++ String "." (str (frac_digits d (a mod 10 ^ d))))%string.
      rewrite chars_app.
      change (chars (String "." (str (frac_digits d (a mod 10 ^ d)))))
        with ("."%char :: chars (str (frac_digits d (a mod 10 ^ d)))).
      now rewrite chars_str. }
    rewrite Hc.
    assert (Hall : forallb plain_char body = true).
    { apply forallb_forall. rewrite Forall_forall in Hplain.
      intros c Hin. now apply Hplain. }
    rewrite Hall, nonblank_strip
      by (eapply Forall_impl; [| exact Hplain]; now intros c (H & _)).
    destruct body as [| c l] eqn:Eb.
    { apply (f_equal (@List.length ascii)) in Eb. unfold body in Eb.
      rewrite length_app in Eb. simpl in Eb. lia. }
    inversion Hplain as [| ? ? (_ & _ & Hm & Hp) _]; subst.
    destruct (Ascii.eqb_spec c "-"); [contradiction |].
    destruct (Ascii.eqb_spec c "+"); [contradiction |].
    exists q. split; [exact Hq |]. rewrite Hv.
    assert (Hn : (0 <= n)%Z) by (apply Hpos; nra).
    unfold a. rewrite Zabs2Nat.id_abs, Z.abs_eq by exact Hn. apply Qeq_refl.
  - (* minus sign *)
    assert (Hc : chars ("-" ++ str_of_nat (a / 10 ^ d)
                        ++ "." ++ str (frac_digits d (a mod 10 ^ d)))%string
                 = "-"%char :: body).
    { change (chars ("-" ++ str_of_nat (a / 10 ^ d)
                     ++ "." ++ str (frac_digits d (a mod 10 ^ d)))%string)
        with ("-"%char
              :: chars (str_of_nat (a / 10 ^ d)
                        ++ String "." (str (frac_digits d (a mod 10 ^ d))))).
      rewrite chars_app.
      change (chars (String "." (str (frac_digits d (a mod 10 ^ d)))))
        with ("."%char :: chars (str (frac_digits d (a mod 10 ^ d)))).
      now rewrite chars_str. }
    rewrite Hc.
    assert (Hall : forallb plain_char ("-"%char :: body) = true).
    { cbn [forallb]. apply andb_true_intro. split; [reflexivity |].
      apply forallb_forall. rewrite Forall_forall in Hplain.
      intros c Hin. now apply Hplain. }
    rewrite Hall, nonblank_strip.
    2: { constructor; [reflexivity |].
         eapply Forall_impl; [| exact Hplain]. now intros c (H & _). }
    cbn [Ascii.eqb Bool.eqb]. rewrite Hq. cbn [option_map].
    eexists. split; [reflexivity |]. rewrite Hv.
    assert (Hn : (n <= 0)%Z).
    { apply Hneg. assert (x < 0) by (apply Qnot_le_lt; exact Hx). nra. }
    unfold a. rewrite Zabs2Nat.id_abs, Z.abs_neq by exact Hn.
    rewrite inject_Z_opp. field.
    intros H. unfold Qeq in H. simpl in H.
    assert (0 < 10 ^ Z.of_nat d)%Z by (apply Z.pow_pos_nonneg; lia). lia.
Qed.

Lemma two_pow_pos (k : Z) : 0 < 2 ^ k.
Proof. apply Qpower_0_lt. reflexivity. Qed.

Lemma log2_floor (x : Q) :
  0 < x ->
  2 ^ (Z.log2 (Qnum x) - Z.log2 (Zpos (Qden x)) - 1) <= x.
Proof.
  intros Hx. destruct x as [n d]. cbn [Qnum Qden].
  assert (Hn : (0 < n)%Z).
  { unfold Qlt in Hx. simpl in Hx. lia. }
  destruct (Z.log2_spec n Hn) as [Hn1 _].
  destruct (Z.log2_spec (Zpos d) (Pos2Z.is_pos d)) as [_ Hd2].
  pose proof (Z.log2_nonneg n) as Ln.
  pose proof (Z.log2_nonneg (Zpos d)) as Ld.
  set (ln := Z.log2 n) in *. set (ld := Z.log2 (Zpos d)) in *.
  replace (ln - ld - 1)%Z with (ln - (ld + 1))%Z by lia.
  rewrite Qpower_minus by discriminate.
  rewrite <- !(Zpower_Qpower 2) by lia.
  apply Qle_shift_div_r.
  { change 0 with (inject_Z 0). rewrite <- Zlt_Qlt.
    apply Z.pow_pos_nonneg; lia. }
  unfold Qle, Qmult, inject_Z. cbn [Qnum Qden].
  rewrite !Z.mul_1_r, Pos.mul_1_r.
  apply Z.le_trans with (n * Zpos d)%Z.
  - apply Z.mul_le_mono_nonneg_r; lia.
  - apply Z.mul_le_mono_nonneg_l; lia.
Qed.

Lemma to_double_near (x : Q) :
  0 < x ->
  - (x * (1 # 9007199254740992)) <= to_double x - x
  <= x * (1 # 9007199254740992).
Proof.
  intros Hx. unfold to_double.
  destruct (Qeq_bool x 0) eqn:E0.
  { apply Qeq_bool_iff in E0. lra. }
  assert (Ha : Qabs x = x).
  { destruct x as [n d]. unfold Qabs. f_equal. apply Z.abs_eq.
    unfold Qlt in Hx. simpl in Hx. lia. }
  rewrite Ha.
  set (e0 := (Z.log2 (Qnum x) - Z.log2 (Zpos (Qden x)))%Z).
  set (e := if Qlt_bool x (2 ^ e0) then (e0 - 1)%Z else e0).
  assert (He : 2 ^ e <= x).
  { unfold e. destruct (Qlt_bool x (2 ^ e0)) eqn:El.
    - apply log2_floor. exact Hx.
    - apply Qlt_bool_false in El. exact El. }
  pose proof (two_pow_pos (52 - e)) as Hs.
  assert (Ht : 4503599627370496 <= x * 2 ^ (52 - e)).
  { apply Qle_trans with (2 ^ e * 2 ^ (52 - e)).
    - rewrite <- Qpower_plus by discriminate.
      replace (e + (52 - e))%Z with 52%Z by lia. vm_compute. discriminate.
    - apply Qmult_le_compat_r; [exact He | lra]. }
  pose proof (round_half_even_near (x * 2 ^ (52 - e))) as Hn.
  revert Hs Ht Hn. generalize (2 ^ (52 - e)). intros s Hs Ht.
  generalize (inject_Z (round_half_even (x * s))). intros m Hn.
  assert (Hd : m / s - x == (m - x * s) / s) by (field; lra).
  rewrite Hd. split.
  - apply Qle_shift_div_l; [exact Hs |]. nra.
  - apply Qle_shift_div_r; [exact Hs |]. nra.
Qed.

Section RoundTrip.

Variable F : Formats.
Variable float_of_str : string -> option Q.

(** What is assumed of [float] on strings, as for the reading of the
    cells. *)
Hypothesis float_blank :
  forall s q, float_of_str s = Some q ->
    float_of_str (lstrip s) = Some q /\ float_of_str (strip s) = Some q.
Hypothesis float_chars :
  forall s q, float_of_str s = Some q ->
    s <> ""%string
    /\ ~ In "s"%char (chars s)
    /\ ~ In "m"%char (chars s)
    /\ ~ In "/"%char (chars s).

(** The text that the formatter writes with two decimals for a number
    between 1 and a thousand million is read back by [float] as a number
    less than a hundredth away. *)
Hypothesis fixed_read :
  forall x : Q,
    1 <= x <= 1000000000 ->
    exists q : Q,
      float_of_str (fmt_fixed F 2 x) = Some q
      /\ - (1 # 100) < q - x < 1 # 100.

Lemma millis_cell (num : string) (q : Q) :
  float_of_str num = Some q ->
  parse_time float_of_str (Some (num ++ "ms")%string) = Ok (Some (q / 1000)).
Proof.
  intros Hnum. destruct (float_blank Hnum) as [Hl _].
  unfold parse_time.
  assert (Hend := endswith_app num "ms").
  destruct (String.eqb_spec (num ++ "ms") ""%string) as [E | _];
    [rewrite E in Hend; discriminate |].
  destruct (String.eqb_spec (num ++ "ms") "N/A"%string) as [E | _];
    [rewrite E in Hend; discriminate |].
  cbn [orb].
  change (num ++ "ms")%string with (num ++ "m" ++ String "s" "")%string.
  rewrite strip_suffix;
    [| reflexivity | intros x r Hx; injection Hx as <- _; reflexivity].
  change (lstrip num ++ "m" ++ String "s" "")%string
    with (lstrip num ++ "ms")%string.
  rewrite endswith_app.
  change 2%nat with (String.length "ms").
  now rewrite drop_last_app, Hl.
Qed.

Lemma seconds_cell (num : string) (q : Q) :
  float_of_str num = Some q ->
  parse_time float_of_str (Some (num ++ "s")%string) = Ok (Some q).
Proof.
  intros Hnum. destruct (float_blank Hnum) as [Hl _].
  unfold parse_time.
  assert (Hend := endswith_app num "s").
  destruct (String.eqb_spec (num ++ "s") ""%string) as [E | _];
    [rewrite E in Hend; discriminate |].
  destruct (String.eqb_spec (num ++ "s") "N/A"%string) as [E | _];
    [rewrite E in Hend; discriminate |].
  cbn [orb].
  change (num ++ "s")%string with (num ++ "" ++ String "s" "")%string.
  rewrite strip_suffix; [| reflexivity | discriminate].
  change (lstrip num ++ "" ++ String "s" "")%string
    with (lstrip num ++ "s")%string.
  rewrite (@seconds_not_millis float_of_str float_chars (lstrip num) q Hl),
    endswith_app.
  change 1%nat with (String.length "s").
  now rewrite drop_last_app, Hl.
Qed.

(** X24.  The differ reads a time cell of the audit's table back in
    seconds.  A value below 1000 ms is written as the nearest whole number
    of milliseconds and read back as that number over 1000, less than a
    millisecond from the value; a value from 1000 ms up to 10^12 ms is
    written in seconds with two decimals and read back as the number
    written, less than a hundredth of a second from the value; an absent
    value is written as an empty cell and read back as absent. *)
Theorem time_cell_round_trip (v : Q) :
  (v < 1000 ->
   float_of_str (str_of_Z (round_half_even v))
   = Some (inject_Z (round_half_even v)) ->
   exists q : Q,
     parse_time float_of_str (Some (fmt_ms F (Some v))) = Ok (Some q)
     /\ q == inject_Z (round_half_even v) / 1000
     /\ - (1 # 2) <= inject_Z (round_half_even v) - v <= 1 # 2
     /\ - (1 # 1000) < q - v / 1000 < 1 # 1000)
  /\ (1000 <= v <= 1000000000000 ->
      exists q : Q,
        float_of_str (fmt_fixed F 2 (v / 1000)) = Some q
        /\ parse_time float_of_str (Some (fmt_ms F (Some v))) = Ok (Some q)
        /\ - (1 # 100) < q - v / 1000 < 1 # 100)
  /\ parse_time float_of_str (Some (fmt_ms F None)) = Ok None.
Proof.
  split; [| split].
  - intros Hv Hf. unfold fmt_ms.
    destruct (Qle_bool_reflect 1000 v) as [L | _]; [lra |].
    rewrite (millis_cell Hf). eexists. split; [reflexivity |].
    split; [apply Qeq_refl |].
    pose proof (round_half_even_near v) as Hn.
    split; [exact Hn |]. revert Hn.
    generalize (inject_Z (round_half_even v)). intros z Hn.
    assert (E : forall a, a / 1000 == a * (1 # 1000)) by (intros a; field).
    rewrite !E. lra.
  - intros [Hv Hmax]. unfold fmt_ms.
    destruct (Qle_bool_reflect 1000 v) as [_ | N]; [| contradiction].
    assert (Hr : 1 <= v / 1000 <= 1000000000).
    { assert (E : v / 1000 == v * (1 # 1000)) by field. rewrite E.
      split; lra. }
    destruct (fixed_read Hr) as (q & Hf & Hb).
    exists q. split; [exact Hf |].
    split; [apply (seconds_cell Hf) | exact Hb].
  - reflexivity.
Qed.

End RoundTrip.

Lemma dec_fixed_read (x : Q) :
  1 <= x <= 1000000000 ->
  exists q : Q,
    dec_float (fmt_fixed plain_formats 2 x) = Some q
    /\ - (1 # 100) < q - x < 1 # 100.
Proof.
  intros Hx. cbn [fmt_fixed plain_formats]. unfold fixed_text.
  destruct (@dec_float_fixed 2 (to_double x)) as (q & Hq & Hv); [lia |].
  exists q. split; [exact Hq |].
  change (inject_Z (Z.of_nat (10 ^ 2))) with 100 in Hv.
  change (inject_Z (10 ^ Z.of_nat 2)) with 100 in Hv.
  assert (Hpos : 0 < x) by lra.
  pose proof (to_double_near Hpos) as Hd.
  pose proof (round_half_even_near (to_double x * 100)) as Hn.
  revert Hv Hn Hd. generalize (to_double x). intros y.
  generalize (inject_Z (round_half_even (y * 100))). intros z Hv Hn Hd.
  rewrite Hv.
  assert (E : z / 100 == z * (1 # 100)) by field. rewrite E. lra.
Qed.

Lemma time_cell_round_trip_witness :
  (exists q : Q,
      parse_time dec_float (Some (fmt_ms plain_formats (Some (8504 # 10))))
      = Ok (Some q)
      /\ q == inject_Z (round_half_even (8504 # 10)) / 1000
      /\ - (1 # 2) <= inject_Z (round_half_even (8504 # 10)) - (8504 # 10)
         <= 1 # 2
      /\ - (1 # 1000) < q - (8504 # 10) / 1000 < 1 # 1000)
  /\ fmt_ms plain_formats (Some 2345) = "2.35s"
  /\ (exists q : Q,
         dec_float (fmt_fixed plain_formats 2 (2345 / 1000)) = Some q
         /\ parse_time dec_float (Some (fmt_ms plain_formats (Some 2345)))
            = Ok (Some q)
         /\ - (1 # 100) < q - 2345 / 1000 < 1 # 100).
Proof.
  assert (H1 : 8504 # 10 < 1000) by reflexivity.
  assert (H2 : dec_float (str_of_Z (round_half_even (8504 # 10)))
               = Some (inject_Z (round_half_even (8504 # 10))))
    by (vm_compute; reflexivity).
  assert (H3 : 1000 <= 2345 <= 1000000000000) by (split; discriminate).
  split; [| split; [vm_compute; reflexivity |]].
  - exact (proj1 (@time_cell_round_trip plain_formats dec_float
                    dec_float_blank dec_float_chars dec_fixed_read
                    (8504 # 10)) H1 H2).
  - exact (proj1 (proj2 (@time_cell_round_trip plain_formats dec_float
                           dec_float_blank dec_float_chars dec_fixed_read
                           2345)) H3).
Defined.

(** X25.  A URL whose runs all failed is written as a row with the
    header's columns and empty metric cells, and the differ reads that
    row as score 0, CLS 0 and no time metric: in a comparison the URL
    counts with a score of 0 rather than being left out. *)
Theorem failed_row_reads_zero (F : Formats)
  (float_of_str : string -> option Q) (r : UrlResult) :
  float_of_str "" = None -> is_ok r = false ->
  exists cells : list (string * string),
    csv_row F r = Ok cells
    /\ map fst cells = csv_fieldnames
    /\ read_row float_of_str (read_back cells)
       = Ok (Some (result_url r), mkEntry 0 None None None 0 None).
Proof.
  intros Hf Hr. destruct r as [f | fr]; [| discriminate].
  simpl in Hr. unfold csv_row. rewrite Hr. cbn [negb].
  eexists. split; [reflexivity |]. split; [reflexivity |].
  unfold read_back, read_row, cell. cbn [map fst snd].
  cbn [row_assoc String.eqb Ascii.eqb Bool.eqb Py.bind].
  unfold parse_score. rewrite Hf. reflexivity.
Qed.

Lemma failed_row_reads_zero_witness :
  exists cells : list (string * string),
    csv_row plain_formats
      (AllFailed (mkFailed "https://a.example/" "mobile"
                    "Lighthouse failed (rc=1)" ["Lighthouse failed (rc=1)"]))
    = Ok cells
    /\ map fst cells = csv_fieldnames
    /\ read_row dec_float (read_back cells)
       = Ok (Some "https://a.example/", mkEntry 0 None None None 0 None).
Proof.
  exact (@failed_row_reads_zero plain_formats dec_float
           (AllFailed (mkFailed "https://a.example/" "mobile"
                         "Lighthouse failed (rc=1)"
                         ["Lighthouse failed (rc=1)"]))
           eq_refl eq_refl).
Defined.

(** X26.  What [run_url_repeats] returns can always be written to the
    table: the row has exactly the columns of the header, its URL cell is
    the URL, and its error cell is empty exactly when a repeat succeeded.
    Writing a row fails only with [KeyError], and only for a result
    with an empty error message and no grades, which [run_url_repeats]
    never returns. *)
Theorem row_of_result (F : Formats) (tool : nat -> string -> ToolOutcome)
  (url : string) (repeats : nat) (out_dir device : string) :
  (exists (r : UrlResult) (cells : list (string * string)),
      run_url_repeats F tool url repeats out_dir device = Ok r
      /\ csv_row F r = Ok cells
      /\ map fst cells = csv_fieldnames
      /\ In ("URL", url) cells
      /\ (In ("错误信息", "") cells
          <-> successes (map (attempt F tool url repeats out_dir device)
                             (seq 0 repeats)) <> []))
  /\ (forall (r : UrlResult) (e : exn),
         csv_row F r = Raise e ->
         e = KeyError /\ exists f, r = AllFailed f /\ error f = "").
Proof.
  split.
  - pose proof (@repeats_outcome F tool url out_dir device repeats) as H.
    cbv zeta in H. destruct H as [_ H].
    destruct (successes (map (attempt F tool url repeats out_dir device)
                             (seq 0 repeats))) as [| first rest] eqn:Es.
    + destruct H as (f & E & Hne & _).
      exists (AllFailed f). unfold csv_row.
      apply String.eqb_neq in Hne. rewrite Hne. cbn [negb].
      eexists. split; [exact E |]. split; [reflexivity |].
      split; [reflexivity |].
      assert (Hu : f_url f = url).
      { unfold run_url_repeats in E. rewrite repeat_loop in E.
        cbn [fst snd app] in E. rewrite Es in E.
        injection E as <-. reflexivity. }
      split; [left; now rewrite Hu |].
      split; [| congruence]. intros Hin. exfalso.
      apply String.eqb_neq in Hne. cbn [In] in Hin.
      repeat (destruct Hin as [Hin | Hin]; [try discriminate Hin |]);
        [| destruct Hin].
      injection Hin as Hin. congruence.
    + destruct H as (fr & E & _).
      exists (Folded fr). unfold csv_row.
      eexists. split; [exact E |]. split; [reflexivity |].
      split; [reflexivity |].
      assert (Hu : url_of fr = url).
      { unfold run_url_repeats in E. rewrite repeat_loop in E.
        cbn [fst snd app] in E. rewrite Es in E. rewrite !median_total in E.
        cbn [Py.bind] in E. injection E as <-. reflexivity. }
      split; [left; now rewrite Hu |].
      split; [discriminate |]. intros _. cbn [In]. do 17 right. now left.
  - intros r e H. destruct r as [f | fr]; [| discriminate].
    unfold csv_row in H. destruct (String.eqb_spec (error f) "") as [E | _];
      [| discriminate].
    cbn [negb] in H. injection H as <-. split; [reflexivity |]. now exists f.
Qed.

Lemma failures_in {A B} (l : list (A + B)) (b : B) :
  In (inr b) l -> In b (failures l).
Proof.
  induction l as [| [a | b'] l IH]; simpl; [tauto | |].
  - intros [H | H]; [discriminate | now apply IH].
  - intros [H | H]; [left; congruence | right; now apply IH].
Qed.

(** X27.  A report that the extractor cannot read does not stop the
    batch: the repeat counts as failed, the extractor's error text is
    recorded among the errors of the URL's result, and with a single
    repeat the result is the all-failed one. *)
Theorem malformed_report_recorded (F : Formats)
  (tool : nat -> string -> ToolOutcome) (url : string) (repeats : nat)
  (out_dir device : string) (i : nat) (lhr : value) (e : exn) :
  (i < repeats)%nat ->
  tool i (lhr_path url out_dir device (run_id_of repeats i)) = ToolReport lhr ->
  extract_metrics lhr = Raise e ->
  exists r : UrlResult,
    run_url_repeats F tool url repeats out_dir device = Ok r
    /\ In (str_exn F e) (match r with
                         | AllFailed f => allErrors f
                         | Folded fr => errors fr
                         end)
    /\ (repeats = 1%nat -> exists f, r = AllFailed f).
Proof.
  intros Hi Ht He.
  assert (Ha : attempt F tool url repeats out_dir device i
               = inr (str_exn F e)).
  { unfold attempt, lighthouse_once. now rewrite Ht, He. }
  assert (Hin : In (str_exn F e)
                  (failures (map (attempt F tool url repeats out_dir device)
                                 (seq 0 repeats)))).
  { apply failures_in. rewrite <- Ha. apply in_map, in_seq. lia. }
  pose proof (@repeats_outcome F tool url out_dir device repeats) as H.
  cbv zeta in H. destruct H as [Hlen H].
  destruct (successes (map (attempt F tool url repeats out_dir device)
                           (seq 0 repeats))) as [| first rest] eqn:Es.
  - destruct H as (f & E & _ & Hall & _).
    exists (AllFailed f). split; [exact E |].
    split; [now rewrite Hall | intros _; now exists f].
  - destruct H as (fr & E & Herr & _).
    exists (Folded fr). split; [exact E |].
    split; [now rewrite Herr |].
    intros ->. exfalso. assert (i = 0)%nat by lia. subst i.
    cbn [seq map] in Es. rewrite Ha in Es. discriminate Es.
Qed.

Lemma malformed_report_recorded_witness :
  exists r : UrlResult,
    run_url_repeats plain_formats
      (fun _ _ => ToolReport (VDict [("audits"%string, VList [VInt 1])]))
      "https://a.example/" 1 "out" "mobile" = Ok r
    /\ In (str_exn plain_formats AttributeError)
          (match r with
           | AllFailed f => allErrors f
           | Folded fr => errors fr
           end)
    /\ (1%nat = 1%nat -> exists f, r = AllFailed f).
Proof.
  assert (H1 : (0 < 1)%nat) by lia.
  exact (@malformed_report_recorded plain_formats
           (fun _ _ => ToolReport (VDict [("audits"%string, VList [VInt 1])]))
           "https://a.example/" 1 "out" "mobile" 0
           (VDict [("audits"%string, VList [VInt 1])]) AttributeError
           H1 eq_refl eq_refl).
Defined.
